(** * Verification of geocode_locations_google.py

    A shallow embedding of the geocoding script: the address builder
    ([construct_address]), the directional-offset parser
    ([extract_base_location], [parse_directional_offset]), the geodesic
    projection ([apply_offset]), the quality flags
    ([flag_potential_issues] and the post-geocode flags of [main]) and the
    per-row orchestration of [main].

    Conventions of the embedding.
    - A Python [str] is a [string] whose characters are the code points
      U+0000..U+00FF; the character classes below are Python's (Unicode)
      classes restricted to that range.
    - A Python [float] is a binary64 [PrimFloat.float]; [float(s)] and
      [repr] are the correctly rounded conversions.
    - Python's [math] module is a parameter of the model ([pymath]): what
      [math.sin], [math.cos], [math.asin] and [math.atan2] return is the
      business of the platform's C library.  [apply_offset] is computed in
      binary64 around these calls and keeps a list of them;
      [math.radians] and [math.degrees] are the binary64 products CPython
      defines them to be.
    - The provider is a function from requests to responses, a response
      being an exception of the requests library or the JSON value of the
      body; reading and writing the table, printing and the delay between
      requests are left out. *)

From Stdlib Require Import ZArith List Bool Ascii String DecimalString Lia.
From Stdlib Require Import Floats.
From Stdlib Require Import Reals Lra.
Import ListNotations.

Local Open Scope string_scope.

(** ** Characters and strings, as Python's [str] methods see them *)

Module PyStr.

Definition code (c : ascii) : nat := nat_of_ascii c.

Definition between (lo hi : nat) (c : ascii) : bool :=
  (lo <=? code c)%nat && (code c <=? hi)%nat.

(** [str.isspace] on one character; also the regex class [\s]. *)
Definition is_space (c : ascii) : bool :=
  between 9 13 c || between 28 32 c || (code c =? 133)%nat || (code c =? 160)%nat.

(** The regex class [\d] (decimal digits). *)
Definition is_decimal (c : ascii) : bool := between 48 57 c.

(** [str.isdigit] on one character (it also accepts the superscripts). *)
Definition is_digit_char (c : ascii) : bool :=
  between 48 57 c || between 178 179 c || (code c =? 185)%nat.

Definition is_upper_char (c : ascii) : bool :=
  between 65 90 c || between 192 214 c || between 216 222 c.

Definition is_lower_char (c : ascii) : bool :=
  between 97 122 c || (code c =? 170)%nat || (code c =? 181)%nat
  || (code c =? 186)%nat || between 223 246 c || between 248 255 c.

(** The regex class [\w]. *)
Definition is_word (c : ascii) : bool :=
  between 48 57 c || between 65 90 c || (code c =? 95)%nat || between 97 122 c
  || (code c =? 170)%nat || between 178 179 c || (code c =? 181)%nat
  || between 185 186 c || between 188 190 c || between 192 214 c
  || between 216 246 c || between 248 255 c.

Definition lower_char (c : ascii) : ascii :=
  if is_upper_char c then ascii_of_nat (code c + 32) else c.

(** [str.upper] on one character.  The three lower-case letters of the range
    whose upper case lies outside it (U+00B5, U+00DF, U+00FF) are left as
    they are; [upper] is only applied to text matched by ASCII letters. *)
Definition upper_char (c : ascii) : ascii :=
  if between 97 122 c || between 224 246 c || between 248 254 c
  then ascii_of_nat (code c - 32) else c.

Fixpoint map_string (f : ascii -> ascii) (s : string) : string :=
  match s with
  | EmptyString => EmptyString
  | String c s' => String (f c) (map_string f s')
  end.

Definition lower (s : string) : string := map_string lower_char s.
Definition upper (s : string) : string := map_string upper_char s.

Fixpoint forallb_string (p : ascii -> bool) (s : string) : bool :=
  match s with
  | EmptyString => true
  | String c s' => p c && forallb_string p s'
  end.

Fixpoint existsb_string (p : ascii -> bool) (s : string) : bool :=
  match s with
  | EmptyString => false
  | String c s' => p c || existsb_string p s'
  end.

(** Truth value of a string: non-empty. *)
Definition nonempty (s : string) : bool :=
  match s with EmptyString => false | String _ _ => true end.

(** [str.isupper]: at least one cased character, and no lower-case one. *)
Definition isupper (s : string) : bool :=
  existsb_string is_upper_char s && negb (existsb_string is_lower_char s).

(** [str.isdigit]: non-empty and made of digits. *)
Definition isdigit (s : string) : bool :=
  nonempty s && forallb_string is_digit_char s.

Fixpoint lstrip (s : string) : string :=
  match s with
  | EmptyString => EmptyString
  | String c s' => if is_space c then lstrip s' else s
  end.

(** [rstrip]: a suffix made of whitespace only is dropped. *)
Fixpoint rstrip (s : string) : string :=
  match s with
  | EmptyString => EmptyString
  | String c s' =>
      match rstrip s' with
      | EmptyString => if is_space c then EmptyString else String c EmptyString
      | r => String c r
      end
  end.

Definition strip (s : string) : string := rstrip (lstrip s).

Fixpoint starts_with (p s : string) : bool :=
  match p, s with
  | EmptyString, _ => true
  | String a p', String b s' => Ascii.eqb a b && starts_with p' s'
  | String _ _, EmptyString => false
  end.

(** [sub in s] *)
Fixpoint contains (sub s : string) : bool :=
  starts_with sub s
  || match s with
     | EmptyString => false
     | String _ s' => contains sub s'
     end.

Fixpoint rev_string_acc (s acc : string) : string :=
  match s with
  | EmptyString => acc
  | String c s' => rev_string_acc s' (String c acc)
  end.

Definition rev_string (s : string) : string := rev_string_acc s EmptyString.

Definition ends_with (p s : string) : bool :=
  starts_with (rev_string p) (rev_string s).

(** [sep.join(parts)] *)
Fixpoint join (sep : string) (parts : list string) : string :=
  match parts with
  | [] => EmptyString
  | [p] => p
  | p :: ps => p ++ sep ++ join sep ps
  end.

(** [len(s.split())]: the number of maximal runs of non-whitespace. *)
Fixpoint count_words (inword : bool) (s : string) : nat :=
  match s with
  | EmptyString => 0
  | String c s' =>
      if is_space c then count_words false s'
      else if inword then count_words true s'
      else S (count_words true s')
  end.

Definition word_count (s : string) : nat := count_words false s.

End PyStr.

Import PyStr.

(** ** Regular expressions: a backtracking matcher for the fragment of
    Python's [re] that the script uses *)

Module PyRe.

Inductive regex : Type :=
| Eps                              (* the empty pattern *)
| Lit (c : ascii)                  (* a literal character *)
| OneOf (cs : string)              (* [...] over listed characters *)
| Digit                            (* \d *)
| Space                            (* \s *)
| Bound                            (* \b *)
| Eos                              (* $ *)
| Seq (r1 r2 : regex)
| Alt (r1 r2 : regex)              (* r1|r2, r1 tried first *)
| Star (r : regex)                 (* greedy r* *)
| Group (n : nat) (r : regex).     (* the n-th capturing group *)

Definition opt (r : regex) : regex := Alt r Eps.                (* r? *)
Definition plus (r : regex) : regex := Seq r (Star r).          (* r+ *)
Definition upto3 (r : regex) : regex := Seq r (opt (Seq r (opt r))). (* r{1,3} *)

Fixpoint lit (s : string) : regex :=
  match s with
  | EmptyString => Eps
  | String c EmptyString => Lit c
  | String c s' => Seq (Lit c) (lit s')
  end.

Fixpoint seqs (rs : list regex) : regex :=
  match rs with
  | [] => Eps
  | [r] => r
  | r :: rs' => Seq r (seqs rs')
  end.

Fixpoint alts (rs : list regex) : regex :=
  match rs with
  | [] => Eps
  | [r] => r
  | r :: rs' => Alt r (alts rs')
  end.

(** Where the matcher stands: the character before, the text ahead and the
    index of the next character. *)
Record cursor : Type := Cursor {
  before : option ascii;
  ahead : string;
  pos : nat
}.

Definition captures : Type := list (nat * string).

Record rmatch : Type := Match {
  m_start : nat;
  m_end : nat;
  m_groups : captures
}.

Fixpoint group (n : nat) (caps : captures) : string :=
  match caps with
  | [] => EmptyString
  | (i, s) :: caps' => if (i =? n)%nat then s else group n caps'
  end.

Definition same_char (ic : bool) (a b : ascii) : bool :=
  if ic then Ascii.eqb (lower_char a) (lower_char b) else Ascii.eqb a b.

Definition is_word_opt (o : option ascii) : bool :=
  match o with Some c => is_word c | None => false end.

Definition next_char (cu : cursor) : option ascii :=
  match ahead cu with EmptyString => None | String c _ => Some c end.

Definition at_boundary (cu : cursor) : bool :=
  xorb (is_word_opt (before cu)) (is_word_opt (next_char cu)).

(** [$] without MULTILINE: the end of the text, or just before a final
    newline. *)
Definition at_end (cu : cursor) : bool :=
  match ahead cu with
  | EmptyString => true
  | String c EmptyString => Ascii.eqb c "010"%char
  | _ => false
  end.

Section Matcher.
Variable ic : bool.               (* re.IGNORECASE *)
Context {A : Type}.

Definition eat (p : ascii -> bool) (cu : cursor) (caps : captures)
    (k : cursor -> captures -> option A) : option A :=
  match ahead cu with
  | String c s' => if p c then k (Cursor (Some c) s' (S (pos cu))) caps else None
  | EmptyString => None
  end.

Fixpoint run (r : regex) (cu : cursor) (caps : captures)
    (k : cursor -> captures -> option A) {struct r} : option A :=
  match r with
  | Eps => k cu caps
  | Lit c => eat (same_char ic c) cu caps k
  | OneOf cs => eat (fun x => existsb_string (same_char ic x) cs) cu caps k
  | Digit => eat is_decimal cu caps k
  | Space => eat is_space cu caps k
  | Bound => if at_boundary cu then k cu caps else None
  | Eos => if at_end cu then k cu caps else None
  | Seq r1 r2 => run r1 cu caps (fun cu' caps' => run r2 cu' caps' k)
  | Alt r1 r2 =>
      match run r1 cu caps k with
      | Some x => Some x
      | None => run r2 cu caps k
      end
  | Star r1 =>
      (fix loop (fuel : nat) (cu : cursor) (caps : captures) : option A :=
         match fuel with
         | O => k cu caps
         | S fuel' =>
             match run r1 cu caps
                     (fun cu' caps' =>
                        if (pos cu <? pos cu')%nat then loop fuel' cu' caps'
                        else None) with
             | Some x => Some x
             | None => k cu caps
             end
         end) (S (String.length (ahead cu))) cu caps
  | Group n r1 =>
      run r1 cu caps
        (fun cu' caps' =>
           k cu' ((n, substring 0 (pos cu' - pos cu) (ahead cu)) :: caps'))
  end.
End Matcher.

(** [re.search]: the match at the leftmost position where one exists. *)
Fixpoint search_at (ic : bool) (r : regex) (prev : option ascii) (s : string)
    (i : nat) : option rmatch :=
  match run ic r (Cursor prev s i) []
          (fun cu caps => Some (Match i (pos cu) caps)) with
  | Some m => Some m
  | None =>
      match s with
      | EmptyString => None
      | String c s' => search_at ic r (Some c) s' (S i)
      end
  end.

Definition search (ic : bool) (r : regex) (s : string) : option rmatch :=
  search_at ic r None s 0.

Definition found (ic : bool) (r : regex) (s : string) : bool :=
  match search ic r s with Some _ => true | None => false end.

(** [\bword\b] *)
Definition word (w : string) : regex := seqs [Bound; lit w; Bound].

End PyRe.

Import PyRe.

(** ** Python numbers: [float] as binary64, and the values of the bearing
    table, which are [int] or [float] *)

Module PyNum.

Local Open Scope Z_scope.

(** The correctly rounded binary64 value of [c * 10^p], as [float(s)]
    computes it for a decimal numeral [s]. *)
Definition decimal_value (c : Z) (p : Z) : float :=
  match c with
  | Zpos m =>
      if 0 <=? p
      then SF2Prim (binary_normalize prec emax (Zpos m * 10 ^ p) 0 false)
      else SF2Prim (SFdiv prec emax (S754_finite false m 0)
                      (S754_finite false (Z.to_pos (10 ^ (- p))) 0))
  | _ => PrimFloat.zero
  end.

Definition digit_value (c : ascii) : Z := Z.of_nat (nat_of_ascii c) - 48.

Fixpoint digits_value (acc : Z) (s : string) : Z :=
  match s with
  | EmptyString => acc
  | String c s' => digits_value (10 * acc + digit_value c) s'
  end.

Fixpoint split_point (s : string) : string * string :=
  match s with
  | EmptyString => (EmptyString, EmptyString)
  | String c s' =>
      if Ascii.eqb c "."%char then (EmptyString, s')
      else let (a, b) := split_point s' in (String c a, b)
  end.

(** [float(s)] for a numeral [s] of the shape [\d+\.?\d*]. *)
Definition float_of_numeral (s : string) : float :=
  let (ip, fp) := split_point s in
  decimal_value (digits_value 0 (ip ++ fp)) (- Z.of_nat (String.length fp)).

(** floor (m * 2^e * 10^p) *)
Definition scaled_num (m : positive) (e p : Z) : Z :=
  Zpos m * 2 ^ Z.max e 0 * 10 ^ Z.max p 0.
Definition scaled_den (e p : Z) : Z :=
  2 ^ Z.max (- e) 0 * 10 ^ Z.max (- p) 0.
Definition scaled_floor (m : positive) (e p : Z) : Z :=
  scaled_num m e p / scaled_den e p.

(** The decimal exponent [E] of [m * 2^e]: [10^E <= m * 2^e < 10^(E+1)]. *)
Definition decimal_exponent (m : positive) (e : Z) : Z :=
  let b := Zpos (digits2_pos m) + e in
  let e0 := ((b - 1) * 30103) / 100000 in
  let fits E := let f := scaled_floor m e (- E) in (1 <=? f) && (f <=? 9) in
  if fits (e0 + 1) then e0 + 1 else if fits e0 then e0 else e0 - 1.

(** The candidates with [n] significant digits around [x = m * 2^e]; the one
    that reads back as [x], the closer to [x] when both do. *)
Definition candidate (x : float) (m : positive) (e E : Z) (n : Z) : option (Z * Z) :=
  let q := E - n + 1 in
  let lo := scaled_floor m e (- q) in
  let hi := lo + 1 in
  let ok c := PrimFloat.eqb (decimal_value c q) x in
  let lo_closer :=
    match 2 * scaled_num m e (- q) ?= (2 * lo + 1) * scaled_den e (- q) with
    | Lt => true
    | Eq => Z.even lo
    | Gt => false
    end in
  match ok lo, ok hi with
  | true, true => Some (if lo_closer then lo else hi, q)
  | true, false => Some (lo, q)
  | false, true => Some (hi, q)
  | false, false => None
  end.

Fixpoint shortest (x : float) (m : positive) (e E : Z) (n : Z) (fuel : nat)
    : Z * Z :=
  match fuel with
  | O => (scaled_floor m e (- (E - n + 1)), E - n + 1)
  | S fuel' =>
      match candidate x m e E n with
      | Some r => r
      | None => shortest x m e E (n + 1) fuel'
      end
  end.

Definition digits_of (z : Z) : string :=
  DecimalString.NilZero.string_of_uint (N.to_uint (Z.to_N z)).

Fixpoint zeros (n : nat) : string :=
  match n with O => EmptyString | S n' => String "0"%char (zeros n') end.

Fixpoint drop_zeros_rev (s : string) : string :=
  match s with
  | String c s' => if Ascii.eqb c "0"%char then drop_zeros_rev s' else s
  | EmptyString => EmptyString
  end.

Definition strip_trailing_zeros (s : string) : string :=
  rev_string (drop_zeros_rev (rev_string s)).

(** The layout of [repr]: digits [ds] stand for [0.ds * 10^decpt]. *)
Definition layout (ds : string) (decpt : Z) : string :=
  let n := Z.of_nat (String.length ds) in
  if (decpt <=? -4) || (16 <? decpt) then
    let ex := decpt - 1 in
    let mant :=
      match ds with
      | String c EmptyString => ds
      | String c rest => String c (String "."%char rest)
      | EmptyString => ds
      end in
    let exs := digits_of (Z.abs ex) in
    let exs := if Z.abs ex <? 10 then String "0"%char exs else exs in
    let sign := if ex <? 0 then "-"%string else "+"%string in
    (mant ++ "e" ++ sign ++ exs)%string
  else if decpt <=? 0 then
    ("0." ++ zeros (Z.to_nat (- decpt)) ++ ds)%string
  else if n <=? decpt then
    (ds ++ zeros (Z.to_nat (decpt - n)) ++ ".0")%string
  else
    (substring 0 (Z.to_nat decpt) ds ++ "."
       ++ substring (Z.to_nat decpt) (Z.to_nat (n - decpt)) ds)%string.

(** [repr(x)], which is also what an f-string writes for a float: the
    shortest decimal that reads back as [x]. *)
Definition float_repr (x : float) : string :=
  match Prim2SF x with
  | S754_nan => "nan"
  | S754_infinity s => if s then "-inf" else "inf"
  | S754_zero s => if s then "-0.0" else "0.0"
  | S754_finite s m e =>
      let E := decimal_exponent m e in
      let (c, q) := shortest (PrimFloat.abs x) m e E 1 17 in
      let ds := strip_trailing_zeros (digits_of c) in
      let decpt := Z.of_nat (String.length (digits_of c)) + q in
      let sign := if s then "-"%string else ""%string in
      (sign ++ layout ds decpt)%string
  end.

(** A number as the bearing table holds them. *)
Inductive pynum : Type :=
| PInt (z : Z)
| PFloat (x : float).

(** Truth value of a float: false exactly for [0.0] and [-0.0]. *)
Definition float_truthy (x : float) : bool := negb (PrimFloat.eqb x PrimFloat.zero).

Definition num_truthy (v : pynum) : bool :=
  match v with
  | PInt z => negb (z =? 0)
  | PFloat x => float_truthy x
  end.

Definition int_str (z : Z) : string :=
  DecimalString.NilZero.string_of_int (Z.to_int z).

(** What an f-string writes for the number. *)
Definition num_str (v : pynum) : string :=
  match v with
  | PInt z => int_str z
  | PFloat x => float_repr x
  end.


(** [float(n)] for an int: the nearest binary64 value.  It is OverflowError
    when that would be an infinity; the ints of the bearing table are far
    from it. *)
Definition int_to_float (z : Z) : float :=
  SF2Prim (binary_normalize prec emax z 0 false).

(** The number as a float, as [math.radians] takes its argument. *)
Definition num_float (v : pynum) : float :=
  match v with
  | PInt z => int_to_float z
  | PFloat x => x
  end.

(** *** [float(s)] for any str *)

Fixpoint span_digits (s : string) : string * string :=
  match s with
  | String c s' =>
      if is_decimal c
      then let (ds, rest) := span_digits s' in (String c ds, rest)
      else (EmptyString, s)
  | EmptyString => (EmptyString, EmptyString)
  end.

(** Underscores stand between two digits only; they are dropped. *)
Fixpoint drop_underscores (prev : ascii) (s : string) : option string :=
  match s with
  | EmptyString => if Ascii.eqb prev "_" then None else Some EmptyString
  | String c s' =>
      if Ascii.eqb c "_" then
        if is_decimal prev then drop_underscores c s' else None
      else if Ascii.eqb prev "_" && negb (is_decimal c) then None
      else option_map (String c) (drop_underscores c s')
  end.

(** The whitespace [float] strips: the ASCII whitespace and, of the other
    code points, the two Unicode spaces of the range. *)
Definition float_space (c : ascii) : bool :=
  between 9 13 c || (code c =? 32)%nat || (code c =? 133)%nat
  || (code c =? 160)%nat.

Fixpoint trim_left (s : string) : string :=
  match s with
  | EmptyString => EmptyString
  | String c s' => if float_space c then trim_left s' else s
  end.

Fixpoint trim_right (s : string) : string :=
  match s with
  | EmptyString => EmptyString
  | String c s' =>
      match trim_right s' with
      | EmptyString => if float_space c then EmptyString else String c EmptyString
      | r => String c r
      end
  end.

Definition split_sign (s : string) : bool * string :=
  match s with
  | String "-" s' => (true, s')
  | String "+" s' => (false, s')
  | _ => (false, s)
  end.

(** [float(s)] for a str: an optional sign, then inf, infinity or nan in any
    case, or a decimal numeral with an optional exponent.  [None] stands for
    ValueError. *)
Definition float_of_str (s : string) : option float :=
  match drop_underscores "000"%char (trim_right (trim_left s)) with
  | None => None
  | Some t =>
      let (negative, body) := split_sign t in
      let signed (x : float) : float := if negative then PrimFloat.opp x else x in
      let word := lower body in
      if String.eqb word "inf" || String.eqb word "infinity"
      then Some (signed PrimFloat.infinity)
      else if String.eqb word "nan" then Some PrimFloat.nan
      else
        let (int_part, rest) := span_digits body in
        let (frac_part, rest) :=
          match rest with
          | String "." rest' => span_digits rest'
          | _ => (EmptyString, rest)
          end in
        if negb (nonempty int_part) && negb (nonempty frac_part) then None
        else
          let mantissa := digits_value 0 (int_part ++ frac_part) in
          let scale := - Z.of_nat (String.length frac_part) in
          match rest with
          | EmptyString => Some (signed (decimal_value mantissa scale))
          | String c rest' =>
              if Ascii.eqb c "e" || Ascii.eqb c "E" then
                let (exp_negative, rest'') := split_sign rest' in
                let (exp_digits, tail) := span_digits rest'' in
                if nonempty exp_digits && negb (nonempty tail) then
                  let e := digits_value 0 exp_digits in
                  let e := if exp_negative then - e else e in
                  Some (signed (decimal_value mantissa (e + scale)))
                else None
              else None
          end
  end.

End PyNum.

Import PyNum.

(** ** The geodesic projection, over the real numbers *)

(** ** GeodesicProjector: [apply_offset] *)

(** Python's [math] module as far as the script calls it.  What a call
    returns for a binary64 argument is the business of the platform's C
    library and no part of the script, so the four functions are a parameter
    of the model; [None] stands for a call that raises (ValueError: math
    domain error). *)
Record pymath : Type := PyMath {
  math_sin : float -> option float;
  math_cos : float -> option float;
  math_asin : float -> option float;
  math_atan2 : float -> float -> option float
}.

(** [math.pi], and [math.radians] and [math.degrees] as CPython defines
    them: the product with pi/180 or 180/pi, all in binary64. *)
Definition math_pi : float := 0x1.921fb54442d18p+1%float.
Definition radians (x : float) : float := (x * (math_pi / 180))%float.
Definition degrees (x : float) : float := (x * (180 / math_pi))%float.

(** One call of a function of [math]: its arguments and what it returned. *)
Inductive math_call : Type :=
| CallSin (x : float) (returned : option float)
| CallCos (x : float) (returned : option float)
| CallAsin (x : float) (returned : option float)
| CallAtan2 (y x : float) (returned : option float).

(** A computation that calls [math]: the calls it made, in order, and its
    result, [None] when a call raised. *)
Definition traced (A : Type) : Type := list math_call * option A.

Definition ret {A : Type} (a : A) : traced A := ([], Some a).

Definition bind {A B : Type} (m : traced A) (f : A -> traced B) : traced B :=
  match m with
  | (calls, Some a) => let (calls', b) := f a in ((calls ++ calls')%list, b)
  | (calls, None) => (calls, None)
  end.

Declare Scope math_scope.
Delimit Scope math_scope with math.
Notation "x <- m ;; f" := (bind m (fun x => f))
  (at level 61, m at next level, right associativity) : math_scope.

Module Math.

Definition sin (math : pymath) (x : float) : traced float :=
  let r := math_sin math x in ([CallSin x r], r).
Definition cos (math : pymath) (x : float) : traced float :=
  let r := math_cos math x in ([CallCos x r], r).
Definition asin (math : pymath) (x : float) : traced float :=
  let r := math_asin math x in ([CallAsin x r], r).
Definition atan2 (math : pymath) (y x : float) : traced float :=
  let r := math_atan2 math y x in ([CallAtan2 y x r], r).

End Math.

(** [apply_offset], with the calls of [math] in the order Python evaluates
    them. *)
Definition apply_offset_traced (math : pymath)
    (lat lon distance_miles : float) (bearing_degrees : pynum)
    : traced (float * float) :=
  (* Earth's radius in miles *)
  let R := 3959%float in
  (* Convert to radians *)
  let lat_rad := radians lat in
  let lon_rad := radians lon in
  let bearing_rad := radians (num_float bearing_degrees) in
  (* Distance as angular distance *)
  let distance_rad := (distance_miles / R)%float in
  (* Calculate new position using forward azimuth formula *)
  (sin_lat <- Math.sin math lat_rad ;;
   cos_dist <- Math.cos math distance_rad ;;
   cos_lat <- Math.cos math lat_rad ;;
   sin_dist <- Math.sin math distance_rad ;;
   cos_bearing <- Math.cos math bearing_rad ;;
   new_lat_rad <- Math.asin math (sin_lat * cos_dist
                                  + cos_lat * sin_dist * cos_bearing)%float ;;
   sin_bearing <- Math.sin math bearing_rad ;;
   sin_dist' <- Math.sin math distance_rad ;;
   cos_lat' <- Math.cos math lat_rad ;;
   cos_dist' <- Math.cos math distance_rad ;;
   sin_lat' <- Math.sin math lat_rad ;;
   sin_new_lat <- Math.sin math new_lat_rad ;;
   turn <- Math.atan2 math (sin_bearing * sin_dist' * cos_lat')%float
                           (cos_dist' - sin_lat' * sin_new_lat)%float ;;
   let new_lon_rad := (lon_rad + turn)%float in
   (* Convert back to degrees *)
   let new_lat := degrees new_lat_rad in
   let new_lon := degrees new_lon_rad in
   ret (new_lat, new_lon))%math.

(** What [apply_offset] returns; [None] when a call of [math] raised. *)
Definition apply_offset (math : pymath)
    (lat lon distance_miles : float) (bearing_degrees : pynum)
    : option (float * float) :=
  snd (apply_offset_traced math lat lon distance_miles bearing_degrees).

(** The calls of [math] it makes. *)
Definition math_calls (math : pymath)
    (lat lon distance_miles : float) (bearing_degrees : pynum)
    : list math_call :=
  fst (apply_offset_traced math lat lon distance_miles bearing_degrees).


(** ** The records of the table *)

(** A text cell of a row: the column may be missing from the table, the
    cell may be empty (pandas reads it as NaN), or it holds a string. *)
Inductive cell : Type :=
| Absent
| NaN
| Str (s : string).

(** One row.  The five location columns are text cells; [latitude] and
    [longitude] are numeric after [pd.to_numeric(errors='coerce')], [None]
    standing for NaN/NA; the remaining columns are the ones [main] adds and
    fills. *)
Record record : Type := Row {
  prec_location : cell;
  city : cell;
  county : cell;
  province_state : cell;
  country : cell;
  latitude : option float;
  longitude : option float;
  geocoded_address : string;
  google_formatted_address : string;
  location_type : string;
  flag_status : string;
  flag_reason : string;
  latitude_shifted : option float;
  longitude_shifted : option float;
  offset_applied : string
}.

(** [pd.notna(row.get(col)) and str(row[col]).strip()] as a truth value. *)
Definition has_value (c : cell) : bool :=
  match c with
  | Str s => nonempty (strip s)
  | _ => false
  end.

(** [pd.notna(row.get(col))] *)
Definition notna (c : cell) : bool :=
  match c with Str _ => true | _ => false end.

(** [str(row.get(col, ''))]: the default for a missing column, ["nan"] for
    an empty cell. *)
Definition cell_text (c : cell) : string :=
  match c with
  | Absent => ""
  | NaN => "nan"
  | Str s => s
  end.

(** [pd.isna] on a numeric cell. *)
Definition isna (x : option float) : bool :=
  match x with
  | None => true
  | Some v => PrimFloat.is_nan v
  end.

Definition set_flags (row : record) (status reason : string) : record :=
  Row (prec_location row) (city row) (county row) (province_state row)
      (country row) (latitude row) (longitude row) (geocoded_address row)
      (google_formatted_address row) (location_type row)
      status reason
      (latitude_shifted row) (longitude_shifted row) (offset_applied row).

Definition set_geocoded (row : record) (lat lon : float)
    (address formatted_address loc_type : string) : record :=
  Row (prec_location row) (city row) (county row) (province_state row)
      (country row) (Some lat) (Some lon) address formatted_address loc_type
      (flag_status row) (flag_reason row)
      (latitude_shifted row) (longitude_shifted row) (offset_applied row).

Definition set_shifted (row : record) (lat_shifted lon_shifted : float)
    (descr : string) : record :=
  Row (prec_location row) (city row) (county row) (province_state row)
      (country row) (latitude row) (longitude row) (geocoded_address row)
      (google_formatted_address row) (location_type row)
      (flag_status row) (flag_reason row)
      (Some lat_shifted) (Some lon_shifted) descr.

(** ** AddressBuilder: [construct_address] *)

Definition append_if (b : bool) (parts : list string) (p : string) : list string :=
  if b then (parts ++ [p])%list else parts.

Definition construct_address (row : record) : option string :=
  let parts := [] in
  (* Add precise location if available *)
  let parts := append_if (has_value (prec_location row)) parts
                 (strip (cell_text (prec_location row))) in
  (* Add city *)
  let parts := append_if (has_value (city row)) parts
                 (strip (cell_text (city row))) in
  (* Add county *)
  let parts :=
    if has_value (county row) then
      let county_name := strip (cell_text (county row)) in
      let county_name := if negb (ends_with "county" (lower county_name))
                         then county_name ++ " County" else county_name in
      (parts ++ [county_name])%list
    else parts in
  (* Add state/province *)
  let parts := append_if (has_value (province_state row)) parts
                 (strip (cell_text (province_state row))) in
  (* Add country if available (default to USA if not specified) *)
  let parts :=
    if has_value (country row)
    then (parts ++ [strip (cell_text (country row))])%list
    else (parts ++ ["USA"])%list in
  match parts with
  | [] => None
  | _ => Some (join ", " parts)
  end.

(** ** DirectionalOffsetParser *)

(** [\d+\.?\d*] *)
Definition re_number : regex := seqs [plus Digit; opt (Lit "."%char); Star Digit].
(** [\s*mi[les]*] *)
Definition re_miles : regex := seqs [Star Space; lit "mi"; Star (OneOf "les")].
(** [[NSEW]{1,3}] *)
Definition re_compass : regex := upto3 (OneOf "NSEW").
(** [(north|south|east|west|ne|nw|se|sw)] *)
Definition re_direction_word : regex :=
  alts [lit "north"; lit "south"; lit "east"; lit "west";
        lit "ne"; lit "nw"; lit "se"; lit "sw"].

Fixpoint first_match (ic : bool) (patterns : list regex) (s : string)
    : option rmatch :=
  match patterns with
  | [] => None
  | p :: ps =>
      match search ic p s with
      | Some m => Some m
      | None => first_match ic ps s
      end
  end.

Definition extract_base_location (address : string) : string :=
  if negb (nonempty address) then address
  else
    (* Patterns that indicate directional offset *)
    let directional_patterns := [
      (* \d+\.?\d*\s*mi[les]*\s+[NSEW]{1,3}\s+of\s+ *)
      seqs [re_number; re_miles; plus Space; re_compass; plus Space;
            lit "of"; plus Space];
      (* \d+\.?\d*\s*mi[les]*\s+(north|south|east|west|ne|nw|se|sw)\s+of\s+ *)
      seqs [re_number; re_miles; plus Space; Group 1 re_direction_word;
            plus Space; lit "of"; plus Space]
    ] in
    match first_match true directional_patterns address with
    | Some m =>
        (* Remove everything up to and including "of " *)
        strip (substring (m_end m) (String.length address - m_end m) address)
    | None => address   (* No directional offset found, return original *)
    end.

Fixpoint dict_get {V : Type} (d : list (string * V)) (key : string) : option V :=
  match d with
  | [] => None
  | (k, v) :: d' => if String.eqb k key then Some v else dict_get d' key
  end.

Definition direction_map : list (string * string) :=
  [("NORTH", "N"); ("SOUTH", "S"); ("EAST", "E"); ("WEST", "W");
   ("NORTHEAST", "NE"); ("NORTHWEST", "NW");
   ("SOUTHEAST", "SE"); ("SOUTHWEST", "SW")].

Definition direction_bearings : list (string * pynum) :=
  [("N", PInt 0); ("NNE", PFloat 22.5); ("NE", PInt 45); ("ENE", PFloat 67.5);
   ("E", PInt 90); ("ESE", PFloat 112.5); ("SE", PInt 135); ("SSE", PFloat 157.5);
   ("S", PInt 180); ("SSW", PFloat 202.5); ("SW", PInt 225); ("WSW", PFloat 247.5);
   ("W", PInt 270); ("WNW", PFloat 292.5); ("NW", PInt 315); ("NNW", PFloat 337.5)].

Definition offset_patterns : list regex := [
  (* ( \d+\.?\d* ) \s*mi[les]* \s+ ( [NSEW]{1,3} ) \s+of *)
  seqs [Group 1 re_number; re_miles; plus Space; Group 2 re_compass;
        plus Space; lit "of"];
  (* ( \d+\.?\d* ) \s*mi[les]* \s+ (north|south|east|west|ne|nw|se|sw) \s+of *)
  seqs [Group 1 re_number; re_miles; plus Space; Group 2 re_direction_word;
        plus Space; lit "of"]
].

Fixpoint parse_patterns (patterns : list regex) (text : string)
    : option float * option pynum :=
  match patterns with
  | [] => (None, None)
  | pattern :: rest =>
      match search true pattern text with
      | Some m =>
          let distance := float_of_numeral (group 1 (m_groups m)) in
          let direction := upper (group 2 (m_groups m)) in
          (* Convert spelled-out directions to abbreviations *)
          let direction :=
            match dict_get direction_map direction with
            | Some d => d
            | None => direction
            end in
          (* Convert direction to bearing (degrees from North, clockwise) *)
          match dict_get direction_bearings direction with
          | Some bearing => (Some distance, Some bearing)
          | None => parse_patterns rest text
          end
      | None => parse_patterns rest text
      end
  end.

Definition parse_directional_offset (text : string) : option float * option pynum :=
  if negb (nonempty text) then (None, None)
  else parse_patterns offset_patterns text.

(** ** The geocoding capability *)

(** A value as [response.json()] returns it: None, a bool, an int, a float,
    a str, a list or a dict (its items, a key looked up from the front). *)
#[warnings="-register-all"]
Inductive json : Type :=
| JNull
| JBool (b : bool)
| JInt (z : Z)
| JFloat (x : float)
| JStr (s : string)
| JList (items : list json)
| JDict (items : list (string * json)).

(** The exceptions the calls below raise. *)
Inductive exn : Type :=
| KeyError | IndexError | ValueError | TypeError | AttributeError
| OverflowError.

(** A call that returns or raises. *)
Inductive py (A : Type) : Type :=
| Return (a : A)
| Raise (e : exn).
Arguments Return {A} a.
Arguments Raise {A} e.

Definition py_bind {A B : Type} (m : py A) (f : A -> py B) : py B :=
  match m with
  | Return a => f a
  | Raise e => Raise e
  end.

Declare Scope py_scope.
Delimit Scope py_scope with py.
Notation "x <- m ;; f" := (py_bind m (fun x => f))
  (at level 61, m at next level, right associativity) : py_scope.

(** [try: body except handled: return default] *)
Definition try_except {A : Type} (body : py A) (handled : exn -> bool)
    (default : A) : py A :=
  match body with
  | Return a => Return a
  | Raise e => if handled e then Return default else Raise e
  end.

Module Py.

(** Truth value of an object. *)
Definition truthy (v : json) : bool :=
  match v with
  | JNull => false
  | JBool b => b
  | JInt z => negb (z =? 0)%Z
  | JFloat x => float_truthy x
  | JStr s => nonempty s
  | JList items => match items with [] => false | _ => true end
  | JDict items => match items with [] => false | _ => true end
  end.

(** [v == s] for a str [s] *)
Definition is_str (v : json) (s : string) : bool :=
  match v with
  | JStr t => String.eqb t s
  | _ => false
  end.

(** [v.get(key, default)]: only a dict has the method. *)
Definition get (v : json) (key : string) (default : json) : py json :=
  match v with
  | JDict items =>
      Return (match dict_get items key with
              | Some x => x
              | None => default
              end)
  | _ => Raise AttributeError
  end.

(** [v[key]] for a str [key] *)
Definition item (v : json) (key : string) : py json :=
  match v with
  | JDict items =>
      match dict_get items key with
      | Some x => Return x
      | None => Raise KeyError
      end
  | _ => Raise TypeError      (* not subscriptable, or indices must be integers *)
  end.

(** [v[0]] *)
Definition item0 (v : json) : py json :=
  match v with
  | JList (x :: _) => Return x
  | JList [] => Raise IndexError
  | JStr (String c _) => Return (JStr (String c EmptyString))
  | JStr EmptyString => Raise IndexError
  | JDict _ => Raise KeyError  (* the keys are strs *)
  | _ => Raise TypeError
  end.

(** [float(v)] *)
Definition float (v : json) : py float :=
  match v with
  | JFloat x => Return x
  | JInt z =>
      if PrimFloat.is_infinity (int_to_float z) then Raise OverflowError
      else Return (int_to_float z)
  | JBool b => Return (if b then 1 else 0)%float
  | JStr s =>
      match float_of_str s with
      | Some x => Return x
      | None => Raise ValueError
      end
  | _ => Raise TypeError
  end.

End Py.

(** What one request comes to: an exception of the requests library (no
    connection, a timeout, an HTTP error status, a body that is not JSON),
    or the JSON value of the body. *)
Inductive response : Type :=
| RequestException
| InvalidJson
| Body (data : json).

(** [geocode_address_google]: the tuple (latitude, longitude,
    location_type, formatted_address) it returns, given the response to its
    request; Python's None is [None] for the coordinates and [JNull] for the
    other two.  It raises what its except clauses let through. *)
Definition geocode_address_google (resp : response)
    : py (option float * option float * json * json) :=
  let nothing := (None, None, JNull, JNull) in
  match resp with
  | RequestException => Return nothing  (* except RequestException *)
  | InvalidJson => Return nothing       (* the same, or except ValueError *)
  | Body data =>
      try_except
        (status <- Py.get data "status" JNull ;;
         results <- (if Py.is_str status "OK"
                     then Py.get data "results" JNull
                     else Return JNull) ;;
         if Py.is_str status "OK" && Py.truthy results then
           (* Get the first (best) result *)
           results <- Py.item data "results" ;;
           result <- Py.item0 results ;;
           geometry <- Py.item result "geometry" ;;
           location <- Py.item geometry "location" ;;
           lat_value <- Py.item location "lat" ;;
           lat <- Py.float lat_value ;;
           lng_value <- Py.item location "lng" ;;
           lon <- Py.float lng_value ;;
           (* Get location type *)
           geometry <- Py.item result "geometry" ;;
           location_type <- Py.get geometry "location_type" (JStr "UNKNOWN") ;;
           (* Get formatted address *)
           formatted_address <- Py.get result "formatted_address" (JStr "") ;;
           Return (Some lat, Some lon, location_type, formatted_address)
         else
           (* ZERO_RESULTS, REQUEST_DENIED, OVER_QUERY_LIMIT or another status *)
           Return nothing)%py
        (fun e => match e with KeyError | ValueError => true | _ => false end)
        nothing
  end.

(** The outcomes of a request, as responses. *)
Definition Success (lat lon : float) (location_type formatted_address : string)
    : response :=
  Body (JDict
    [("results",
      JList [JDict [("formatted_address", JStr formatted_address);
                    ("geometry",
                     JDict [("location",
                             JDict [("lat", JFloat lat); ("lng", JFloat lon)]);
                            ("location_type", JStr location_type)])]]);
     ("status", JStr "OK")]).
Definition Status (code : string) : response :=
  Body (JDict [("results", JList []); ("status", JStr code)]).
Definition ZeroResults : response := Status "ZERO_RESULTS".
Definition Denied : response := Status "REQUEST_DENIED".
Definition OverLimit : response := Status "OVER_QUERY_LIMIT".
Definition OtherStatus (code : string) : response := Status code.
Definition TransportFailure : response := RequestException.
Definition ParseFailure : response := InvalidJson.

(** ** QualityFlagEngine, pre-geocode stage: [flag_potential_issues] *)

Definition any_found (patterns : list regex) (text : string) : bool :=
  existsb (fun pattern => found false pattern text) patterns.

Definition any_keyword (keywords : list string) (flag : string) : bool :=
  existsb (fun keyword => contains keyword (lower flag)) keywords.

(** The flags of a row, in the order the script appends them. *)
Definition collect_flags (row : record) : list string :=
  let flags := [] in
  (* Get location components *)
  let has_city := has_value (city row) in
  let has_prec_location := has_value (prec_location row) in
  let has_county := has_value (county row) in
  let has_state := has_value (province_state row) in
  (* Get text to analyze *)
  let prec_loc_text := strip (cell_text (prec_location row)) in
  let city_text := strip (cell_text (city row)) in
  let location_text := lower (prec_loc_text ++ " " ++ city_text) in
  (* Flag 1: County/State only (too vague) *)
  let flags := append_if (negb has_city && negb has_prec_location) flags
                 "County/state only - very vague" in
  (* Flag 2: Missing state (ambiguous) *)
  let flags := append_if (negb has_state) flags
                 "Missing state - may be ambiguous" in
  (* Flag 4: Directional descriptions with distance *)
  let directional_patterns := [
    (* \d+\.?\d*\s*mi[les]*\s+[NSEW]{1,3}\s+of *)
    seqs [re_number; re_miles; plus Space; re_compass; plus Space; lit "of"];
    (* \d+\.?\d*\s*mi[les]*\s+[NSEW]{1,3}$ *)
    seqs [re_number; re_miles; plus Space; re_compass; Eos];
    (* \d+\.?\d*\s*mi[les]*\s+(north|south|east|west|ne|nw|se|sw)\s+of *)
    seqs [re_number; re_miles; plus Space; Group 1 re_direction_word;
          plus Space; lit "of"]
  ] in
  let flags := append_if
                 (has_prec_location && any_found directional_patterns location_text)
                 flags "Directional offset - API may ignore distance/direction" in
  (* Flag 5: "Behind/At/Vic./Near" vague reference points *)
  let vague_refs := [
    word "behind"; word "at";
    seqs [Bound; lit "vic"; opt (Lit "."%char); Bound];   (* \bvic\.?\b *)
    word "near"
  ] in
  let flags := append_if
                 (has_prec_location && any_found vague_refs location_text)
                 flags "Vague reference point (behind/at/vic/near)" in
  (* Flag 6: Water features (may use centroid) *)
  let water_features := [
    word "river"; word "lake"; word "creek"; word "bay";
    word "beach"; word "shore"; word "falls"; word "pond"
  ] in
  let flags := append_if
                 ((has_prec_location || has_city)
                  && any_found water_features location_text)
                 flags "Water feature - may use centerline/centroid" in
  (* Flag 7: Park/wilderness area names *)
  let park_keywords := [
    word "park"; word "forest"; word "wilderness"; word "preserve";
    word "refuge"; word "national"; word "state park"; word "grove";
    word "seashore"; word "monument"; word "station"; word "dunes"
  ] in
  let flags :=
    if any_found park_keywords location_text then
      (* Check if it's detailed or just park name *)
      let word_count := word_count location_text in
      if (word_count <=? 3)%nat
      then (flags ++ ["Park/natural area (just name - may use geometric center)"])%list
      else (flags ++ ["Park/natural area with detail (may still use center)"])%list
    else flags in
  (* Flag 8: Multiple counties (ambiguous) *)
  let flags :=
    if has_county then
      let county_text := cell_text (county row) in
      append_if (contains "/" county_text || contains " or " (lower county_text))
        flags "Multiple counties listed"
    else flags in
  (* Flag 9: Abbreviated location names *)
  let flags :=
    if has_prec_location then
      (* Very short with periods (I.S.B, Vic., etc.) *)
      if (String.length prec_loc_text <=? 6)%nat && contains "." prec_loc_text
      then (flags ++ ["Abbreviated location name"])%list
      (* All caps short acronym *)
      else if (String.length prec_loc_text <=? 4)%nat && isupper prec_loc_text
              && negb (isdigit prec_loc_text)
      then (flags ++ ["Possible acronym/abbreviation"])%list
      else flags
    else flags in
  (* Flag 10: Parenthetical/bracketed information *)
  let flags := append_if
                 (has_prec_location
                  && (contains "(" prec_loc_text || contains "[" prec_loc_text
                      || contains ")" prec_loc_text || contains "]" prec_loc_text))
                 flags "Contains parenthetical info - may confuse geocoder" in
  (* The highway and detailed-location checks that follow add no flag. *)
  flags.

(** The section DETERMINE OVERALL FLAG STATUS: (flag_status, flag_reason). *)
Definition determine_status (flags : list string) : string * string :=
  match flags with
  | [] => ("OK", "")
  | _ =>
      (* Count severity *)
      let critical_keywords := ["county/state only"; "missing state"] in
      let has_critical := existsb (any_keyword critical_keywords) flags in
      (* WARNING: Only critical issues *)
      if has_critical then ("WARNING", join "; " flags)
      (* REVIEW: Multiple issues OR high-risk single issue *)
      else if (2 <=? List.length flags)%nat then
        (* Check if all flags are just informational *)
        let informational_only :=
          forallb (any_keyword ["park"; "water feature"; "parenthetical"]) flags in
        if informational_only then ("OK", join "; " flags)
        else ("REVIEW", join "; " flags)
      else
        match flags with
        | [flag0] =>
            let flag := lower flag0 in
            (* Only flag as REVIEW if it's a concerning issue *)
            if contains "directional offset" flag
               || contains "vague reference" flag
               || contains "abbreviated" flag
            then ("REVIEW", join "; " flags)
            (* Single informational flags -> OK but still shown *)
            else ("OK", join "; " flags)
        | _ => ("OK", join "; " flags)
        end
  end.

Definition flag_potential_issues (row : record) : string * string :=
  determine_status (collect_flags row).

(** ** Orchestrator *)

(** True if latitude or longitude is missing. *)
Definition should_geocode (row : record) : bool :=
  let lat_missing := isna (latitude row) in
  let lon_missing := isna (longitude row) in
  lat_missing || lon_missing.

Definition is_too_vague (row : record) : bool :=
  let has_city := has_value (city row) in
  let has_prec_location := has_value (prec_location row) in
  (* If we have city or precise location, it's specific enough *)
  negb (has_city || has_prec_location).

(** *** Post-geocode flags and their merge *)

(** State abbreviation mapping *)
Definition state_abbrev : list (string * string) :=
  [("alabama", "al"); ("alaska", "ak"); ("arizona", "az"); ("arkansas", "ar");
   ("california", "ca"); ("colorado", "co"); ("connecticut", "ct"); ("delaware", "de");
   ("florida", "fl"); ("georgia", "ga"); ("hawaii", "hi"); ("idaho", "id");
   ("illinois", "il"); ("indiana", "in"); ("iowa", "ia"); ("kansas", "ks");
   ("kentucky", "ky"); ("louisiana", "la"); ("maine", "me"); ("maryland", "md");
   ("massachusetts", "ma"); ("michigan", "mi"); ("minnesota", "mn"); ("mississippi", "ms");
   ("missouri", "mo"); ("montana", "mt"); ("nebraska", "ne"); ("nevada", "nv");
   ("new hampshire", "nh"); ("new jersey", "nj"); ("new mexico", "nm"); ("new york", "ny");
   ("north carolina", "nc"); ("north dakota", "nd"); ("ohio", "oh"); ("oklahoma", "ok");
   ("oregon", "or"); ("pennsylvania", "pa"); ("rhode island", "ri"); ("south carolina", "sc");
   ("south dakota", "sd"); ("tennessee", "tn"); ("texas", "tx"); ("utah", "ut");
   ("vermont", "vt"); ("virginia", "va"); ("washington", "wa"); ("west virginia", "wv");
   ("wisconsin", "wi"); ("wyoming", "wy")].

(** [state_abbrev.get(key, '')] *)
Definition state_abbrev_get (key : string) : string :=
  match dict_get state_abbrev key with
  | Some v => v
  | None => ""
  end.

(** The flags [main] collects in [post_flags] once a row is geocoded. *)
Definition post_geocode_flags (row : record)
    (location_type formatted_address : string) : list string :=
  let post_flags := [] in
  (* Only flag GEOMETRIC_CENTER *)
  let post_flags := append_if (String.eqb location_type "GEOMETRIC_CENTER")
                      post_flags "Geometric center of area" in
  (* Check if Google returned a very different location *)
  if nonempty formatted_address then
    let formatted_lower := lower formatted_address in
    (* Check if state matches (if we have one) *)
    let post_flags :=
      if notna (province_state row) then
        let expected_state := strip (cell_text (province_state row)) in
        let expected_state_lower := lower expected_state in
        (* Check if either full name or abbreviation appears in result *)
        let state_found :=
          contains expected_state_lower formatted_lower
          || contains (state_abbrev_get expected_state_lower) formatted_lower in
        append_if (nonempty expected_state && negb state_found) post_flags
          ("State mismatch (expected " ++ expected_state ++ ")")
      else post_flags in
    (* Check if country is unexpected *)
    if contains "india" formatted_lower || contains "uk" formatted_lower
       || contains "canada" formatted_lower
    then append_if (negb (contains "usa" formatted_lower)
                    && negb (contains "united states" formatted_lower))
           post_flags "UNEXPECTED COUNTRY - verify result!"
    else post_flags
  else post_flags.

(** Update flags if we found post-geocoding issues: the new
    (flag_status, flag_reason). *)
Definition merge_flags (status reason : string) (post_flags : list string)
    : string * string :=
  match post_flags with
  | [] => (status, reason)
  | _ =>
      let existing_flags := reason in
      let reason' :=
        if nonempty existing_flags
        then existing_flags ++ "; " ++ join "; " post_flags
        else join "; " post_flags in
      (* Upgrade status if we found serious issues *)
      let status' :=
        if existsb (fun f => contains "UNEXPECTED COUNTRY" f
                             || contains "State mismatch" f) post_flags
        then "WARNING"
        else if String.eqb status "OK" then "REVIEW"
        else status in
      (status', reason')
  end.

(** *** The loop of [main] *)

Record counters : Type := Counters {
  geocoded_count : nat;
  skipped_vague : nat;
  failed_count : nat
}.

Definition count_geocoded (c : counters) : counters :=
  Counters (S (geocoded_count c)) (skipped_vague c) (failed_count c).
Definition count_skipped (c : counters) : counters :=
  Counters (geocoded_count c) (S (skipped_vague c)) (failed_count c).
Definition count_failed (c : counters) : counters :=
  Counters (geocoded_count c) (skipped_vague c) (S (failed_count c)).

(** The degree sign U+00B0. *)
Definition degree_sign : string := String "176"%char "".

(** The provider: the answer to the request for an address, given how many
    requests came before it. *)
Definition provider : Type := nat -> string -> response.

(** What the run keeps between rows: the counters and the addresses sent to
    the provider so far. *)
Definition progress : Type := counters * list string.

(** Check for directional offset and apply if found.  [None]: a call of
    [math] raised inside [apply_offset], and the run dies of it. *)
Definition shift_row (math : pymath) (row row1 : record) (lat lon : float)
    : option record :=
  let prec_location := strip (cell_text (prec_location row)) in
  if nonempty prec_location then
    match parse_directional_offset prec_location with
    | (Some distance, Some bearing) =>
        if float_truthy distance && num_truthy bearing then
          (* Calculate shifted coordinates *)
          match apply_offset math lat lon distance bearing with
          | Some (lat_shifted, lon_shifted) =>
              Some (set_shifted row1 lat_shifted lon_shifted
                      (float_repr distance ++ "mi at " ++ num_str bearing
                         ++ degree_sign))
          | None => None
          end
        else Some row1
    | _ => Some row1
    end
  else Some row1.

(** The body of the loop over the rows that need geocoding.  [None]: the
    run does not get past the row.  Either it dies of an exception that
    nothing catches (raised by [geocode_address_google] or by a call of
    [math]), or the provider gave a location type or a formatted address
    that is not a str, and what pandas then stores is outside the model. *)
Definition process_row (math : pymath) (resolve : provider) (row : record)
    (st : progress) : option (record * progress) :=
  let (counts, calls) := st in
  (* Check if too vague *)
  if is_too_vague row then Some (row, (count_skipped counts, calls))
  else
    (* Construct address *)
    match construct_address row with
    | None => Some (row, (count_skipped counts, calls))
    | Some address =>
        if negb (nonempty address) then Some (row, (count_skipped counts, calls))
        else
          (* Extract base location (remove directional offset for geocoding) *)
          let base_address := extract_base_location address in
          (* Geocode the base location *)
          let calls' := (calls ++ [base_address])%list in
          match geocode_address_google (resolve (List.length calls) base_address) with
          | Raise _ => None
          | Return (Some lat, Some lon, location_type, formatted_address) =>
              if float_truthy lat && float_truthy lon then
                match location_type, formatted_address with
                | JStr location_type, JStr formatted_address =>
                    let row1 := set_geocoded row lat lon address formatted_address
                                  location_type in
                    match shift_row math row row1 lat lon with
                    | Some row2 =>
                        (* Add post-geocoding flags *)
                        let post_flags :=
                          post_geocode_flags row location_type formatted_address in
                        let (status, reason) :=
                          merge_flags (flag_status row2) (flag_reason row2)
                            post_flags in
                        Some (set_flags row2 status reason,
                              (count_geocoded counts, calls'))
                    | None => None
                    end
                | _, _ => None
                end
              else Some (row, (count_failed counts, calls'))
          | Return _ => Some (row, (count_failed counts, calls'))
          end
    end.

Fixpoint geocode_loop (math : pymath) (resolve : provider) (rows : list record)
    (st : progress) : option (list record * progress) :=
  match rows with
  | [] => Some ([], st)
  | row :: rest =>
      if should_geocode row then
        match process_row math resolve row st with
        | Some (row', st') =>
            match geocode_loop math resolve rest st' with
            | Some (rest', st'') => Some (row' :: rest', st'')
            | None => None
            end
        | None => None
        end
      else
        match geocode_loop math resolve rest st with
        | Some (rest', st') => Some (row :: rest', st')
        | None => None
        end
  end.

(** PRE-PROCESSING: Flag all rows for potential issues. *)
Definition preflag (row : record) : record :=
  let (flag_status, flag_reason) := flag_potential_issues row in
  set_flags row flag_status flag_reason.

(** How a run of [main] ends. *)
Inductive outcome : Type :=
| AllHaveCoordinates                 (* early return: nothing is written *)
| MissingApiKey                      (* sys.exit(1) *)
| Saved (df : list record) (counts : counters) (calls : list string)
| NoResult.                          (* see [process_row] *)

Definition main (math : pymath) (api_key : string) (resolve : provider)
    (df : list record) : outcome :=
  let df := map preflag df in
  (* Count how many need geocoding *)
  let total_to_geocode := List.length (filter should_geocode df) in
  if (total_to_geocode =? 0)%nat then AllHaveCoordinates
  (* Check API key *)
  else if String.eqb api_key "YOUR_GOOGLE_API_KEY_HERE" || negb (nonempty api_key)
  then MissingApiKey
  else
    (* Process each row *)
    match geocode_loop math resolve df (Counters 0 0 0, []) with
    | Some (df', (counts, calls)) => Saved df' counts calls
    | None => NoResult
    end.

(** ** Vocabulary of the statements *)

(** *** Binary64 values as real numbers, and the exact functions *)

Module Exact.

Local Open Scope R_scope.

(** [2^e] *)
Definition pow2 (e : Z) : R :=
  if (0 <=? e)%Z then IZR (2 ^ e) else / IZR (2 ^ (- e)).

(** The real number a finite binary64 value denotes. *)
Definition SF2R (x : spec_float) : R :=
  match x with
  | S754_finite s m e =>
      let v := IZR (Zpos m) * pow2 e in
      if s then - v else v
  | _ => 0
  end.

Definition F2R (x : float) : R := SF2R (Prim2SF x).

Definition SF_finite (x : spec_float) : bool :=
  match x with
  | S754_zero _ | S754_finite _ _ _ => true
  | _ => false
  end.

(** Neither an infinity nor nan. *)
Definition finite (x : float) : bool := SF_finite (Prim2SF x).

(** [r] is [v] rounded: off by a relative [2^-52] at most, or by the
    spacing of the subnormal numbers. *)
Definition rounds_to (r v : R) : Prop :=
  Rabs (r - v) <= Rabs v * pow2 (-52) + pow2 (-1074).

(** The angle of the point (x, y), which [math.atan2(y, x)] approximates;
    it is [0] at the origin, as libm has it. *)
Definition atan2 (y x : R) : R :=
  if Rlt_dec 0 x then atan (y / x)
  else if Rlt_dec x 0 then
    (if Rle_dec 0 y then atan (y / x) + PI else atan (y / x) - PI)
  else if Rlt_dec 0 y then PI / 2
  else if Rlt_dec y 0 then - (PI / 2)
  else 0.

(** What a call of [math] approximates: the function applied to the real
    numbers its arguments denote. *)
Definition exact_value (c : math_call) : R :=
  match c with
  | CallSin x _ => sin (F2R x)
  | CallCos x _ => cos (F2R x)
  | CallAsin x _ => asin (F2R x)
  | CallAtan2 y x _ => atan2 (F2R y) (F2R x)
  end.

Definition returned_value (c : math_call) : option float :=
  match c with
  | CallSin _ r | CallCos _ r | CallAsin _ r | CallAtan2 _ _ r => r
  end.

(** How far from the exact value a call of [math] is taken to be at most:
    one millionth.  (The C libraries in use are within a few units of the
    sixteenth digit.) *)
Definition math_tolerance : R := / 1000000.

(** The call returned a finite number within the tolerance of the exact
    value. *)
Definition good_call (c : math_call) : Prop :=
  exists r : float,
    returned_value c = Some r
    /\ finite r = true
    /\ Rabs (F2R r - exact_value c) <= math_tolerance.

(** Every call of [math] that the projection of the point makes is good. *)
Definition accurate_math (math : pymath)
    (lat lon distance_miles : float) (bearing_degrees : pynum) : Prop :=
  Forall good_call (math_calls math lat lon distance_miles bearing_degrees).

(** When all its calls are good, a computation returns and its result has
    the property [Q]. *)
Definition ensures {A : Type} (m : traced A) (Q : A -> Prop) : Prop :=
  Forall good_call (fst m) -> exists a : A, snd m = Some a /\ Q a.

End Exact.

Import Exact.

(** The three levels of [flag_status], ordered OK < REVIEW < WARNING. *)
Inductive severity : Type := OK | REVIEW | WARNING.

Definition status_name (s : severity) : string :=
  match s with
  | OK => "OK"
  | REVIEW => "REVIEW"
  | WARNING => "WARNING"
  end.

Definition severity_rank (s : severity) : nat :=
  match s with OK => 0 | REVIEW => 1 | WARNING => 2 end.

Definition severity_leb (a b : severity) : bool :=
  (severity_rank a <=? severity_rank b)%nat.

(** The three kinds of flag the post-geocode stage can raise. *)
Inductive post_flag : Type :=
| GeometricCenter
| StateMismatch (expected : string)
| UnexpectedCountry.

Definition post_flag_text (f : post_flag) : string :=
  match f with
  | GeometricCenter => "Geometric center of area"
  | StateMismatch expected => "State mismatch (expected " ++ expected ++ ")"
  | UnexpectedCountry => "UNEXPECTED COUNTRY - verify result!"
  end.

Definition is_critical_post (f : post_flag) : bool :=
  match f with
  | GeometricCenter => false
  | _ => true
  end.

(** The status the merge is to produce. *)
Definition merged_severity (s : severity) (post : list post_flag) : severity :=
  if existsb is_critical_post post then WARNING
  else match post, s with
       | _ :: _, OK => REVIEW
       | _, _ => s
       end.

(** What the merge is to append to the reason trail. *)
Definition appended_reasons (reason : string) (post : list post_flag) : string :=
  match post with
  | [] => ""
  | _ => (if nonempty reason then "; " else "") ++ join "; " (map post_flag_text post)
  end.

(** Two rows that agree on every column but [flag_status] and [flag_reason]. *)
Definition same_but_flags (a b : record) : Prop :=
  prec_location a = prec_location b /\ city a = city b /\ county a = county b
  /\ province_state a = province_state b /\ country a = country b
  /\ latitude a = latitude b /\ longitude a = longitude b
  /\ geocoded_address a = geocoded_address b
  /\ google_formatted_address a = google_formatted_address b
  /\ location_type a = location_type b
  /\ latitude_shifted a = latitude_shifted b
  /\ longitude_shifted a = longitude_shifted b
  /\ offset_applied a = offset_applied b.

(** A row as [main] sets it up from a table that has only the location
    columns. *)
Definition new_row (prec_location city county province_state country : cell)
    : record :=
  Row prec_location city county province_state country
      None None "" "" "" "" "" None None "".

(** Topeka, KS as the provider reports it. *)
Definition topeka_lat : float := Eval vm_compute in float_of_numeral "39.0473451".
Definition topeka_lon : float :=
  Eval vm_compute in PrimFloat.opp (float_of_numeral "95.6751576").

Definition topeka (location_type formatted_address : string) : provider :=
  fun _ _ => Success topeka_lat topeka_lon location_type formatted_address.

(** The row of the end-to-end example. *)
Definition topeka_row : record :=
  new_row (Str "10 mi E of Topeka") NaN NaN (Str "KS") NaN.

(** A provider that answers every request with the same result. *)
Definition always (r : response) : provider := fun _ _ => r.

(** Two rows for a re-run: an address in Topeka, and a row with county and
    state only (too vague to geocode, so every run still has a candidate). *)
Definition college_rows : list record :=
  [new_row (Str "1700 SW College Ave") (Str "Topeka") NaN (Str "Kansas") NaN;
   new_row NaN NaN (Str "Shawnee") (Str "KS") NaN].

Definition college_answer : response :=
  Success topeka_lat topeka_lon "GEOMETRIC_CENTER"
    "1700 SW College Ave, Topeka, KS 66621, USA".

(** An answer with the status OK whose first result has null for its
    latitude. *)
Definition null_latitude : response :=
  Body (JDict
    [("status", JStr "OK");
     ("results",
      JList [JDict [("formatted_address", JStr "Topeka, KS, USA");
                    ("geometry",
                     JDict [("location",
                             JDict [("lat", JNull); ("lng", JFloat (-95.5))]);
                            ("location_type", JStr "APPROXIMATE")])]])]).

(** The first row of [college_rows] once geocoded, with the flags given. *)
Definition college_geocoded (status reason : string) : record :=
  {| prec_location := Str "1700 SW College Ave";
     city := Str "Topeka";
     county := NaN;
     province_state := Str "Kansas";
     country := NaN;
     latitude := Some topeka_lat;
     longitude := Some topeka_lon;
     geocoded_address := "1700 SW College Ave, Topeka, Kansas, USA";
     google_formatted_address := "1700 SW College Ave, Topeka, KS 66621, USA";
     location_type := "GEOMETRIC_CENTER";
     flag_status := status;
     flag_reason := reason;
     latitude_shifted := None;
     longitude_shifted := None;
     offset_applied := "" |}.

Definition shawnee_flagged : record :=
  set_flags (new_row NaN NaN (Str "Shawnee") (Str "KS") NaN)
    "WARNING" "County/state only - very vague".

(** ** Vocabulary of the further properties *)

(** [[f]] when the rule fired, nothing otherwise. *)
Definition fired (b : bool) (f : string) : list string :=
  if b then [f] else [].

Definition fired_flags (conditions : list bool) (texts : list string)
    : list string :=
  flat_map (fun r => fired (fst r) (snd r)) (combine conditions texts).

(** The third directional pattern of the flag stage, the one with the
    directions spelled out or in two letters:
    \d+\.?\d*\s*mi[les]*\s+(north|south|east|west|ne|nw|se|sw)\s+of *)
Definition re_flag_direction_word : regex :=
  seqs [re_number; re_miles; plus Space; Group 1 re_direction_word;
        plus Space; lit "of"].

(** The text the flag stage searches: precise location and city, lowered. *)
Definition location_text (row : record) : string :=
  lower (strip (cell_text (prec_location row)) ++ " "
         ++ strip (cell_text (city row))).

(** The messages of the pre-geocode rules, in the order of the script. *)
Definition rule_texts : list string :=
  ["County/state only - very vague";
   "Missing state - may be ambiguous";
   "Directional offset - API may ignore distance/direction";
   "Vague reference point (behind/at/vic/near)";
   "Water feature - may use centerline/centroid";
   "Park/natural area (just name - may use geometric center)";
   "Park/natural area with detail (may still use center)";
   "Multiple counties listed";
   "Abbreviated location name";
   "Possible acronym/abbreviation";
   "Contains parenthetical info - may confuse geocoder"].

Definition directional_patterns : list regex :=
  [seqs [re_number; re_miles; plus Space; re_compass; plus Space; lit "of"];
   seqs [re_number; re_miles; plus Space; re_compass; Eos];
   re_flag_direction_word].

Definition vague_refs : list regex :=
  [word "behind"; word "at";
   seqs [Bound; lit "vic"; opt (Lit "."%char); Bound];
   word "near"].

Definition water_features : list regex :=
  [word "river"; word "lake"; word "creek"; word "bay";
   word "beach"; word "shore"; word "falls"; word "pond"].

Definition park_keywords : list regex :=
  [word "park"; word "forest"; word "wilderness"; word "preserve";
   word "refuge"; word "national"; word "state park"; word "grove";
   word "seashore"; word "monument"; word "station"; word "dunes"].

(** When each rule fires, in the order of [rule_texts]. *)
Definition rule_conditions (row : record) : list bool :=
  let has_city := has_value (city row) in
  let has_prec_location := has_value (prec_location row) in
  let has_county := has_value (county row) in
  let has_state := has_value (province_state row) in
  let prec_loc_text := strip (cell_text (prec_location row)) in
  let text := location_text row in
  let county_text := cell_text (county row) in
  let dotted := (String.length prec_loc_text <=? 6)%nat
                && contains "." prec_loc_text in
  let capitals := (String.length prec_loc_text <=? 4)%nat
                  && isupper prec_loc_text && negb (isdigit prec_loc_text) in
  [negb has_city && negb has_prec_location;
   negb has_state;
   has_prec_location && any_found directional_patterns text;
   has_prec_location && any_found vague_refs text;
   (has_prec_location || has_city) && any_found water_features text;
   any_found park_keywords text && (word_count text <=? 3)%nat;
   any_found park_keywords text && negb (word_count text <=? 3)%nat;
   has_county && (contains "/" county_text
                  || contains " or " (lower county_text));
   has_prec_location && dotted;
   has_prec_location && negb dotted && capitals;
   has_prec_location
   && (contains "(" prec_loc_text || contains "[" prec_loc_text
       || contains ")" prec_loc_text || contains "]" prec_loc_text)].

(** A bearing of the compass: from 0 up to, not including, 360. *)
Definition valid_bearing (v : pynum) : bool :=
  match v with
  | PInt z => ((0 <=? z) && (z <? 360))%Z
  | PFloat x => (PrimFloat.leb 0 x && PrimFloat.ltb x 360)%bool
  end.

(** The text holds no decimal digit. *)
Definition no_digit (s : string) : Prop := existsb_string is_decimal s = false.

(** The text holds none of the capitals N, S, E, W. *)
Definition no_compass_capital (s : string) : Prop :=
  existsb_string (fun c => existsb_string (same_char false c) "NSEW") s = false.

(** The request a candidate row leads to: none when the row is too vague,
    else the base address. *)
Definition requests_for (row : record) : list string :=
  if is_too_vague row then []
  else match construct_address row with
       | Some address =>
           if nonempty address then [extract_base_location address] else []
       | None => []
       end.

Definition counts_total (c : counters) : nat :=
  geocoded_count c + skipped_vague c + failed_count c.

(** The five columns that come with the table. *)
Definition location_columns (row : record) : cell * cell * cell * cell * cell :=
  (prec_location row, city row, county row, province_state row, country row).

(** The shifted coordinates are there together or not at all. *)
Definition shifted_pair (row : record) : bool :=
  match latitude_shifted row, longitude_shifted row with
  | Some _, Some _ => true
  | None, None => true
  | _, _ => false
  end.

(** What the loop does to one row: it leaves it, or it is the result of the
    loop body at some point of the run. *)
Definition row_step (math : pymath) (resolve : provider) (row row' : record)
    : Prop :=
  (should_geocode row = false /\ row' = row)
  \/ (should_geocode row = true
      /\ exists st st', process_row math resolve row st = Some (row', st')).

(** The answers of [math] on the way from Topeka ten miles to the east, as
    CPython gives them on Linux (glibc); any other call raises. *)
Definition topeka_math : pymath :=
  let table (entries : list (float * float)) (x : float) : option float :=
    match find (fun e => PrimFloat.eqb (fst e) x) entries with
    | Some e => Some (snd e)
    | None => None
    end in
  {| math_sin := table [(0x1.5cee3053bb1ddp-1, 0x1.428a6cf3f3638p-1);
                        (0x1.4b12d11e95e37p-9, 0x1.4b12ba0c32b7ap-9);
                        (0x1.921fb54442d18p+0, 0x1.0000000000000p+0);
                        (0x1.5cedd98035c8bp-1, 0x1.428a298578267p-1)]%float;
     math_cos := table [(0x1.4b12d11e95e37p-9, 0x1.ffff94f599310p-1);
                        (0x1.5cee3053bb1ddp-1, 0x1.8da1e146236e2p-1);
                        (0x1.921fb54442d18p+0, 0x1.1a62633145c07p-54)]%float;
     math_asin := table [(0x1.428a298578267p-1, 0x1.5cedd98035c8bp-1)]%float;
     math_atan2 := fun y x =>
       if (PrimFloat.eqb y 0x1.011eb2510b642p-9
           && PrimFloat.eqb x 0x1.34cf7cf8a4ff5p-1)%bool
       then Some 0x1.aa4bfb3a86838p-9%float else None |}.

(** The arguments of the example in radians, as [apply_offset] computes
    them, and the factor of [math.degrees]. *)
Definition lat_rad : float := Eval vm_compute in radians topeka_lat.
Definition lon_rad : float := Eval vm_compute in radians topeka_lon.
Definition bearing_rad : float := Eval vm_compute in radians (num_float (PInt 90)).
Definition distance_rad : float := Eval vm_compute in (10 / 3959)%float.
Definition rad_to_deg : float := Eval vm_compute in (180 / math_pi)%float.

(** The shifted coordinates [topeka_math] leads to. *)
Definition topeka_lat_shifted : float := 0x1.3860a8bca47a0p+5%float.
Definition topeka_lon_shifted : float := (-0x1.7df48a7fac50cp+6)%float.



(** ** Basic facts about strings *)

Lemma append_empty_r : forall s : string, s ++ "" = s.
Proof.
  induction s as [| c s IH]; simpl; [reflexivity | now rewrite IH].
Qed.

Lemma starts_with_append : forall p s : string, starts_with p (p ++ s) = true.
Proof.
  induction p as [| c p IH]; intros s; simpl.
  - reflexivity.
  - now rewrite Ascii.eqb_refl, IH.
Qed.

Lemma contains_prefix : forall p s : string, contains p (p ++ s) = true.
Proof.
  intros p s. destruct (p ++ s) eqn:E; simpl;
    rewrite <- E, starts_with_append; reflexivity.
Qed.

Lemma contains_empty : forall s : string, contains "" s = true.
Proof. intros s. destruct s; reflexivity. Qed.

Lemma nonempty_false : forall s : string, nonempty s = false -> s = "".
Proof. intros [| c s] H; [reflexivity | discriminate]. Qed.

(** ** The merge of post-geocode flags *)

Lemma critical_post_text : forall f : post_flag,
  contains "UNEXPECTED COUNTRY" (post_flag_text f)
  || contains "State mismatch" (post_flag_text f) = is_critical_post f.
Proof.
  intros [| expected |]; try reflexivity.
  change (post_flag_text (StateMismatch expected))
    with ("State mismatch" ++ (" (expected " ++ expected ++ ")")).
  rewrite contains_prefix. apply orb_true_r.
Qed.

Lemma critical_post_exists : forall post : list post_flag,
  existsb (fun f => contains "UNEXPECTED COUNTRY" f || contains "State mismatch" f)
          (map post_flag_text post)
  = existsb is_critical_post post.
Proof.
  induction post as [| f post IH]; [reflexivity |].
  cbn [map existsb]. now rewrite critical_post_text, IH.
Qed.

Lemma merged_severity_ge : forall (s : severity) (post : list post_flag),
  severity_leb s (merged_severity s post) = true.
Proof.
  intros s post. unfold merged_severity.
  destruct (existsb is_critical_post post); destruct s, post; reflexivity.
Qed.

(** C5.  Merging the post-geocode flags never lowers [flag_status]: with a
    state-mismatch or unexpected-country flag among them the status becomes
    WARNING; otherwise, with at least one flag and the status at OK, it
    becomes REVIEW; otherwise it stays.  The reason trail keeps what it held
    and the post-stage reasons are appended to it. *)
Theorem merge_never_lowers_status :
  forall (s : severity) (reason : string) (post : list post_flag),
    merge_flags (status_name s) reason (map post_flag_text post)
    = (status_name (merged_severity s post),
       reason ++ appended_reasons reason post)
    /\ severity_leb s (merged_severity s post) = true.
Proof.
  intros s reason post. split; [| apply merged_severity_ge].
  destruct post as [| f post].
  - cbn. now rewrite append_empty_r.
  - unfold merge_flags, merged_severity, appended_reasons.
    cbn [map]. rewrite <- (critical_post_exists (f :: post)). cbn [map].
    set (crit := existsb _ (post_flag_text f :: map post_flag_text post)).
    f_equal.
    + destruct crit; [reflexivity |]. destruct s; reflexivity.
    + destruct (nonempty reason) eqn:E; [reflexivity |].
      apply nonempty_false in E. subst reason. reflexivity.
Qed.

(** ** The pre-geocode flags *)

Lemma no_value_text : forall c : cell,
  has_value c = false ->
  strip (cell_text c) = "" \/ strip (cell_text c) = "nan".
Proof.
  intros [| | s] H; cbn in *.
  - left; reflexivity.
  - right; reflexivity.
  - left. now apply nonempty_false.
Qed.

(** C2, as amended.  A row without city and precise location but with
    county and state gets WARNING, and its reasons carry the "vague" marker;
    the "missing state" marker is not among them, the state being there. *)
Theorem county_state_only_flags : forall row : record,
  has_value (city row) = false ->
  has_value (prec_location row) = false ->
  has_value (county row) = true ->
  has_value (province_state row) = true ->
  fst (flag_potential_issues row) = "WARNING"
  /\ contains "vague" (lower (snd (flag_potential_issues row))) = true
  /\ contains "missing state" (lower (snd (flag_potential_issues row))) = false.
Proof.
  intros row Hcity Hprec Hcounty Hstate.
  unfold flag_potential_issues, collect_flags. cbv zeta.
  rewrite Hcity, Hprec, Hcounty, Hstate.
  set (multiple := contains "/" (cell_text (county row))
                   || contains " or " (lower (cell_text (county row)))).
  destruct (no_value_text _ Hcity) as [Ec | Ec];
    destruct (no_value_text _ Hprec) as [Ep | Ep];
    rewrite Ec, Ep; destruct multiple; vm_compute; auto.
Qed.

Lemma county_state_only_flags_witness :
  let row := new_row NaN NaN (Str "Shawnee") (Str "KS") NaN in
  (has_value (city row) = false /\ has_value (prec_location row) = false
   /\ has_value (county row) = true /\ has_value (province_state row) = true)
  /\ fst (flag_potential_issues row) = "WARNING"
  /\ contains "vague" (lower (snd (flag_potential_issues row))) = true
  /\ contains "missing state" (lower (snd (flag_potential_issues row))) = false.
Proof.
  split.
  - repeat split; reflexivity.
  - apply (county_state_only_flags (new_row NaN NaN (Str "Shawnee") (Str "KS") NaN));
      reflexivity.
Defined.

(** C2 as stated fails: with county "Shawnee" and state "KS" alone the
    reasons are just the very-vague flag; no "missing state" marker. *)
Lemma county_state_only_counterexample :
  flag_potential_issues (new_row NaN NaN (Str "Shawnee") (Str "KS") NaN)
  = ("WARNING", "County/state only - very vague")
  /\ contains "missing state" (lower "County/state only - very vague") = false
  /\ contains "Missing state" "County/state only - very vague" = false.
Proof. vm_compute. auto. Qed.

(** C6: a row whose only flag is the acronym flag.  The precise location
    "USGS" (four capitals) with the state given raises
    "Possible acronym/abbreviation" alone, and the status is OK: the test
    for the word "abbreviated" does not find it in "abbreviation". *)
Theorem acronym_alone_gets_OK :
  let row := new_row (Str "USGS") NaN NaN (Str "KS") NaN in
  collect_flags row = ["Possible acronym/abbreviation"]
  /\ flag_potential_issues row = ("OK", "Possible acronym/abbreviation")
  /\ contains "abbreviated" (lower "Possible acronym/abbreviation") = false.
Proof. vm_compute. auto. Qed.

(** The status of each flag of the pre-geocode stage when it is the only
    one. *)
Lemma single_flag_status :
  map (fun flag => fst (determine_status [flag]))
    ["Directional offset - API may ignore distance/direction";
     "Vague reference point (behind/at/vic/near)";
     "Abbreviated location name";
     "Possible acronym/abbreviation";
     "Water feature - may use centerline/centroid";
     "Park/natural area (just name - may use geometric center)";
     "Park/natural area with detail (may still use center)";
     "Multiple counties listed";
     "Contains parenthetical info - may confuse geocoder"]
  = ["REVIEW"; "REVIEW"; "REVIEW"; "OK"; "OK"; "OK"; "OK"; "OK"; "OK"].
Proof. vm_compute. reflexivity. Qed.

(** With two flags the acronym flag does count as a concern. *)
Lemma acronym_with_another_gets_REVIEW :
  fst (determine_status ["Water feature - may use centerline/centroid";
                         "Possible acronym/abbreviation"]) = "REVIEW".
Proof. vm_compute. reflexivity. Qed.

(** ** The post-geocode flags *)

Lemma post_geocode_flags_kinds :
  forall (row : record) (location_type formatted_address : string),
  exists post : list post_flag,
    post_geocode_flags row location_type formatted_address
    = map post_flag_text post.
Proof.
  intros row lt fa. unfold post_geocode_flags, append_if.
  set (expected := strip (cell_text (province_state row))).
  repeat match goal with
         | |- context [if ?b then _ else _] => destruct b
         end;
    cbn [app];
    first [ now exists []
          | now exists [GeometricCenter]
          | now exists [StateMismatch expected]
          | now exists [UnexpectedCountry]
          | now exists [GeometricCenter; StateMismatch expected]
          | now exists [GeometricCenter; UnexpectedCountry]
          | now exists [StateMismatch expected; UnexpectedCountry]
          | now exists [GeometricCenter; StateMismatch expected; UnexpectedCountry] ].
Qed.

(** A state that is not a key of the table (a two-letter code, say) is
    always taken as found: the default [''] is a substring of everything. *)
Lemma unknown_state_is_found : forall key formatted_lower : string,
  dict_get state_abbrev key = None ->
  contains key formatted_lower
  || contains (state_abbrev_get key) formatted_lower = true.
Proof.
  intros key fl H. unfold state_abbrev_get. rewrite H, contains_empty.
  apply orb_true_r.
Qed.

(** C7: the state given as "KS" and an address in Missouri.  Neither
    "kansas" nor "ks" occurs in the formatted address, and no mismatch is
    flagged; with the state spelled "Kansas" it is. *)
Theorem two_letter_state_raises_no_mismatch :
  let formatted := "Springfield, MO 65806, USA" in
  contains "kansas" (lower formatted) = false
  /\ contains "ks" (lower formatted) = false
  /\ post_geocode_flags
       (new_row (Str "Main St") (Str "Springfield") NaN (Str "KS") NaN)
       "ROOFTOP" formatted = []
  /\ post_geocode_flags
       (new_row (Str "Main St") (Str "Springfield") NaN (Str "Kansas") NaN)
       "ROOFTOP" formatted = ["State mismatch (expected Kansas)"].
Proof. vm_compute. auto. Qed.

(** ** The address builder *)

Lemma construct_address_is_some : forall row : record,
  exists address, construct_address row = Some address.
Proof.
  intros row. unfold construct_address.
  destruct (has_value (country row));
    match goal with
    | |- context [match (?parts ++ [?x])%list with _ => _ end] =>
        destruct parts; cbn [app]; eauto
    end.
Qed.

(** C8: a row with every location part empty.  The default "USA" is added
    all the same, so the address is "USA" and never nothing. *)
Theorem empty_row_address_is_USA :
  construct_address (new_row NaN NaN NaN NaN NaN) = Some "USA"
  /\ construct_address (new_row Absent Absent Absent Absent Absent) = Some "USA"
  /\ construct_address (new_row (Str " ") (Str "") NaN NaN (Str "  ")) = Some "USA".
Proof. vm_compute. auto. Qed.

(** What the builder gives on rows that have parts. *)
Lemma construct_address_examples :
  construct_address
    (new_row (Str " Gage Park ") (Str "Topeka") (Str "Shawnee") (Str "KS") NaN)
  = Some "Gage Park, Topeka, Shawnee County, KS, USA"
  /\ construct_address
       (new_row NaN (Str "Toronto") (Str "York county") (Str "ON") (Str "Canada"))
     = Some "Toronto, York county, ON, Canada".
Proof. vm_compute. auto. Qed.

(** The address is never empty: its last part is the country or "USA". *)
Lemma nonempty_append_r : forall a b : string,
  nonempty b = true -> nonempty (a ++ b) = true.
Proof. intros [| c a] b H; [exact H | reflexivity]. Qed.

Lemma join_last_nonempty : forall (sep : string) (l : list string) (x : string),
  nonempty x = true -> nonempty (join sep (l ++ [x])) = true.
Proof.
  intros sep l x Hx. induction l as [| p l IH]; [exact Hx |].
  cbn [app join]. destruct (l ++ [x])%list eqn:E.
  - destruct l; discriminate E.
  - apply nonempty_append_r, nonempty_append_r, IH.
Qed.

Lemma has_value_text : forall c : cell,
  has_value c = true -> nonempty (strip (cell_text c)) = true.
Proof. intros [| | s] H; try discriminate H; exact H. Qed.

Lemma construct_address_nonempty : forall (row : record) (address : string),
  construct_address row = Some address -> nonempty address = true.
Proof.
  intros row address. unfold construct_address.
  destruct (has_value (country row)) eqn:Hc;
    match goal with
    | |- context [match (?parts ++ [?x])%list with _ => _ end] =>
        set (l := parts);
        assert (Hj : nonempty (join ", " (l ++ [x])) = true)
          by (apply join_last_nonempty;
              first [ now apply has_value_text | reflexivity ]);
        destruct (l ++ [x])%list eqn:E;
        [ destruct l; discriminate E | intros H; now injection H as <- ]
    end.
Qed.

(** ** The loop body: success and failure of the provider call *)

(** The failure outcomes: the function returns no coordinates for them.
    A first result without the key "geometry", or a geometry without the key
    "location", is among them: the KeyError is caught. *)
Lemma failure_outcomes :
  forall (message code : string),
    code <> "OK" ->
    Forall (fun resp =>
              geocode_address_google resp = Return (None, None, JNull, JNull))
      [ZeroResults; Denied; OverLimit; OtherStatus code;
       TransportFailure; ParseFailure;
       Body (JDict [("status", JStr "OK")]);
       Body (JDict [("status", JStr "OK"); ("results", JList [])]);
       Body (JDict [("status", JStr "OK");
                    ("results",
                     JList [JDict [("formatted_address", JStr message)]])]);
       Body (JDict [("status", JStr "OK");
                    ("results",
                     JList [JDict [("formatted_address", JStr message);
                                   ("geometry", JDict [])]])])].
Proof.
  intros message code Hcode.
  repeat (constructor; [try reflexivity |]); [| constructor].
  apply String.eqb_neq in Hcode.
  unfold OtherStatus, Status, geocode_address_google, Py.get, Py.is_str.
  cbn [dict_get String.eqb Ascii.eqb Bool.eqb py_bind].
  rewrite Hcode. reflexivity.
Qed.

Lemma geocode_success :
  forall (lat lon : float) (loc_type formatted : string),
    geocode_address_google (Success lat lon loc_type formatted)
    = Return (Some lat, Some lon, JStr loc_type, JStr formatted).
Proof. reflexivity. Qed.

(** X1: a request that fails.  Every failure outcome leaves the row as it
    is, counts it as failed and hands the run on to the next row; the
    request is not repeated. *)
Lemma process_row_failure :
  forall (math : pymath) (resolve : provider) (row : record) (counts : counters)
         (calls : list string) (address : string),
    is_too_vague row = false ->
    construct_address row = Some address ->
    geocode_address_google
      (resolve (List.length calls) (extract_base_location address))
      = Return (None, None, JNull, JNull) ->
    process_row math resolve row (counts, calls)
    = Some (row, (count_failed counts,
                  (calls ++ [extract_base_location address])%list)).
Proof.
  intros math resolve row counts calls address Hvague Haddr Hfail.
  unfold process_row. rewrite Hvague, Haddr.
  rewrite (construct_address_nonempty _ _ Haddr). cbn [negb].
  now rewrite Hfail.
Qed.

(** Applying the offset touches the three offset columns only. *)
Lemma shift_row_keeps :
  forall (math : pymath) (row row1 row2 : record) (lat lon : float),
    shift_row math row row1 lat lon = Some row2 ->
    latitude row2 = latitude row1 /\ longitude row2 = longitude row1
    /\ location_type row2 = location_type row1
    /\ google_formatted_address row2 = google_formatted_address row1
    /\ geocoded_address row2 = geocoded_address row1.
Proof.
  intros math row row1 row2 lat lon. unfold shift_row.
  destruct (nonempty _).
  - destruct (parse_directional_offset _) as [[distance |] [bearing |]].
    + destruct (float_truthy distance && num_truthy bearing).
      * destruct (apply_offset _ _ _ _ _) as [[la lo] |]; [| discriminate].
        intros H. injection H as <-. repeat split.
      * intros H. injection H as <-. repeat split.
    + intros H. injection H as <-. repeat split.
    + intros H. injection H as <-. repeat split.
    + intros H. injection H as <-. repeat split.
  - intros H. injection H as <-. repeat split.
Qed.

(** A success with both coordinates non-zero fills in the coordinates, the
    location type and the formatted address, and counts the row as
    geocoded. *)
Lemma process_row_success :
  forall (math : pymath) (resolve : provider) (row row' : record)
         (counts : counters)
         (calls : list string) (st' : progress) (address : string)
         (lat lon : float) (loc_type formatted : string),
    is_too_vague row = false ->
    construct_address row = Some address ->
    resolve (List.length calls) (extract_base_location address)
      = Success lat lon loc_type formatted ->
    float_truthy lat = true -> float_truthy lon = true ->
    process_row math resolve row (counts, calls) = Some (row', st') ->
    latitude row' = Some lat /\ longitude row' = Some lon
    /\ location_type row' = loc_type
    /\ google_formatted_address row' = formatted
    /\ geocoded_address row' = address
    /\ st' = (count_geocoded counts,
              (calls ++ [extract_base_location address])%list).
Proof.
  intros math resolve row row' counts calls st' address lat lon lt fa
         Hvague Haddr Hres Hlat Hlon.
  unfold process_row. rewrite Hvague, Haddr.
  rewrite (construct_address_nonempty _ _ Haddr). cbn [negb].
  rewrite Hres, geocode_success, Hlat, Hlon. cbn [andb].
  destruct (shift_row math row _ lat lon) as [row2 |] eqn:Hshift; [| discriminate].
  destruct (merge_flags _ _ _) as [status reason].
  intros H. injection H as <- <-.
  apply shift_row_keeps in Hshift.
  destruct Hshift as (H1 & H2 & H3 & H4 & H5).
  cbn. rewrite H1, H2, H3, H4, H5. cbn. repeat split.
Qed.

(** A success for a row whose [prec_location] holds an offset with a
    distance and a bearing that are not zero: the loop body writes what
    [apply_offset] returns, and dies with it when a call of [math] raises. *)
Lemma process_row_offset :
  forall (math : pymath) (resolve : provider) (row : record)
         (counts : counters) (calls : list string) (address text : string)
         (lat lon : float) (loc_type formatted : string)
         (distance : float) (bearing : pynum),
    is_too_vague row = false ->
    construct_address row = Some address ->
    geocode_address_google
      (resolve (List.length calls) (extract_base_location address))
      = Return (Some lat, Some lon, JStr loc_type, JStr formatted) ->
    float_truthy lat = true -> float_truthy lon = true ->
    strip (cell_text (prec_location row)) = text ->
    nonempty text = true ->
    parse_directional_offset text = (Some distance, Some bearing) ->
    float_truthy distance = true -> num_truthy bearing = true ->
    process_row math resolve row (counts, calls)
    = match apply_offset math lat lon distance bearing with
      | Some (lat_shifted, lon_shifted) =>
          let row1 := set_geocoded row lat lon address formatted loc_type in
          let row2 := set_shifted row1 lat_shifted lon_shifted
                        (float_repr distance ++ "mi at " ++ num_str bearing
                           ++ degree_sign) in
          let merged := merge_flags (flag_status row2) (flag_reason row2)
                          (post_geocode_flags row loc_type formatted) in
          Some (set_flags row2 (fst merged) (snd merged),
                (count_geocoded counts,
                 (calls ++ [extract_base_location address])%list))
      | None => None
      end.
Proof.
  intros math resolve row counts calls address text lat lon lt fa distance
         bearing Hvague Haddr Hres Hlat Hlon Htext Hne Hparse Hd Hb.
  unfold process_row. rewrite Hvague, Haddr.
  rewrite (construct_address_nonempty _ _ Haddr). cbn [negb].
  rewrite Hres, Hlat, Hlon. cbn [andb].
  unfold shift_row. cbv zeta. rewrite Htext, Hne, Hparse, Hd, Hb. cbn [andb].
  destruct (apply_offset _ _ _ _ _) as [[la lo] |]; [| reflexivity].
  destruct (merge_flags _ _ _) as [status reason]. reflexivity.
Qed.

(** C1: a success whose latitude is exactly 0.0 (a point on the equator).
    The test [if lat and lon] takes the zero for a missing value: the row
    keeps its empty coordinates and is counted as failed. *)
Theorem zero_latitude_success_is_counted_failed :
  forall math : pymath,
  let row := preflag (new_row (Str "Mitad del Mundo") (Str "Quito") NaN NaN
                        (Str "Ecuador")) in
  let answer := Success 0 (-78.5) "APPROXIMATE" "Mitad del Mundo, Quito, Ecuador" in
  float_truthy 0 = false
  /\ process_row math (always answer) row (Counters 0 0 0, [])
     = Some (row, (Counters 0 0 1, ["Mitad del Mundo, Quito, Ecuador"])).
Proof. intros math. vm_compute. auto. Qed.

(** C3: the offset "5 mi N of Topeka".  The parser finds the pair
    (5.0, 0), the bearing of N being 0; the test [if distance and bearing]
    takes the 0 for a missing value, and no shifted coordinates are written,
    although the row is geocoded. *)
Theorem north_offset_is_not_applied :
  forall math : pymath,
  let row := preflag (new_row (Str "5 mi N of Topeka") NaN NaN (Str "KS") NaN) in
  parse_directional_offset "5 mi N of Topeka" = (Some 5%float, Some (PInt 0))
  /\ num_truthy (PInt 0) = false
  /\ process_row math (topeka "APPROXIMATE" "Topeka, KS, USA") row (Counters 0 0 0, [])
     = Some ({| prec_location := Str "5 mi N of Topeka";
                city := NaN;
                county := NaN;
                province_state := Str "KS";
                country := NaN;
                latitude := Some topeka_lat;
                longitude := Some topeka_lon;
                geocoded_address := "5 mi N of Topeka, KS, USA";
                google_formatted_address := "Topeka, KS, USA";
                location_type := "APPROXIMATE";
                flag_status := "OK";
                flag_reason := "";
                latitude_shifted := None;
                longitude_shifted := None;
                offset_applied := "" |},
             (Counters 1 0 0, ["Topeka, KS, USA"])).
Proof. intros math. vm_compute. auto. Qed.

(** The same row with the offset to the north-east: the shifted
    coordinates are the ones [apply_offset] returns for the bearing 45, and
    the descriptor is written with them. *)
Lemma northeast_offset_is_applied :
  forall math : pymath,
    option_map
      (fun p => (offset_applied (fst p),
                 latitude_shifted (fst p), longitude_shifted (fst p)))
      (process_row math (topeka "APPROXIMATE" "Topeka, KS, USA")
         (preflag (new_row (Str "5 mi NE of Topeka") NaN NaN (Str "KS") NaN))
         (Counters 0 0 0, []))
    = option_map
        (fun shifted => ("5.0mi at 45" ++ degree_sign,
                         Some (fst shifted), Some (snd shifted)))
        (apply_offset math topeka_lat topeka_lon 5 (PInt 45)).
Proof.
  intros math.
  rewrite (process_row_offset math _ _ _ _ "5 mi NE of Topeka, KS, USA"
             "5 mi NE of Topeka" topeka_lat topeka_lon "APPROXIMATE"
             "Topeka, KS, USA" 5%float (PInt 45));
    try (vm_compute; reflexivity).
  destruct (apply_offset _ _ _ _ _) as [[la lo] |]; vm_compute; reflexivity.
Qed.

(** Of the sixteen bearings of the table, N is the only one that the test
    [if distance and bearing] takes for missing. *)
Lemma bearings_truth_values :
  map (fun entry => (fst entry, num_truthy (snd entry))) direction_bearings
  = [("N", false); ("NNE", true); ("NE", true); ("ENE", true);
     ("E", true); ("ESE", true); ("SE", true); ("SSE", true);
     ("S", true); ("SSW", true); ("SW", true); ("WSW", true);
     ("W", true); ("WNW", true); ("NW", true); ("NNW", true)].
Proof. vm_compute. reflexivity. Qed.

(** ** Running the pipeline again *)

Lemma preflag_same_but_flags : forall r : record, same_but_flags r (preflag r).
Proof.
  intros r. unfold preflag. destruct (flag_potential_issues r).
  repeat split.
Qed.

Lemma preflag_flags : forall r : record,
  (flag_status (preflag r), flag_reason (preflag r)) = flag_potential_issues r.
Proof.
  intros r. unfold preflag. now destruct (flag_potential_issues r).
Qed.

Lemma should_geocode_preflag : forall r : record,
  should_geocode (preflag r) = should_geocode r.
Proof.
  intros r. unfold preflag. now destruct (flag_potential_issues r).
Qed.

(** C9: a second run on the table a first run saved.  The first run
    geocodes the address in Topeka and, the provider reporting a geometric
    centre, leaves the row at REVIEW with that reason; the other row has no
    location and is skipped.  The second run makes no request, and the
    geocoded row, which keeps every other column, comes out at OK with an
    empty reason: the pre-geocode stage has written its flags over the ones
    of the first run. *)
Theorem rerun_resets_flags :
  forall math : pymath,
  main math "key" (always college_answer) college_rows
  = Saved [college_geocoded "REVIEW" "Geometric center of area"; shawnee_flagged]
          (Counters 1 1 0) ["1700 SW College Ave, Topeka, Kansas, USA"]
  /\ main math "key" (always college_answer)
       [college_geocoded "REVIEW" "Geometric center of area"; shawnee_flagged]
     = Saved [college_geocoded "OK" ""; shawnee_flagged] (Counters 0 1 0) [].
Proof. intros math. vm_compute. auto. Qed.

(** ** Binary64 operations as operations on real numbers *)

Section Binary64.

Local Open Scope R_scope.

Lemma pow2_powerRZ : forall e : Z, pow2 e = powerRZ 2 e.
Proof.
  intros e. unfold pow2. destruct e as [| p | p]; cbn [Z.leb Z.compare Z.opp].
  - reflexivity.
  - cbn [powerRZ]. rewrite <- (positive_nat_Z p) at 1.
    now rewrite <- pow_IZR.
  - cbn [powerRZ]. rewrite <- (positive_nat_Z p) at 1.
    now rewrite <- pow_IZR.
Qed.

Lemma pow2_pos : forall e : Z, 0 < pow2 e.
Proof. intros e. rewrite pow2_powerRZ. apply powerRZ_lt. lra. Qed.

Lemma pow2_add : forall a b : Z, pow2 (a + b) = pow2 a * pow2 b.
Proof. intros a b. rewrite !pow2_powerRZ. apply powerRZ_add. lra. Qed.

Lemma pow2_nonneg_IZR : forall e : Z, (0 <= e)%Z -> pow2 e = IZR (2 ^ e).
Proof. intros e H. unfold pow2. now rewrite (proj2 (Z.leb_le 0 e) H). Qed.

Lemma pow2_le : forall a b : Z, (a <= b)%Z -> pow2 a <= pow2 b.
Proof.
  intros a b H. replace b with (a + (b - a))%Z by ring. rewrite pow2_add.
  assert (1 <= pow2 (b - a)).
  { rewrite pow2_nonneg_IZR by lia. apply IZR_le.
    assert (0 < 2 ^ (b - a))%Z by (apply Z.pow_pos_nonneg; lia). lia. }
  pose proof (pow2_pos a). nra.
Qed.

Lemma pow2_lt_inv : forall a b : Z, pow2 a < pow2 b -> (a < b)%Z.
Proof.
  intros a b H. destruct (Z_lt_le_dec a b) as [Hlt | Hle]; [exact Hlt |].
  apply pow2_le in Hle. lra.
Qed.

(** ** Shifting and rounding *)

Local Open Scope Z_scope.

Lemma shr_1_m : forall mrs : shr_record,
  0 <= shr_m mrs -> shr_m (shr_1 mrs) = shr_m mrs / 2.
Proof.
  intros [m r s] H. cbn [shr_m] in *. rewrite <- Z.div2_div.
  destruct m as [| [p | p |] | p]; try reflexivity. lia.
Qed.

Lemma iter_shr_m : forall (p : positive) (mrs : shr_record),
  0 <= shr_m mrs ->
  shr_m (SpecFloat.iter_pos shr_1 p mrs) = shr_m mrs / 2 ^ Zpos p.
Proof.
  induction p as [p IH | p IH |]; intros mrs H; cbn [SpecFloat.iter_pos].
  - assert (H1 : 0 <= shr_m (shr_1 mrs))
      by (rewrite shr_1_m by assumption; apply Z.div_pos; lia).
    assert (H2 : 0 <= shr_m (SpecFloat.iter_pos shr_1 p (shr_1 mrs)))
      by (rewrite IH by assumption; apply Z.div_pos; [lia | apply Z.pow_pos_nonneg; lia]).
    rewrite IH, IH, shr_1_m by assumption.
    assert (Hp : 0 < 2 ^ Zpos p) by (apply Z.pow_pos_nonneg; lia).
    rewrite !Z.div_div by lia.
    f_equal. replace (Zpos p~1) with (1 + Zpos p + Zpos p) by lia.
    rewrite !Z.pow_add_r by lia. ring.
  - assert (H2 : 0 <= shr_m (SpecFloat.iter_pos shr_1 p mrs))
      by (rewrite IH by assumption; apply Z.div_pos; [lia | apply Z.pow_pos_nonneg; lia]).
    rewrite IH, IH by assumption.
    assert (Hp : 0 < 2 ^ Zpos p) by (apply Z.pow_pos_nonneg; lia).
    rewrite !Z.div_div by lia.
    f_equal. replace (Zpos p~0) with (Zpos p + Zpos p) by lia.
    rewrite !Z.pow_add_r by lia. ring.
  - rewrite shr_1_m by assumption. reflexivity.
Qed.

Lemma digits2_pos_bounds : forall p : positive,
  2 ^ (Zpos (digits2_pos p) - 1) <= Zpos p < 2 ^ Zpos (digits2_pos p).
Proof.
  induction p as [p IH | p IH |]; cbn [digits2_pos].
  - rewrite Pos2Z.inj_succ. replace (Z.succ (Zpos (digits2_pos p)) - 1)
      with (Z.succ (Zpos (digits2_pos p) - 1)) by lia.
    rewrite !Z.pow_succ_r by lia. lia.
  - rewrite Pos2Z.inj_succ. replace (Z.succ (Zpos (digits2_pos p)) - 1)
      with (Z.succ (Zpos (digits2_pos p) - 1)) by lia.
    rewrite !Z.pow_succ_r by lia. lia.
  - cbn. lia.
Qed.

Lemma Zdigits2_le : forall (m k : Z),
  0 <= m < 2 ^ k -> 0 <= k -> Zdigits2 m <= k.
Proof.
  intros [| p | p] k [H1 H2] Hk; cbn [Zdigits2]; try lia.
  pose proof (digits2_pos_bounds p) as [Hlo _].
  assert (2 ^ (Zpos (digits2_pos p) - 1) < 2 ^ k) by lia.
  apply Z.pow_lt_mono_r_iff in H; lia.
Qed.

Lemma round_nearest_even_cases : forall (m : Z) (l : location),
  round_nearest_even m l = m \/ round_nearest_even m l = m + 1.
Proof.
  intros m [| []]; cbn; auto. destruct (Z.even m); auto.
Qed.

(** The second shift of [binary_round_aux] keeps the value: it moves by one
    place at most, and then the mantissa is [2^prec]. *)
Lemma renormalise : forall (m1 e1 : Z),
  0 <= m1 <= 2 ^ 53 -> -1074 <= e1 ->
  exists (m2 e2 : Z),
    shr_fexp prec emax m1 e1 loc_Exact
    = ({| shr_m := m2; shr_r := false; shr_s := false |}, e2)
    /\ 0 <= m2 < 2 ^ 53 /\ e1 <= e2 <= e1 + 1
    /\ m1 = m2 * 2 ^ (e2 - e1).
Proof.
  intros m1 e1 [Hlo Hhi] He. unfold shr_fexp, fexp, emin, shr_record_of_loc.
  change (3 - emax - prec) with (-1074). change prec with 53.
  destruct (Z.eq_dec m1 (2 ^ 53)) as [-> | Hne].
  - change (Zdigits2 (2 ^ 53)) with 54.
    replace (Z.max (54 + e1 - 53) (-1074) - e1) with 1 by lia.
    cbn [shr SpecFloat.iter_pos shr_1]. exists (2 ^ 52), (e1 + 1).
    replace (e1 + 1 - e1) with 1 by lia.
    repeat split; try reflexivity; try lia.
  - assert (Hd : Zdigits2 m1 <= 53) by (apply Zdigits2_le; lia).
    assert (Hn : Z.max (Zdigits2 m1 + e1 - 53) (-1074) - e1 <= 0) by lia.
    exists m1, e1. replace (e1 - e1) with 0 by lia.
    destruct (Z.max (Zdigits2 m1 + e1 - 53) (-1074) - e1) as [| p | p];
      cbn [shr]; repeat split; try lia.
Qed.

Local Open Scope R_scope.

Lemma IZR_pow2 : forall k : Z, (0 <= k)%Z -> IZR (2 ^ k) = pow2 k.
Proof. intros k H. now rewrite pow2_nonneg_IZR. Qed.

Lemma digits_pow2_le : forall m : positive,
  pow2 (Zpos (digits2_pos m) - 1) <= IZR (Zpos m).
Proof.
  intros m. pose proof (digits2_pos_bounds m) as [H _].
  rewrite <- IZR_pow2 by lia. now apply IZR_le.
Qed.

(** What [binary_round_aux] returns for an exact [m * 2^e]: a value [r]
    that is off by one unit of the exponent it lands on at most. *)
Lemma round_aux_R : forall (sx : bool) (m : positive) (e : Z),
  (Zpos (digits2_pos m) + e <= 900)%Z ->
  exists r : R,
    0 <= r
    /\ Rabs (r - IZR (Zpos m) * pow2 e)
       <= IZR (Zpos m) * pow2 e * pow2 (-52) + pow2 (-1074)
    /\ SF2R (binary_round_aux prec emax sx (Zpos m) e loc_Exact)
       = (if sx then - r else r)
    /\ SF_finite (binary_round_aux prec emax sx (Zpos m) e loc_Exact) = true.
Proof.
  intros sx m e Hbig.
  pose proof (digits2_pos_bounds m) as [Hdlo Hdhi].
  pose proof (digits_pow2_le m) as Hd.
  remember (Zpos (digits2_pos m)) as d eqn:Hdd.
  remember (Z.max (d + e - 53) (-1074)) as e1 eqn:He1def.
  assert (Hv : 0 < IZR (Zpos m) * pow2 e)
    by (apply Rmult_lt_0_compat; [now apply IZR_lt | apply pow2_pos]).
  (* the first shift *)
  assert (Hfirst : exists m1 : Z,
            (0 <= m1 <= 2 ^ 53)%Z
            /\ (let '(mrs', e') := shr_fexp prec emax (Zpos m) e loc_Exact in
                (round_nearest_even (shr_m mrs') (loc_of_shr_record mrs'), e'))
               = (m1, Z.max e e1)
            /\ Rabs (IZR m1 * pow2 (Z.max e e1) - IZR (Zpos m) * pow2 e)
               <= IZR (Zpos m) * pow2 e * pow2 (-52) + pow2 (-1074)).
  { unfold shr_fexp, fexp, emin, shr_record_of_loc.
    change (3 - emax - prec)%Z with (-1074)%Z. change prec with 53%Z.
    cbn [Zdigits2]. rewrite <- Hdd, <- He1def.
    destruct (e1 - e)%Z as [| p | p] eqn:En; cbn [shr].
    - exists (Zpos m). replace (Z.max e e1) with e by lia.
      cbn [shr_m loc_of_shr_record round_nearest_even].
      split; [| split; [reflexivity |]].
      + assert (2 ^ d <= 2 ^ 53)%Z by (apply Z.pow_le_mono_r; lia). lia.
      + replace (_ - _) with 0 by ring. rewrite Rabs_R0.
        pose proof (pow2_pos (-52)). pose proof (pow2_pos (-1074)). nra.
    - set (mrs' := SpecFloat.iter_pos shr_1 p _).
      assert (Hq : shr_m mrs' = (Zpos m / 2 ^ Zpos p)%Z)
        by (unfold mrs'; now rewrite iter_shr_m).
      set (q := (Zpos m / 2 ^ Zpos p)%Z) in *.
      assert (Hp : (0 < 2 ^ Zpos p)%Z) by (apply Z.pow_pos_nonneg; lia).
      assert (Hq0 : (0 <= q)%Z) by (apply Z.div_pos; lia).
      assert (Hq1 : (q < 2 ^ 53)%Z).
      { apply Z.div_lt_upper_bound; [lia |].
        rewrite <- Z.pow_add_r by lia.
        assert (2 ^ d <= 2 ^ (Zpos p + 53))%Z by (apply Z.pow_le_mono_r; lia).
        lia. }
      assert (Hlo : (q * 2 ^ Zpos p <= Zpos m)%Z)
        by (unfold q; rewrite Z.mul_comm; apply Z.mul_div_le; lia).
      assert (Hhi : (Zpos m < (q + 1) * 2 ^ Zpos p)%Z)
        by (unfold q; rewrite Z.mul_comm; apply Z.mul_succ_div_gt; lia).
      exists (round_nearest_even (shr_m mrs') (loc_of_shr_record mrs')).
      replace (Z.max e e1) with (e + Zpos p)%Z by lia.
      split; [| split; [reflexivity |]].
      + rewrite Hq.
        destruct (round_nearest_even_cases q (loc_of_shr_record mrs')) as [-> | ->];
          lia.
      + rewrite Hq, pow2_add.
        assert (He1 : pow2 (e + Zpos p) <= IZR (Zpos m) * pow2 e * pow2 (-52)
                                        + pow2 (-1074)).
        { replace (e + Zpos p)%Z with e1 by lia.
          pose proof (pow2_pos (-1074)). pose proof (pow2_pos (-52)).
          destruct (Z.max_spec (d + e - 53) (-1074)) as [[_ Hm] | [_ Hm]];
            rewrite He1def, Hm; [nra |].
          replace (d + e - 53)%Z with ((d - 1) + e + (-52))%Z by ring.
          rewrite !pow2_add.
          pose proof (pow2_pos e). pose proof (pow2_pos (-52)).
          assert (pow2 (d - 1) * pow2 e <= IZR (Zpos m) * pow2 e) by nra.
          nra. }
        rewrite pow2_add in He1.
        rewrite (pow2_nonneg_IZR (Zpos p)) in * by lia.
        set (P := IZR (2 ^ Zpos p)) in *.
        assert (HloR : IZR q * P <= IZR (Zpos m))
          by (unfold P; rewrite <- mult_IZR; now apply IZR_le).
        assert (HhiR : IZR (Zpos m) <= (IZR q + 1) * P)
          by (unfold P; rewrite <- (plus_IZR q 1), <- mult_IZR; apply IZR_le; lia).
        pose proof (pow2_pos e) as He.
        destruct (round_nearest_even_cases q (loc_of_shr_record mrs')) as [-> | ->].
        * apply Rabs_le. split; nra.
        * rewrite plus_IZR. apply Rabs_le. split; nra.
    - exists (Zpos m). replace (Z.max e e1) with e by lia.
      cbn [shr_m loc_of_shr_record round_nearest_even].
      split; [| split; [reflexivity |]].
      + assert (2 ^ d <= 2 ^ 53)%Z by (apply Z.pow_le_mono_r; lia). lia.
      + replace (_ - _) with 0 by ring. rewrite Rabs_R0.
        pose proof (pow2_pos (-52)). pose proof (pow2_pos (-1074)). nra. }
  destruct Hfirst as (m1 & Hm1 & Hfst & Herr).
  destruct (renormalise m1 (Z.max e e1) Hm1) as (m2 & e2 & Hsnd & Hm2 & He2 & Hval);
    [lia |].
  unfold binary_round_aux.
  destruct (shr_fexp prec emax (Zpos m) e loc_Exact) as [mrs' e'].
  injection Hfst as Hr He'. rewrite Hr, He', Hsnd. cbn [shr_m].
  exists (IZR m2 * pow2 e2).
  assert (Hsame : IZR m2 * pow2 e2 = IZR m1 * pow2 (Z.max e e1)).
  { rewrite Hval, mult_IZR, IZR_pow2 by lia.
    replace e2 with (Z.max e e1 + (e2 - Z.max e e1))%Z at 1 by ring.
    rewrite pow2_add. ring. }
  split; [| split].
  - apply Rmult_le_pos; [apply IZR_le; lia | apply Rlt_le, pow2_pos].
  - now rewrite Hsame.
  - destruct m2 as [| p2 | p2]; [| | lia].
    + cbn [SF2R SF_finite]. split; [| reflexivity].
      rewrite Rmult_0_l. destruct sx; [now rewrite Ropp_0 | reflexivity].
    + replace (e2 <=? emax - prec)%Z with true
        by (symmetry; apply Z.leb_le; change (emax - prec)%Z with 971%Z; lia).
      cbn [SF2R SF_finite]. split; reflexivity.
Qed.

(** ** The operations *)

Lemma iter_xO : forall (d m : positive),
  Zpos (Pos.iter xO m d) = (Zpos m * 2 ^ Zpos d)%Z
  /\ digits2_pos (Pos.iter xO m d) = (digits2_pos m + d)%positive.
Proof.
  intros d m. induction d as [| d [IH1 IH2]] using Pos.peano_ind.
  - cbn [Pos.iter digits2_pos]. split; lia.
  - rewrite Pos.iter_succ. cbn [digits2_pos]. rewrite IH2.
    rewrite Pos2Z.inj_xO, IH1, Pos2Z.inj_succ, Z.pow_succ_r by lia.
    split; lia.
Qed.

Lemma shl_align_R : forall (mx : positive) (ex ex' : Z),
  IZR (Zpos (fst (shl_align mx ex ex'))) * pow2 (snd (shl_align mx ex ex'))
  = IZR (Zpos mx) * pow2 ex
  /\ (Zpos (digits2_pos (fst (shl_align mx ex ex')))
      + snd (shl_align mx ex ex')
      = Zpos (digits2_pos mx) + ex)%Z.
Proof.
  intros mx ex ex'. unfold shl_align.
  destruct (ex' - ex)%Z as [| d | d] eqn:E; cbn [fst snd]; try (split; reflexivity).
  destruct (iter_xO d mx) as [H1 H2]. rewrite H1, H2. split; [| lia].
  rewrite mult_IZR, IZR_pow2 by lia.
  replace ex with (ex' + Zpos d)%Z by lia. rewrite pow2_add. ring.
Qed.

Lemma magnitude_guard : forall (m : positive) (e : Z),
  IZR (Zpos m) * pow2 e < pow2 899 ->
  (Zpos (digits2_pos m) + e <= 900)%Z.
Proof.
  intros m e H. pose proof (digits_pow2_le m) as Hd. pose proof (pow2_pos e).
  assert (pow2 (Zpos (digits2_pos m) - 1 + e) < pow2 899)
    by (rewrite pow2_add; nra).
  apply pow2_lt_inv in H1. lia.
Qed.

Lemma rounds_to_exact : forall v : R, rounds_to v v.
Proof.
  intros v. unfold rounds_to. replace (v - v) with 0 by ring. rewrite Rabs_R0.
  pose proof (pow2_pos (-52)). pose proof (pow2_pos (-1074)).
  pose proof (Rabs_pos v). nra.
Qed.

Lemma binary_round_R : forall (sx : bool) (m : positive) (e : Z),
  IZR (Zpos m) * pow2 e < pow2 899 ->
  rounds_to (SF2R (binary_round prec emax sx m e))
            (if sx then - (IZR (Zpos m) * pow2 e) else IZR (Zpos m) * pow2 e)
  /\ SF_finite (binary_round prec emax sx m e) = true.
Proof.
  intros sx m e H. unfold binary_round.
  destruct (shl_align_R m e (fexp prec emax (Zpos (digits2_pos m) + e)))
    as [Hv Hd].
  destruct (shl_align m e _) as [mz ez]. cbn [fst snd] in Hv, Hd.
  destruct (round_aux_R sx mz ez) as (r & Hr0 & Hr & Hs & Hf).
  { rewrite Hd. now apply magnitude_guard. }
  split; [| exact Hf]. rewrite Hs, Hv in *. unfold rounds_to.
  assert (Hpos : 0 < IZR (Zpos m) * pow2 e)
    by (apply Rmult_lt_0_compat; [now apply IZR_lt | apply pow2_pos]).
  destruct sx.
  - replace (- r - - (IZR (Zpos m) * pow2 e)) with (- (r - IZR (Zpos m) * pow2 e))
      by ring.
    rewrite !Rabs_Ropp, (Rabs_pos_eq (IZR (Zpos m) * pow2 e)) by lra. exact Hr.
  - rewrite (Rabs_pos_eq (IZR (Zpos m) * pow2 e)) by lra. exact Hr.
Qed.

Lemma binary_normalize_R : forall (m e : Z),
  Rabs (IZR m * pow2 e) < pow2 899 ->
  rounds_to (SF2R (binary_normalize prec emax m e false)) (IZR m * pow2 e)
  /\ SF_finite (binary_normalize prec emax m e false) = true.
Proof.
  intros [| p | p] e H; cbn [binary_normalize].
  - cbn [SF2R SF_finite]. rewrite Rmult_0_l. split; [apply rounds_to_exact | reflexivity].
  - assert (Hpos : 0 < IZR (Zpos p) * pow2 e)
      by (apply Rmult_lt_0_compat; [now apply IZR_lt | apply pow2_pos]).
    rewrite Rabs_pos_eq in H by lra. now apply binary_round_R.
  - assert (Hpos : 0 < IZR (Zpos p) * pow2 e)
      by (apply Rmult_lt_0_compat; [now apply IZR_lt | apply pow2_pos]).
    replace (IZR (Zneg p)) with (- IZR (Zpos p)) in * by (now rewrite <- opp_IZR).
    replace (- IZR (Zpos p) * pow2 e) with (- (IZR (Zpos p) * pow2 e)) in * by ring.
    rewrite Rabs_Ropp, Rabs_pos_eq in H by lra.
    now apply (binary_round_R true).
Qed.

Lemma SF2R_finite_abs : forall (s : bool) (m : positive) (e : Z),
  Rabs (SF2R (S754_finite s m e)) = IZR (Zpos m) * pow2 e.
Proof.
  intros s m e. cbn [SF2R].
  assert (Hpos : 0 < IZR (Zpos m) * pow2 e)
    by (apply Rmult_lt_0_compat; [now apply IZR_lt | apply pow2_pos]).
  destruct s; [rewrite Rabs_Ropp |]; apply Rabs_pos_eq; lra.
Qed.

Lemma SFmul_R : forall x y : spec_float,
  SF_finite x = true -> SF_finite y = true ->
  Rabs (SF2R x * SF2R y) < pow2 899 ->
  rounds_to (SF2R (SFmul prec emax x y)) (SF2R x * SF2R y)
  /\ SF_finite (SFmul prec emax x y) = true.
Proof.
  intros [sx | sx | | sx mx ex] [sy | sy | | sy my ey] Hx Hy H;
    try discriminate Hx; try discriminate Hy; cbn [SFmul];
    try (cbn [SF2R SF_finite];
         rewrite ?Rmult_0_l, ?Rmult_0_r;
         split; [apply rounds_to_exact | reflexivity]).
  rewrite Rabs_mult, !SF2R_finite_abs in H.
  destruct (round_aux_R (xorb sx sy) (mx * my) (ex + ey))
    as (r & Hr0 & Hr & Hs & Hf).
  { apply magnitude_guard. rewrite Pos2Z.inj_mul, mult_IZR, pow2_add.
    replace (IZR (Zpos mx) * IZR (Zpos my) * (pow2 ex * pow2 ey))
      with (IZR (Zpos mx) * pow2 ex * (IZR (Zpos my) * pow2 ey)) by ring.
    exact H. }
  split; [| exact Hf]. rewrite Hs. unfold rounds_to.
  rewrite Pos2Z.inj_mul, mult_IZR, pow2_add in Hr.
  set (a := IZR (Zpos mx) * pow2 ex) in *.
  set (b := IZR (Zpos my) * pow2 ey) in *.
  replace (IZR (Zpos mx) * IZR (Zpos my) * (pow2 ex * pow2 ey)) with (a * b)
    in Hr by (unfold a, b; ring).
  assert (Ha : 0 < a)
    by (apply Rmult_lt_0_compat; [now apply IZR_lt | apply pow2_pos]).
  assert (Hb : 0 < b)
    by (apply Rmult_lt_0_compat; [now apply IZR_lt | apply pow2_pos]).
  assert (Hab : 0 < a * b) by nra.
  cbn [SF2R]. fold a b.
  destruct sx, sy; cbn [xorb].
  - replace (- a * - b) with (a * b) by ring.
    now rewrite (Rabs_pos_eq (a * b)) by lra.
  - replace (- r - - a * b) with (- (r - a * b)) by ring.
    replace (- a * b) with (- (a * b)) by ring.
    now rewrite !Rabs_Ropp, (Rabs_pos_eq (a * b)) by lra.
  - replace (- r - a * - b) with (- (r - a * b)) by ring.
    replace (a * - b) with (- (a * b)) by ring.
    now rewrite !Rabs_Ropp, (Rabs_pos_eq (a * b)) by lra.
  - now rewrite (Rabs_pos_eq (a * b)) by lra.
Qed.

Lemma shl_align_min : forall (mx : positive) (ex ez : Z),
  (ez <= ex)%Z ->
  IZR (Zpos (fst (shl_align mx ex ez))) * pow2 ez = IZR (Zpos mx) * pow2 ex.
Proof.
  intros mx ex ez H. destruct (shl_align_R mx ex ez) as [Hv _].
  rewrite <- Hv. f_equal. f_equal. unfold shl_align.
  destruct (ez - ex)%Z eqn:E; cbn [snd]; lia.
Qed.

Lemma cond_Zopp_R : forall (s : bool) (m : positive) (e ez : Z),
  (ez <= e)%Z ->
  IZR (cond_Zopp s (Zpos (fst (shl_align m e ez)))) * pow2 ez
  = SF2R (S754_finite s m e).
Proof.
  intros s m e ez H. cbn [SF2R]. rewrite <- (shl_align_min m e ez H).
  destruct s; cbn [cond_Zopp]; [| reflexivity].
  rewrite opp_IZR. ring.
Qed.

Lemma SFadd_R : forall x y : spec_float,
  SF_finite x = true -> SF_finite y = true ->
  Rabs (SF2R x + SF2R y) < pow2 899 ->
  rounds_to (SF2R (SFadd prec emax x y)) (SF2R x + SF2R y)
  /\ SF_finite (SFadd prec emax x y) = true.
Proof.
  intros [sx | sx | | sx mx ex] [sy | sy | | sy my ey] Hx Hy H;
    try discriminate Hx; try discriminate Hy; cbn [SFadd].
  - destruct sx, sy; cbn [SF2R SF_finite]; rewrite Rplus_0_l;
      split; try apply rounds_to_exact; reflexivity.
  - cbn [SF2R] in *. rewrite Rplus_0_l. split; [apply rounds_to_exact | reflexivity].
  - cbn [SF2R] in *. rewrite Rplus_0_r. split; [apply rounds_to_exact | reflexivity].
  - rewrite <- (cond_Zopp_R sx mx ex (Z.min ex ey)),
            <- (cond_Zopp_R sy my ey (Z.min ex ey)) in * by lia.
    rewrite <- Rmult_plus_distr_r, <- plus_IZR in *.
    now apply binary_normalize_R.
Qed.

Lemma SFsub_R : forall x y : spec_float,
  SF_finite x = true -> SF_finite y = true ->
  Rabs (SF2R x - SF2R y) < pow2 899 ->
  rounds_to (SF2R (SFsub prec emax x y)) (SF2R x - SF2R y)
  /\ SF_finite (SFsub prec emax x y) = true.
Proof.
  intros [sx | sx | | sx mx ex] [sy | sy | | sy my ey] Hx Hy H;
    try discriminate Hx; try discriminate Hy; cbn [SFsub].
  - destruct sx, sy; cbn [SF2R SF_finite]; rewrite Rminus_0_r;
      split; try apply rounds_to_exact; reflexivity.
  - cbn [SF2R SF_finite] in *. rewrite Rminus_0_l.
    split; [| reflexivity].
    destruct sy; cbn [negb]; rewrite ?Ropp_involutive; apply rounds_to_exact.
  - cbn [SF2R] in *. rewrite Rminus_0_r. split; [apply rounds_to_exact | reflexivity].
  - rewrite <- (cond_Zopp_R sx mx ex (Z.min ex ey)),
            <- (cond_Zopp_R sy my ey (Z.min ex ey)) in * by lia.
    rewrite <- Rmult_minus_distr_r, <- minus_IZR in *.
    now apply binary_normalize_R.
Qed.

(** ** Binary64 values *)

Lemma finite_SF : forall x : float, finite x = SF_finite (Prim2SF x).
Proof. reflexivity. Qed.

Lemma small_is_guarded : forall v : R, Rabs v <= 1000000 -> Rabs v < pow2 899.
Proof.
  intros v H. apply Rle_lt_trans with (1 := H).
  apply Rlt_le_trans with (pow2 20).
  - unfold pow2. cbn. lra.
  - apply pow2_le. lia.
Qed.

Lemma rounds_to_small : forall r v : R,
  rounds_to r v -> Rabs v <= 1000000 ->
  Rabs (r - v) <= Rabs v / 1000000000000000 + / 100000000000000000000.
Proof.
  unfold rounds_to. intros r v H Hv.
  assert (H52 : pow2 (-52) <= / 1000000000000000) by (unfold pow2; cbn; lra).
  assert (H1074 : pow2 (-1074) <= / 100000000000000000000).
  { apply Rle_trans with (pow2 (-70)); [apply pow2_le; lia |].
    unfold pow2. cbn. lra. }
  pose proof (Rabs_pos v). pose proof (pow2_pos (-52)).
  assert (Rabs v * pow2 (-52) <= Rabs v * / 1000000000000000) by nra.
  unfold Rdiv. lra.
Qed.

Lemma mul_R : forall x y : float,
  finite x = true -> finite y = true ->
  Rabs (F2R x * F2R y) <= 1000000 ->
  finite (x * y) = true
  /\ Rabs (F2R (x * y) - F2R x * F2R y)
     <= Rabs (F2R x * F2R y) / 1000000000000000 + / 100000000000000000000.
Proof.
  intros x y Hx Hy H. unfold F2R, finite in *. rewrite mul_spec.
  destruct (SFmul_R (Prim2SF x) (Prim2SF y) Hx Hy (small_is_guarded _ H))
    as [Hr Hf].
  split; [exact Hf | now apply rounds_to_small].
Qed.

Lemma add_R : forall x y : float,
  finite x = true -> finite y = true ->
  Rabs (F2R x + F2R y) <= 1000000 ->
  finite (x + y) = true
  /\ Rabs (F2R (x + y) - (F2R x + F2R y))
     <= Rabs (F2R x + F2R y) / 1000000000000000 + / 100000000000000000000.
Proof.
  intros x y Hx Hy H. unfold F2R, finite in *. rewrite add_spec.
  destruct (SFadd_R (Prim2SF x) (Prim2SF y) Hx Hy (small_is_guarded _ H))
    as [Hr Hf].
  split; [exact Hf | now apply rounds_to_small].
Qed.

Lemma sub_R : forall x y : float,
  finite x = true -> finite y = true ->
  Rabs (F2R x - F2R y) <= 1000000 ->
  finite (x - y) = true
  /\ Rabs (F2R (x - y) - (F2R x - F2R y))
     <= Rabs (F2R x - F2R y) / 1000000000000000 + / 100000000000000000000.
Proof.
  intros x y Hx Hy H. unfold F2R, finite in *. rewrite sub_spec.
  destruct (SFsub_R (Prim2SF x) (Prim2SF y) Hx Hy (small_is_guarded _ H))
    as [Hr Hf].
  split; [exact Hf | now apply rounds_to_small].
Qed.

End Binary64.

(** ** Enclosures of the circular functions *)

Section Enclosures.

Local Open Scope R_scope.

Lemma PI_bounds : 3.1415926 < PI < 3.1415927.
Proof.
  pose proof (PI_2_3_7_ineq 3) as [Hlo Hhi].
  unfold PI_2_3_7_tg, tg_alt, Ratan_seq in Hlo, Hhi.
  cbn [sum_f_R0 Nat.mul Nat.add] in Hlo, Hhi.
  cbn [INR] in Hlo, Hhi.
  split; lra.
Qed.

Lemma Rabs_le_inv : forall x b : R, Rabs x <= b -> - b <= x <= b.
Proof. intros x b H. unfold Rabs in H. destruct (Rcase_abs x); lra. Qed.

Lemma PI_gt_3 : 3 < PI.
Proof. pose proof PI_bounds. lra. Qed.

Lemma sin_enclosure : forall a : R,
  0 <= a <= 3 ->
  a - a ^ 3 / 6 + a ^ 5 / 120 - a ^ 7 / 5040 <= sin a
  <= a - a ^ 3 / 6 + a ^ 5 / 120 - a ^ 7 / 5040 + a ^ 9 / 362880.
Proof.
  intros a [H0 H3]. pose proof PI_gt_3.
  pose proof (sin_bound a 1 H0 ltac:(lra)) as [Hlo Hhi].
  unfold sin_approx, sin_term in Hlo, Hhi.
  cbn [sum_f_R0 Nat.mul Nat.add] in Hlo, Hhi.
  repeat rewrite fact_simpl in Hlo. repeat rewrite fact_simpl in Hhi.
  cbn [fact] in Hlo, Hhi.
  repeat rewrite mult_INR in Hlo. repeat rewrite mult_INR in Hhi.
  cbn [INR] in Hlo, Hhi.
  split; lra.
Qed.

Lemma cos_enclosure : forall a : R,
  - (3 / 2) <= a <= 3 / 2 ->
  1 - a ^ 2 / 2 + a ^ 4 / 24 - a ^ 6 / 720 + a ^ 8 / 40320 - a ^ 10 / 3628800
  <= cos a
  <= 1 - a ^ 2 / 2 + a ^ 4 / 24 - a ^ 6 / 720 + a ^ 8 / 40320 - a ^ 10 / 3628800
     + a ^ 12 / 479001600.
Proof.
  intros a [H0 H3]. pose proof PI_gt_3.
  pose proof (cos_bound a 2 ltac:(lra) ltac:(lra)) as [Hlo Hhi].
  unfold cos_approx, cos_term in Hlo, Hhi.
  cbn [sum_f_R0 Nat.mul Nat.add] in Hlo, Hhi.
  repeat rewrite fact_simpl in Hlo. repeat rewrite fact_simpl in Hhi.
  cbn [fact] in Hlo, Hhi.
  repeat rewrite mult_INR in Hlo. repeat rewrite mult_INR in Hhi.
  cbn [INR] in Hlo, Hhi.
  split; lra.
Qed.

Lemma sin_abs_le : forall x : R, Rabs (sin x) <= Rabs x.
Proof.
  assert (Hpos : forall x, 0 <= x -> Rabs (sin x) <= x).
  { intros x Hx. pose proof PI_gt_3. pose proof (SIN_bound x) as [Hs1 Hs2].
    destruct (Rle_lt_dec x 1) as [Hle | Hgt].
    - destruct (Req_dec x 0) as [-> | Hne].
      + rewrite sin_0, Rabs_R0. lra.
      + assert (0 < x) by lra. pose proof (sin_lt_x x H0).
        pose proof (sin_ge_0 x ltac:(lra) ltac:(lra)).
        rewrite Rabs_pos_eq; lra.
    - apply Rabs_le. lra. }
  intros x. destruct (Rle_lt_dec 0 x) as [H | H].
  - rewrite (Rabs_pos_eq x) by exact H. now apply Hpos.
  - rewrite (Rabs_left x) by exact H.
    replace (sin x) with (- sin (- x)) by (rewrite sin_neg; ring).
    rewrite Rabs_Ropp. apply Hpos. lra.
Qed.

Lemma cos_ge_parabola : forall x : R, 1 - x * x / 2 <= cos x.
Proof.
  intros x. replace x with (2 * (x / 2)) at 3 by field.
  rewrite cos_2a_sin. pose proof (sin_abs_le (x / 2)) as H.
  assert (Hsq : sin (x / 2) * sin (x / 2) <= (x / 2) * (x / 2))
    by (apply Rsqr_le_abs_1 in H; exact H).
  nra.
Qed.

(** Where [asin] and [atan] lie, by monotony of [sin] and [tan]. *)
Lemma asin_between : forall lo hi a : R,
  - (PI / 2) <= lo <= PI / 2 -> - (PI / 2) <= hi <= PI / 2 ->
  sin lo <= a <= sin hi ->
  lo <= asin a <= hi.
Proof.
  intros lo hi a [Hlo Hlo'] [Hhi' Hhi] [Ha1 Ha2].
  pose proof (SIN_bound lo) as [Hl _]. pose proof (SIN_bound hi) as [_ Hh].
  pose proof (asin_bound a) as [Hb1 Hb2].
  pose proof (sin_asin a ltac:(lra)) as Hsa.
  split.
  - destruct (Rle_lt_dec lo (asin a)) as [H | H]; [exact H |].
    pose proof (sin_increasing_1 (asin a) lo Hb1 ltac:(lra) Hlo ltac:(lra) H).
    lra.
  - destruct (Rle_lt_dec (asin a) hi) as [H | H]; [exact H |].
    pose proof (sin_increasing_1 hi (asin a) ltac:(lra) Hhi Hb1 Hb2 H).
    lra.
Qed.

Lemma atan_between : forall lo hi t : R,
  - (PI / 2) < lo < PI / 2 -> - (PI / 2) < hi < PI / 2 ->
  tan lo <= t <= tan hi ->
  lo <= atan t <= hi.
Proof.
  intros lo hi t [Hlo Hlo'] [Hhi' Hhi] [Ht1 Ht2].
  split.
  - destruct (Rle_lt_dec lo (atan t)) as [H | H]; [exact H |].
    pose proof (atan_bound t) as [Hb1 Hb2].
    pose proof (tan_increasing (atan t) lo Hb1 H ltac:(lra)) as Hinc.
    rewrite tan_atan in Hinc. lra.
  - destruct (Rle_lt_dec (atan t) hi) as [H | H]; [exact H |].
    pose proof (atan_bound t) as [Hb1 Hb2].
    pose proof (tan_increasing hi (atan t) ltac:(lra) H Hb2) as Hinc.
    rewrite tan_atan in Hinc. lra.
Qed.

Lemma mult_interval : forall a b a1 a2 b1 b2 : R,
  a1 <= a <= a2 -> b1 <= b <= b2 -> 0 <= a1 -> 0 <= b1 ->
  a1 * b1 <= a * b <= a2 * b2.
Proof. intros a b a1 a2 b1 b2 [H1 H2] [H3 H4] Ha Hb. split; nra. Qed.

Lemma mult_interval_abs : forall a b a2 bound : R,
  0 <= a <= a2 -> - bound <= b <= bound ->
  - (a2 * bound) <= a * b <= a2 * bound.
Proof. intros a b a2 bound [H1 H2] [H3 H4]. split; nra. Qed.

Lemma tan_small : forall a : R,
  0 < a <= 1 / 10 ->
  a - a ^ 3 / 6 <= tan a <= a / (1 - a * a / 2).
Proof.
  intros a [H0 H1]. pose proof PI_gt_3.
  pose proof (sin_lt_x a H0) as Hs.
  pose proof (sin_enclosure a ltac:(lra)) as [Hlo _].
  pose proof (cos_ge_parabola a) as Hc. pose proof (COS_bound a) as [_ Hc1].
  assert (Hd : 0 < 1 - a * a / 2) by nra.
  assert (Hcos : 0 < cos a) by lra.
  assert (Hsin : 0 < sin a) by (apply sin_gt_0; lra).
  unfold tan. split.
  - apply Rle_trans with (sin a).
    + assert (0 <= a ^ 5 / 120 - a ^ 7 / 5040).
      { replace (a ^ 5 / 120 - a ^ 7 / 5040)
          with (a ^ 5 * (/ 120 - a * a / 5040)) by field.
        apply Rmult_le_pos; [apply pow_le; lra | nra]. }
      lra.
    + rewrite <- (Rdiv_1_r (sin a)) at 1. unfold Rdiv.
      apply Rmult_le_compat_l; [lra |].
      rewrite Rinv_1. rewrite <- Rinv_1 at 1.
      apply Rinv_le_contravar; lra.
  - apply Rle_trans with (a / cos a).
    + unfold Rdiv. apply Rmult_le_compat_r; [| lra].
      apply Rlt_le, Rinv_0_lt_compat, Hcos.
    + unfold Rdiv. apply Rmult_le_compat_l; [lra |].
      apply Rinv_le_contravar; lra.
Qed.

End Enclosures.

(** ** End to end: ten miles east of Topeka *)

Section Topeka.

Local Open Scope R_scope.

Ltac F2R_eq f H :=
  let sf := eval vm_compute in (Prim2SF f) in
  lazymatch sf with
  | S754_finite ?s ?m ?e =>
      let p := eval vm_compute in (2 ^ Z.abs e)%Z in
      let neg := eval vm_compute in (e <? 0)%Z in
      let mag := lazymatch neg with
                 | true => constr:(IZR (Zpos m) / IZR p)
                 | false => constr:(IZR (Zpos m) * IZR p)
                 end in
      let v := lazymatch s with
               | true => constr:(- mag)
               | false => constr:(mag)
               end in
      assert (H : F2R f = v)
        by (unfold F2R;
            replace (Prim2SF f) with sf by (vm_compute; reflexivity);
            unfold SF2R, pow2; cbn -[IZR Z.pow];
            repeat match goal with
                   | |- context [IZR (?a ^ ?b)] =>
                       let z := eval vm_compute in (a ^ b)%Z in
                       change (a ^ b)%Z with z
                   end;
            unfold Rdiv; reflexivity)
  end.


Lemma sin_lat_rad : 0.6299622 <= sin (F2R lat_rad) <= 0.6299625.
Proof.
  F2R_eq lat_rad H. rewrite H.
  match goal with |- _ <= sin ?q <= _ => pose proof (sin_enclosure q ltac:(lra)) end.
  lra.
Qed.

Lemma cos_lat_rad : 0.77662567 <= cos (F2R lat_rad) <= 0.77662568.
Proof.
  F2R_eq lat_rad H. rewrite H.
  match goal with |- _ <= cos ?q <= _ => pose proof (cos_enclosure q ltac:(lra)) end.
  lra.
Qed.

Lemma sin_distance_rad : 0.00252588 <= sin (F2R distance_rad) <= 0.00252589.
Proof.
  F2R_eq distance_rad H. rewrite H.
  match goal with |- _ <= sin ?q <= _ => pose proof (sin_enclosure q ltac:(lra)) end.
  lra.
Qed.

Lemma cos_distance_rad : 0.99999680 <= cos (F2R distance_rad) <= 0.99999682.
Proof.
  F2R_eq distance_rad H. rewrite H.
  match goal with |- _ <= cos ?q <= _ => pose proof (cos_enclosure q ltac:(lra)) end.
  lra.
Qed.

Lemma bearing_rad_near_quarter_turn : Rabs (PI / 2 - F2R bearing_rad) <= / 10000000.
Proof.
  F2R_eq bearing_rad H. rewrite H. pose proof PI_bounds. apply Rabs_le. lra.
Qed.

Lemma cos_bearing_rad : Rabs (cos (F2R bearing_rad)) <= / 10000000.
Proof.
  rewrite <- (sin_shift (F2R bearing_rad)).
  apply Rle_trans with (1 := sin_abs_le _).
  apply bearing_rad_near_quarter_turn.
Qed.

Lemma sin_bearing_rad : 0.9999999 <= sin (F2R bearing_rad) <= 1.
Proof.
  split; [| apply SIN_bound].
  rewrite <- (cos_shift (F2R bearing_rad)).
  pose proof (cos_ge_parabola (PI / 2 - F2R bearing_rad)) as H.
  pose proof bearing_rad_near_quarter_turn as Ht. apply Rabs_le_inv in Ht.
  nra.
Qed.

(** ** Running the projection call by call *)

Lemma ensures_ret : forall (A : Type) (a : A) (Q : A -> Prop),
  Q a -> ensures (ret a) Q.
Proof. intros A a Q H _. now exists a. Qed.

Lemma ensures_call : forall (A : Type) (c : math_call) (f : float -> traced A)
    (Q : A -> Prop),
  (forall r : float,
      returned_value c = Some r -> finite r = true ->
      Rabs (F2R r - exact_value c) <= math_tolerance ->
      ensures (f r) Q) ->
  ensures (bind ([c], returned_value c) f) Q.
Proof.
  intros A c f Q H Hall. unfold bind in *.
  destruct (returned_value c) as [r |] eqn:E.
  - destruct (f r) as [calls b] eqn:Ef. cbn [fst snd app] in *.
    inversion Hall as [| ? ? Hc Hrest]; subst.
    destruct Hc as (r' & Hr' & Hfin & Hacc).
    rewrite E in Hr'. injection Hr' as <-.
    specialize (H r eq_refl Hfin Hacc). unfold ensures in H. rewrite Ef in H.
    now apply H.
  - cbn [fst] in Hall. inversion Hall as [| ? ? Hc _]; subst.
    destruct Hc as (r' & Hr' & _). rewrite E in Hr'. discriminate.
Qed.

(** ** Intervals through the binary64 operations *)

Lemma mul_between : forall (x y : float) (lo hi : R),
  finite x = true -> finite y = true ->
  lo <= F2R x * F2R y <= hi -> -1000 <= lo -> hi <= 1000 ->
  finite (x * y) = true
  /\ lo - / 100000000000 <= F2R (x * y) <= hi + / 100000000000.
Proof.
  intros x y lo hi Hx Hy [H1 H2] Hlo Hhi.
  assert (Hv : Rabs (F2R x * F2R y) <= 1000) by (apply Rabs_le; lra).
  destruct (mul_R x y Hx Hy ltac:(lra)) as [Hf He].
  split; [exact Hf |].
  assert (Rabs (F2R (x * y) - F2R x * F2R y) <= / 100000000000) by lra.
  apply Rabs_le_inv in H. lra.
Qed.

Lemma add_between : forall (x y : float) (lo hi : R),
  finite x = true -> finite y = true ->
  lo <= F2R x + F2R y <= hi -> -1000 <= lo -> hi <= 1000 ->
  finite (x + y) = true
  /\ lo - / 100000000000 <= F2R (x + y) <= hi + / 100000000000.
Proof.
  intros x y lo hi Hx Hy [H1 H2] Hlo Hhi.
  assert (Hv : Rabs (F2R x + F2R y) <= 1000) by (apply Rabs_le; lra).
  destruct (add_R x y Hx Hy ltac:(lra)) as [Hf He].
  split; [exact Hf |].
  assert (Rabs (F2R (x + y) - (F2R x + F2R y)) <= / 100000000000) by lra.
  apply Rabs_le_inv in H. lra.
Qed.

Lemma sub_between : forall (x y : float) (lo hi : R),
  finite x = true -> finite y = true ->
  lo <= F2R x - F2R y <= hi -> -1000 <= lo -> hi <= 1000 ->
  finite (x - y) = true
  /\ lo - / 100000000000 <= F2R (x - y) <= hi + / 100000000000.
Proof.
  intros x y lo hi Hx Hy [H1 H2] Hlo Hhi.
  assert (Hv : Rabs (F2R x - F2R y) <= 1000) by (apply Rabs_le; lra).
  destruct (sub_R x y Hx Hy ltac:(lra)) as [Hf He].
  split; [exact Hf |].
  assert (Rabs (F2R (x - y) - (F2R x - F2R y)) <= / 100000000000) by lra.
  apply Rabs_le_inv in H. lra.
Qed.

Ltac near H := apply Rabs_le_inv in H; unfold math_tolerance in H.

Theorem topeka_projection : forall math : pymath,
  accurate_math math topeka_lat topeka_lon 10 (PInt 90) ->
  exists lat' lon' : float,
    apply_offset math topeka_lat topeka_lon 10 (PInt 90) = Some (lat', lon')
    /\ finite lat' = true /\ finite lon' = true
    /\ F2R topeka_lon < F2R lon'
    /\ Rabs (F2R lat' - F2R topeka_lat) < / 1000.
Proof.
  intros math Hacc.
  enough (Hpost : ensures (apply_offset_traced math topeka_lat topeka_lon 10 (PInt 90))
                    (fun r => finite (fst r) = true /\ finite (snd r) = true
                              /\ F2R topeka_lon < F2R (snd r)
                              /\ Rabs (F2R (fst r) - F2R topeka_lat) < / 1000)).
  { destruct (Hpost Hacc) as ([lat' lon'] & E & H). exists lat', lon'.
    split; [exact E | exact H]. }
  clear Hacc. unfold apply_offset_traced, Math.sin, Math.cos, Math.asin, Math.atan2, degrees.
  cbv zeta.
  change (radians topeka_lat) with lat_rad.
  change (radians topeka_lon) with lon_rad.
  change (radians (num_float (PInt 90))) with bearing_rad.
  change (10 / 3959)%float with distance_rad.
  change (180 / math_pi)%float with rad_to_deg.
  apply ensures_call. cbn [returned_value exact_value]. intros sin_lat E1 F1 B1.
  apply ensures_call. cbn [returned_value exact_value]. intros cos_dist E2 F2 B2.
  apply ensures_call. cbn [returned_value exact_value]. intros cos_lat E3 F3 B3.
  apply ensures_call. cbn [returned_value exact_value]. intros sin_dist E4 F4 B4.
  apply ensures_call. cbn [returned_value exact_value]. intros cos_bearing E5 F5 B5.
  apply ensures_call. cbn [returned_value exact_value]. intros new_lat_rad E6 F6 B6.
  apply ensures_call. cbn [returned_value exact_value]. intros sin_bearing E7 F7 B7.
  apply ensures_call. cbn [returned_value exact_value]. intros sin_dist' E8 _ _.
  apply ensures_call. cbn [returned_value exact_value]. intros cos_lat' E9 _ _.
  apply ensures_call. cbn [returned_value exact_value]. intros cos_dist' E10 _ _.
  apply ensures_call. cbn [returned_value exact_value]. intros sin_lat' E11 _ _.
  apply ensures_call. cbn [returned_value exact_value]. intros sin_new_lat E12 F12 B12.
  apply ensures_call. cbn [returned_value exact_value]. intros turn E13 F13 B13.
  apply ensures_ret. cbn [fst snd].
  rewrite E4 in E8. injection E8 as <-.
  rewrite E3 in E9. injection E9 as <-.
  rewrite E2 in E10. injection E10 as <-.
  rewrite E1 in E11. injection E11 as <-.
  clear E1 E2 E3 E4 E5 E6 E7 E12 E13.
  pose proof sin_lat_rad as S1. pose proof cos_lat_rad as C1.
  pose proof sin_distance_rad as SD. pose proof cos_distance_rad as CD.
  pose proof cos_bearing_rad as CB. pose proof sin_bearing_rad as SB.
  apply Rabs_le_inv in CB.
  near B1. near B2. near B3. near B4. near B5. near B7.
  (* the argument of asin *)
  destruct (mul_between sin_lat cos_dist 0.629958 0.629963 F1 F2) as [Fp1 Bp1];
    [ pose proof (mult_interval (F2R sin_lat) (F2R cos_dist)
                    0.6299612 0.6299635 0.9999958 0.9999979); lra
    | lra | lra |].
  destruct (mul_between cos_lat sin_dist 0.00196 0.001963 F3 F4) as [Fp2 Bp2];
    [ pose proof (mult_interval (F2R cos_lat) (F2R sin_dist)
                    0.7766246 0.7766267 0.0025248 0.0025269); lra
    | lra | lra |].
  destruct (mul_between (cos_lat * sin_dist) cos_bearing
              (- (3 / 1000000000)) (3 / 1000000000) Fp2 F5) as [Fp3 Bp3];
    [ pose proof (mult_interval_abs (F2R (cos_lat * sin_dist)) (F2R cos_bearing)
                    0.00197 (12 / 10000000)); lra
    | lra | lra |].
  destruct (add_between (sin_lat * cos_dist) (cos_lat * sin_dist * cos_bearing)
              0.6299579 0.6299631 Fp1 Fp3) as [Farg Barg]; [lra | lra | lra |].
  (* asin *)
  assert (Hasin : 0.681498 <= asin (F2R (sin_lat * cos_dist
                                          + cos_lat * sin_dist * cos_bearing))
                  <= 0.681507).
  { pose proof PI_gt_3.
    apply asin_between; [lra | lra |].
    pose proof (sin_enclosure 0.681498 ltac:(lra)).
    pose proof (sin_enclosure 0.681507 ltac:(lra)).
    lra. }
  near B6.
  (* the latitude *)
  F2R_eq rad_to_deg Hr2d. F2R_eq topeka_lat Hlat. F2R_eq topeka_lon Hlon.
  F2R_eq lon_rad Hlonrad.
  assert (Frd : finite rad_to_deg = true) by reflexivity.
  assert (Flr : finite lon_rad = true) by reflexivity.
  destruct (mul_between new_lat_rad rad_to_deg 39.0469 39.0476 F6 Frd)
    as [Flat Blat]; [rewrite Hr2d; lra | lra | lra |].
  (* the longitude *)
  pose proof (SIN_bound (F2R new_lat_rad)) as SN. near B12.
  destruct (mul_between sin_lat sin_new_lat (- 0.64) 0.64 F1 F12) as [Fq Bq];
    [ pose proof (mult_interval_abs (F2R sin_lat) (F2R sin_new_lat)
                    0.63 1.00001); lra
    | lra | lra |].
  destruct (sub_between cos_dist (sin_lat * sin_new_lat) 0.35 1.65 F2 Fq)
    as [Fx Bx]; [lra | lra | lra |].
  destruct (mul_between sin_bearing sin_dist 0.00252 0.00253 F7 F4) as [Fy1 By1];
    [ pose proof (mult_interval (F2R sin_bearing) (F2R sin_dist)
                    0.9999989 1.000001 0.0025248 0.0025269); lra
    | lra | lra |].
  destruct (mul_between (sin_bearing * sin_dist) cos_lat 0.0019 0.002 Fy1 F3)
    as [Fy By];
    [ pose proof (mult_interval (F2R (sin_bearing * sin_dist)) (F2R cos_lat)
                    0.002519 0.002531 0.7766246 0.7766267); lra
    | lra | lra |].
  set (y := F2R (sin_bearing * sin_dist * cos_lat)) in *.
  set (x := F2R (cos_dist - sin_lat * sin_new_lat)) in *.
  assert (Hturn : / 1000 <= atan2 y x <= / 100).
  { unfold atan2. destruct (Rlt_dec 0 x) as [_ | Hn]; [| lra].
    pose proof PI_gt_3.
    apply atan_between; [lra | lra |].
    pose proof (tan_small (/ 1000) ltac:(lra)) as [_ Hlo].
    pose proof (tan_small (/ 100) ltac:(lra)) as [Hhi _].
    assert (Hq : 0.0011 <= y / x <= 0.006).
    { unfold Rdiv. assert (Hx : / 1.66 <= / x <= / 0.34).
      { split; apply Rinv_le_contravar; lra. }
      pose proof (mult_interval y (/ x) 0.00189 0.00201 (/ 1.66) (/ 0.34)).
      lra. }
    lra. }
  near B13.
  destruct (add_between lon_rad turn
              (F2R lon_rad + 0.000999) (F2R lon_rad + 0.010001) Flr F13)
    as [Fl Bl]; [lra | rewrite Hlonrad; lra | rewrite Hlonrad; lra |].
  rewrite Hlonrad in Bl.
  destruct (mul_between (lon_rad + turn) rad_to_deg (- 95.62) (- 95.1) Fl Frd)
    as [Flon Blon]; [rewrite Hr2d; lra | lra | lra |].
  repeat split; try assumption.
  - rewrite Hlon. lra.
  - rewrite Hlat. apply Rabs_def1; lra.
Qed.

Lemma topeka_calls :
  math_calls topeka_math topeka_lat topeka_lon 10 (PInt 90)
  = [CallSin lat_rad (Some 0x1.428a6cf3f3638p-1);
     CallCos distance_rad (Some 0x1.ffff94f599310p-1);
     CallCos lat_rad (Some 0x1.8da1e146236e2p-1);
     CallSin distance_rad (Some 0x1.4b12ba0c32b7ap-9);
     CallCos bearing_rad (Some 0x1.1a62633145c07p-54);
     CallAsin 0x1.428a298578267p-1 (Some 0x1.5cedd98035c8bp-1);
     CallSin bearing_rad (Some 1);
     CallSin distance_rad (Some 0x1.4b12ba0c32b7ap-9);
     CallCos lat_rad (Some 0x1.8da1e146236e2p-1);
     CallCos distance_rad (Some 0x1.ffff94f599310p-1);
     CallSin lat_rad (Some 0x1.428a6cf3f3638p-1);
     CallSin 0x1.5cedd98035c8bp-1 (Some 0x1.428a298578267p-1);
     CallAtan2 0x1.011eb2510b642p-9 0x1.34cf7cf8a4ff5p-1
       (Some 0x1.aa4bfb3a86838p-9)]%float.
Proof. vm_compute. reflexivity. Qed.

Ltac good r :=
  exists r; split; [reflexivity | split; [reflexivity |]];
  cbn [exact_value]; unfold math_tolerance; apply Rabs_le.

Lemma good_sin_lat : good_call (CallSin lat_rad (Some 0x1.428a6cf3f3638p-1%float)).
Proof.
  good 0x1.428a6cf3f3638p-1%float.
  F2R_eq 0x1.428a6cf3f3638p-1%float H. rewrite H.
  pose proof sin_lat_rad. lra.
Qed.

Lemma good_cos_lat : good_call (CallCos lat_rad (Some 0x1.8da1e146236e2p-1%float)).
Proof.
  good 0x1.8da1e146236e2p-1%float.
  F2R_eq 0x1.8da1e146236e2p-1%float H. rewrite H.
  pose proof cos_lat_rad. lra.
Qed.

Lemma good_sin_distance :
  good_call (CallSin distance_rad (Some 0x1.4b12ba0c32b7ap-9%float)).
Proof.
  good 0x1.4b12ba0c32b7ap-9%float.
  F2R_eq 0x1.4b12ba0c32b7ap-9%float H. rewrite H.
  pose proof sin_distance_rad. lra.
Qed.

Lemma good_cos_distance :
  good_call (CallCos distance_rad (Some 0x1.ffff94f599310p-1%float)).
Proof.
  good 0x1.ffff94f599310p-1%float.
  F2R_eq 0x1.ffff94f599310p-1%float H. rewrite H.
  pose proof cos_distance_rad. lra.
Qed.

Lemma good_cos_bearing :
  good_call (CallCos bearing_rad (Some 0x1.1a62633145c07p-54%float)).
Proof.
  good 0x1.1a62633145c07p-54%float.
  F2R_eq 0x1.1a62633145c07p-54%float H. rewrite H.
  pose proof cos_bearing_rad as Hc. apply Rabs_le_inv in Hc. lra.
Qed.

Lemma good_sin_bearing : good_call (CallSin bearing_rad (Some 1%float)).
Proof.
  good 1%float.
  F2R_eq 1%float H. rewrite H.
  pose proof sin_bearing_rad. lra.
Qed.

Lemma good_asin :
  good_call (CallAsin 0x1.428a298578267p-1 (Some 0x1.5cedd98035c8bp-1))%float.
Proof.
  good 0x1.5cedd98035c8bp-1%float.
  F2R_eq 0x1.5cedd98035c8bp-1%float H. rewrite H.
  F2R_eq 0x1.428a298578267p-1%float Ha. rewrite Ha.
  pose proof PI_gt_3.
  match goal with
  | |- _ <= _ - asin ?a <= _ =>
      pose proof (asin_between 0.6815012 0.6815031 a
                    ltac:(lra) ltac:(lra)) as Hb
  end.
  pose proof (sin_enclosure 0.6815012 ltac:(lra)).
  pose proof (sin_enclosure 0.6815031 ltac:(lra)).
  specialize (Hb ltac:(lra)). lra.
Qed.

Lemma good_sin_new_lat :
  good_call (CallSin 0x1.5cedd98035c8bp-1 (Some 0x1.428a298578267p-1))%float.
Proof.
  good 0x1.428a298578267p-1%float.
  F2R_eq 0x1.5cedd98035c8bp-1%float H. rewrite H.
  F2R_eq 0x1.428a298578267p-1%float Ha. rewrite Ha.
  match goal with
  | |- _ <= _ - sin ?q <= _ => pose proof (sin_enclosure q ltac:(lra))
  end.
  lra.
Qed.

Lemma good_atan2 :
  good_call (CallAtan2 0x1.011eb2510b642p-9 0x1.34cf7cf8a4ff5p-1
               (Some 0x1.aa4bfb3a86838p-9))%float.
Proof.
  good 0x1.aa4bfb3a86838p-9%float.
  F2R_eq 0x1.aa4bfb3a86838p-9%float H. rewrite H.
  F2R_eq 0x1.011eb2510b642p-9%float Hy. rewrite Hy.
  F2R_eq 0x1.34cf7cf8a4ff5p-1%float Hx. rewrite Hx.
  unfold atan2.
  match goal with
  | |- context [Rlt_dec 0 ?x] => destruct (Rlt_dec 0 x) as [_ | Hn]; [| lra]
  end.
  pose proof PI_gt_3.
  match goal with
  | |- _ <= _ - atan ?t <= _ =>
      pose proof (atan_between 0.00325139 0.00325338 t
                    ltac:(lra) ltac:(lra)) as Hb
  end.
  pose proof (tan_small 0.00325139 ltac:(lra)) as [_ Hlo].
  pose proof (tan_small 0.00325338 ltac:(lra)) as [Hhi _].
  specialize (Hb ltac:(lra)). lra.
Qed.

Lemma topeka_math_accurate :
  accurate_math topeka_math topeka_lat topeka_lon 10 (PInt 90).
Proof.
  unfold accurate_math. rewrite topeka_calls.
  repeat (constructor;
          [ first [ exact good_sin_lat | exact good_cos_lat
                  | exact good_sin_distance | exact good_cos_distance
                  | exact good_cos_bearing | exact good_sin_bearing
                  | exact good_asin | exact good_sin_new_lat
                  | exact good_atan2 ] |]).
  constructor.
Qed.

Lemma topeka_offset_parsed :
  is_too_vague (preflag topeka_row) = false
  /\ construct_address (preflag topeka_row) = Some "10 mi E of Topeka, KS, USA"
  /\ extract_base_location "10 mi E of Topeka, KS, USA" = "Topeka, KS, USA"
  /\ strip (cell_text (prec_location (preflag topeka_row))) = "10 mi E of Topeka"
  /\ parse_directional_offset "10 mi E of Topeka" = (Some 10%float, Some (PInt 90))
  /\ (float_repr 10 ++ "mi at " ++ num_str (PInt 90) ++ degree_sign
      = "10.0mi at 90" ++ degree_sign)%string.
Proof. vm_compute. repeat split. Qed.

(** The row the loop body returns for the example, whatever location type
    and formatted address come with Topeka's coordinates. *)
Lemma process_row_topeka :
  forall (math : pymath) (loc_type formatted : string) (counts : counters)
         (calls : list string),
    process_row math (topeka loc_type formatted) (preflag topeka_row)
      (counts, calls)
    = match apply_offset math topeka_lat topeka_lon 10 (PInt 90) with
      | Some (lat_shifted, lon_shifted) =>
          let row1 := set_geocoded (preflag topeka_row) topeka_lat topeka_lon
                        "10 mi E of Topeka, KS, USA" formatted loc_type in
          let row2 := set_shifted row1 lat_shifted lon_shifted
                        ("10.0mi at 90" ++ degree_sign) in
          let merged := merge_flags (flag_status row2) (flag_reason row2)
                          (post_geocode_flags (preflag topeka_row) loc_type
                             formatted) in
          Some (set_flags row2 (fst merged) (snd merged),
                (count_geocoded counts, (calls ++ ["Topeka, KS, USA"])%list))
      | None => None
      end.
Proof.
  intros math lt fa counts calls.
  destruct topeka_offset_parsed as (Hv & Ha & Hb & Hs & Hp & Hr).
  rewrite (process_row_offset math (topeka lt fa) _ counts calls _
             "10 mi E of Topeka" topeka_lat topeka_lon lt fa 10%float (PInt 90)
             Hv Ha);
    [| rewrite Hb; reflexivity | reflexivity | reflexivity | exact Hs
     | reflexivity | exact Hp | reflexivity | reflexivity].
  rewrite Hb, Hr. reflexivity.
Qed.

Lemma main_one_row :
  forall (math : pymath) (resolve : provider) (row : record),
    should_geocode row = true ->
    main math "key" resolve [row]
    = match process_row math resolve (preflag row) (Counters 0 0 0, []) with
      | Some (row', (counts, calls)) => Saved [row'] counts calls
      | None => NoResult
      end.
Proof.
  intros math resolve row H. unfold main. cbn [map filter].
  rewrite should_geocode_preflag, H. cbn [List.length Nat.eqb].
  replace (String.eqb "key" "YOUR_GOOGLE_API_KEY_HERE" || negb (nonempty "key"))%bool
    with false by (vm_compute; reflexivity).
  cbn [geocode_loop]. rewrite should_geocode_preflag, H.
  destruct (process_row _ _ _ _) as [[row' [counts calls]] |]; reflexivity.
Qed.

(** C4, as amended.  A table with the one row "10 mi E of Topeka" (state
    KS) and a provider that returns Topeka's coordinates, on a platform
    whose [math] is accurate to a millionth in the calls the projection
    makes: the run writes one row, geocoded, whose [offset_applied] is
    "10.0mi at 90" followed by the degree sign (the table gives the bearing
    of E as the integer 90), whose shifted longitude is a number greater
    than the base longitude, and whose shifted latitude is a number within
    a thousandth of a degree of the base latitude.  (The ten miles are
    0.14 degrees of a great circle.)  All numbers are the binary64 values
    the run writes. *)
Theorem ten_miles_east_of_topeka :
  forall (math : pymath) (loc_type formatted : string),
    accurate_math math topeka_lat topeka_lon 10 (PInt 90) ->
    exists (row' : record) (lat_shifted lon_shifted : float),
      main math "key" (topeka loc_type formatted) [topeka_row]
        = Saved [row'] (Counters 1 0 0) ["Topeka, KS, USA"%string]
      /\ latitude row' = Some topeka_lat /\ longitude row' = Some topeka_lon
      /\ offset_applied row' = ("10.0mi at 90" ++ degree_sign)%string
      /\ latitude_shifted row' = Some lat_shifted
      /\ longitude_shifted row' = Some lon_shifted
      /\ finite lat_shifted = true /\ finite lon_shifted = true
      /\ F2R topeka_lon < F2R lon_shifted
      /\ Rabs (F2R lat_shifted - F2R topeka_lat) < / 1000.
Proof.
  intros math lt fa Hacc.
  destruct (topeka_projection math Hacc)
    as (lat' & lon' & Hoff & Hflat & Hflon & Hlon & Hlat).
  rewrite main_one_row by reflexivity.
  rewrite process_row_topeka, Hoff. cbv zeta.
  eexists. exists lat', lon'.
  repeat split; try reflexivity; assumption.
Qed.

Lemma ten_miles_east_of_topeka_witness :
  accurate_math topeka_math topeka_lat topeka_lon 10 (PInt 90)
  /\ exists (row' : record) (lat_shifted lon_shifted : float),
       main topeka_math "key" (topeka "APPROXIMATE" "Topeka, KS, USA")
         [topeka_row]
         = Saved [row'] (Counters 1 0 0) ["Topeka, KS, USA"%string]
       /\ latitude row' = Some topeka_lat /\ longitude row' = Some topeka_lon
       /\ offset_applied row' = ("10.0mi at 90" ++ degree_sign)%string
       /\ latitude_shifted row' = Some lat_shifted
       /\ longitude_shifted row' = Some lon_shifted
       /\ finite lat_shifted = true /\ finite lon_shifted = true
       /\ F2R topeka_lon < F2R lon_shifted
       /\ Rabs (F2R lat_shifted - F2R topeka_lat) < / 1000.
Proof.
  split; [exact topeka_math_accurate |].
  apply (ten_miles_east_of_topeka topeka_math "APPROXIMATE" "Topeka, KS, USA").
  exact topeka_math_accurate.
Defined.

(** C4 as stated fails on the descriptor: the f-string writes the integer
    bearing 90 without a fractional part.  With the answers [math] gives on
    Linux the row is written as follows. *)
Lemma topeka_descriptor_counterexample :
  main topeka_math "key" (topeka "APPROXIMATE" "Topeka, KS, USA") [topeka_row]
  = Saved [{| prec_location := Str "10 mi E of Topeka";
              city := NaN;
              county := NaN;
              province_state := Str "KS";
              country := NaN;
              latitude := Some topeka_lat;
              longitude := Some topeka_lon;
              geocoded_address := "10 mi E of Topeka, KS, USA";
              google_formatted_address := "Topeka, KS, USA";
              location_type := "APPROXIMATE";
              flag_status := "OK";
              flag_reason := "";
              latitude_shifted := Some topeka_lat_shifted;
              longitude_shifted := Some topeka_lon_shifted;
              offset_applied := "10.0mi at 90" ++ degree_sign |}]
          (Counters 1 0 0) ["Topeka, KS, USA"%string]
  /\ String.eqb ("10.0mi at 90" ++ degree_sign) ("10.0mi at 90.0" ++ degree_sign)
     = false
  /\ num_str (PInt 90) = "90"%string /\ float_repr 10 = "10.0"%string.
Proof. vm_compute. auto. Qed.

End Topeka.

(** ** Whole runs *)

(** The loop hands back the rows that already have coordinates as they
    are, and as many rows as it was given. *)
Lemma geocode_loop_keeps :
  forall (math : pymath) (resolve : provider) (rows rows' : list record)
         (st st' : progress),
    geocode_loop math resolve rows st = Some (rows', st') ->
    List.length rows' = List.length rows
    /\ forall (i : nat) (r : record),
         nth_error rows i = Some r -> should_geocode r = false ->
         nth_error rows' i = Some r.
Proof.
  intros math resolve rows. induction rows as [| row rows IH]; intros rows' st st' H.
  - injection H as <- <-. split; [reflexivity | intros [| i] r; discriminate].
  - cbn [geocode_loop] in H. destruct (should_geocode row) eqn:Hrow.
    + destruct (process_row math resolve row st) as [[row1 st1] |]; [| discriminate].
      destruct (geocode_loop math resolve rows st1) as [[rest' st''] |] eqn:Hrest;
        [| discriminate].
      injection H as <- <-. destruct (IH _ _ _ Hrest) as [Hlen Hnth].
      split; [cbn; now rewrite Hlen |].
      intros [| i] r Hi Hr; cbn in *.
      * injection Hi as <-. congruence.
      * now apply Hnth.
    + destruct (geocode_loop math resolve rows st) as [[rest' st''] |] eqn:Hrest;
        [| discriminate].
      injection H as <- <-. destruct (IH _ _ _ Hrest) as [Hlen Hnth].
      split; [cbn; now rewrite Hlen |].
      intros [| i] r Hi Hr; cbn in *.
      * exact Hi.
      * now apply Hnth.
Qed.

(** X2: rows that have coordinates.  A run that writes its table keeps
    the number of rows, and a row that came with both coordinates is written
    with the flags of the pre-geocode stage and is otherwise as it came. *)
Lemma main_keeps_geocoded_rows :
  forall (math : pymath) (api_key : string) (resolve : provider)
         (df df' : list record)
         (counts : counters) (calls : list string),
    main math api_key resolve df = Saved df' counts calls ->
    List.length df' = List.length df
    /\ forall (i : nat) (r : record),
         nth_error df i = Some r -> should_geocode r = false ->
         nth_error df' i = Some (preflag r).
Proof.
  intros math api_key resolve df df' counts calls. unfold main.
  destruct (_ =? 0)%nat; [discriminate |].
  destruct (_ || _); [discriminate |].
  destruct (geocode_loop _ _ _ _) as [[rows' [counts' calls']] |] eqn:Hloop;
    [| discriminate].
  intros H. injection H as <- <- <-.
  destruct (geocode_loop_keeps _ _ _ _ _ _ Hloop) as [Hlen Hnth].
  split; [now rewrite Hlen, length_map |].
  intros i r Hi Hr. apply Hnth.
  - now rewrite nth_error_map, Hi.
  - now rewrite should_geocode_preflag.
Qed.

(** ** The pre-geocode rules as a table *)

Lemma append_if_fired : forall (b : bool) (l : list string) (f : string),
  append_if b l f = (l ++ fired b f)%list.
Proof. intros [] l f; cbn; [reflexivity | now rewrite app_nil_r]. Qed.

Lemma guarded_append_fired :
  forall (c m : bool) (l : list string) (f : string),
    (if c then append_if m l f else l) = (l ++ fired (c && m) f)%list.
Proof. intros [] [] l f; cbn; now rewrite ?app_nil_r. Qed.

Lemma either_append_fired :
  forall (c d : bool) (l : list string) (a b : string),
    (if c then if d then (l ++ [a])%list else (l ++ [b])%list else l)
    = ((l ++ fired (c && d) a) ++ fired (c && negb d) b)%list.
Proof. intros [] [] l a b; cbn; now rewrite ?app_nil_r. Qed.

Lemma first_append_fired :
  forall (h a b : bool) (l : list string) (f g : string),
    (if h then if a then (l ++ [f])%list
               else if b then (l ++ [g])%list else l
     else l)
    = ((l ++ fired (h && a) f) ++ fired (h && negb a && b) g)%list.
Proof. intros [] [] [] l f g; cbn; now rewrite ?app_nil_r. Qed.

(** The chain of tests of the script is a table of rules: the flags are the
    messages of the rules that fire, in the order of the table. *)
Lemma collect_flags_rules : forall row : record,
  collect_flags row = fired_flags (rule_conditions row) rule_texts.
Proof.
  intros row. unfold collect_flags. cbv zeta.
  rewrite first_append_fired, guarded_append_fired, either_append_fired.
  rewrite !append_if_fired.
  unfold fired_flags, rule_conditions, rule_texts. cbv zeta.
  cbn [combine flat_map fst snd]. rewrite <- !app_assoc. cbn [app].
  rewrite app_nil_r. reflexivity.
Qed.

(** ** When the matcher cannot succeed *)

Section RunFails.

Variable ic : bool.
Variable A : Type.
(** A property of the text ahead that holds of every suffix once it holds. *)
Variable Q : string -> Prop.
Hypothesis Q_tail : forall (c : ascii) (s : string), Q (String c s) -> Q s.

Lemma eat_none :
  forall (p : ascii -> bool) (cu : cursor) (caps : captures)
         (k : cursor -> captures -> option A),
    Q (ahead cu) ->
    (forall cu' caps', Q (ahead cu') -> k cu' caps' = None) ->
    eat p cu caps k = None.
Proof.
  intros p cu caps k Hq Hk. unfold eat.
  destruct (ahead cu) as [| c s] eqn:E; [reflexivity |].
  destruct (p c); [| reflexivity]. apply Hk. cbn. now apply Q_tail with c.
Qed.

(** The loop of a starred pattern, as [run] unfolds it. *)
Lemma star_loop_none :
  forall (r : regex) (k : cursor -> captures -> option A),
    (forall cu caps (k' : cursor -> captures -> option A),
        Q (ahead cu) ->
        (forall cu' caps', Q (ahead cu') -> k' cu' caps' = None) ->
        run ic r cu caps k' = None) ->
    (forall cu' caps', Q (ahead cu') -> k cu' caps' = None) ->
    forall (fuel : nat) (cu : cursor) (caps : captures),
      Q (ahead cu) ->
      (fix loop (fuel : nat) (cu : cursor) (caps : captures) : option A :=
         match fuel with
         | O => k cu caps
         | S fuel' =>
             match run ic r cu caps
                     (fun cu' caps' =>
                        if (pos cu <? pos cu')%nat then loop fuel' cu' caps'
                        else None) with
             | Some x => Some x
             | None => k cu caps
             end
         end) fuel cu caps = None.
Proof.
  intros r k IH Hk fuel. induction fuel as [| fuel IHf]; intros cu caps Hq.
  - now apply Hk.
  - rewrite IH; [now apply Hk | assumption |].
    intros cu' caps' Hq'. destruct (pos cu <? pos cu')%nat; [| reflexivity].
    now apply IHf.
Qed.

(** If the continuation fails wherever [Q] holds, so does the match. *)
Lemma run_none :
  forall (r : regex) (cu : cursor) (caps : captures)
         (k : cursor -> captures -> option A),
    Q (ahead cu) ->
    (forall cu' caps', Q (ahead cu') -> k cu' caps' = None) ->
    run ic r cu caps k = None.
Proof.
  induction r as [| c | cs | | | | | r1 IH1 r2 IH2 | r1 IH1 r2 IH2 | r IH | n r IH];
    intros cu caps k Hq Hk.
  - now apply Hk.
  - now apply eat_none.
  - now apply eat_none.
  - now apply eat_none.
  - now apply eat_none.
  - cbn [run]. destruct (at_boundary cu); [now apply Hk | reflexivity].
  - cbn [run]. destruct (at_end cu); [now apply Hk | reflexivity].
  - cbn [run]. apply IH1; [assumption |]. intros cu' caps' Hq'. now apply IH2.
  - cbn [run]. rewrite IH1 by assumption. now apply IH2.
  - exact (star_loop_none r k IH Hk (S (String.length (ahead cu))) cu caps Hq).
  - cbn [run]. apply IH; [assumption |]. intros cu' caps' Hq'. now apply Hk.
Qed.

(** A pattern that fails at every position of the text is not found. *)
Lemma search_at_none :
  forall (r : regex) (s : string) (prev : option ascii) (i : nat),
    Q s ->
    (forall cu caps (k : cursor -> captures -> option rmatch),
        Q (ahead cu) -> run ic r cu caps k = None) ->
    search_at ic r prev s i = None.
Proof.
  intros r s. induction s as [| c s IH]; intros prev i Hq Hr; cbn [search_at].
  - now rewrite Hr.
  - rewrite Hr by assumption. apply IH; [now apply Q_tail with c | assumption].
Qed.

End RunFails.

(** ** Texts in which no offset can be found *)

Lemma no_digit_tail : forall (c : ascii) (s : string),
  no_digit (String c s) -> no_digit s.
Proof.
  unfold no_digit. intros c s H. cbn in H. now apply orb_false_elim in H.
Qed.

Lemma no_compass_capital_tail : forall (c : ascii) (s : string),
  no_compass_capital (String c s) -> no_compass_capital s.
Proof.
  unfold no_compass_capital. intros c s H.
  change (existsb_string ?p (String c s)) with (p c || existsb_string p s) in H.
  now apply orb_false_elim in H.
Qed.

(** A pattern that starts with the number fails where no digit is ahead. *)
Lemma number_first_none :
  forall (ic : bool) (A : Type) (rest : regex) (cu : cursor) (caps : captures)
         (k : cursor -> captures -> option A),
    no_digit (ahead cu) ->
    run ic (Seq re_number rest) cu caps k = None
    /\ run ic (Seq (Group 1 re_number) rest) cu caps k = None.
Proof.
  intros ic A rest cu caps k H. unfold no_digit in H.
  unfold re_number, plus. cbn [seqs run]. unfold eat.
  destruct (ahead cu) as [| c s]; [split; reflexivity |].
  cbn in H. apply orb_false_elim in H as [Hc _]. rewrite Hc. split; reflexivity.
Qed.

Lemma number_first_not_found :
  forall (ic : bool) (rest : regex) (text : string),
    no_digit text ->
    search ic (Seq re_number rest) text = None
    /\ search ic (Seq (Group 1 re_number) rest) text = None.
Proof.
  intros ic rest text H. unfold search. split.
  - apply (search_at_none ic no_digit no_digit_tail); [assumption |].
    intros cu caps k Hq. now apply number_first_none.
  - apply (search_at_none ic no_digit no_digit_tail); [assumption |].
    intros cu caps k Hq. now apply number_first_none.
Qed.

(** X3: a text without a digit holds no offset: nothing is parsed from it
    and nothing is stripped from it. *)
Theorem no_digit_no_offset : forall text : string,
  no_digit text ->
  parse_directional_offset text = (None, None)
  /\ extract_base_location text = text.
Proof.
  intros text H. split.
  - unfold parse_directional_offset. destruct (negb (nonempty text)); [reflexivity |].
    unfold offset_patterns. cbn [parse_patterns seqs].
    destruct (number_first_not_found true
                (seqs [re_miles; plus Space; Group 2 re_compass; plus Space; lit "of"])
                text H) as [_ H1].
    destruct (number_first_not_found true
                (seqs [re_miles; plus Space; Group 2 re_direction_word; plus Space;
                       lit "of"])
                text H) as [_ H2].
    cbn [seqs] in H1, H2. now rewrite H1, H2.
  - unfold extract_base_location. destruct (negb (nonempty text)); [reflexivity |].
    cbn [first_match seqs].
    destruct (number_first_not_found true
                (seqs [re_miles; plus Space; re_compass; plus Space; lit "of";
                       plus Space])
                text H) as [H1 _].
    destruct (number_first_not_found true
                (seqs [re_miles; plus Space; Group 1 re_direction_word; plus Space;
                       lit "of"; plus Space])
                text H) as [H2 _].
    cbn [seqs] in H1, H2. now rewrite H1, H2.
Qed.

Lemma no_digit_no_offset_witness :
  no_digit "Gage Park, Topeka"
  /\ parse_directional_offset "Gage Park, Topeka" = (None, None)
  /\ extract_base_location "Gage Park, Topeka" = "Gage Park, Topeka".
Proof.
  split; [reflexivity |].
  apply (no_digit_no_offset "Gage Park, Topeka"). reflexivity.
Defined.

(** ** The directional flag and lowered text *)

Lemma lower_char_no_compass_capital : forall c : ascii,
  existsb_string (same_char false (lower_char c)) "NSEW" = false.
Proof.
  intros [[] [] [] [] [] [] [] []]; vm_compute; reflexivity.
Qed.

Lemma existsb_string_cons :
  forall (p : ascii -> bool) (c : ascii) (s : string),
    existsb_string p (String c s) = p c || existsb_string p s.
Proof. reflexivity. Qed.

Lemma lower_no_compass_capital : forall s : string,
  no_compass_capital (lower s).
Proof.
  unfold no_compass_capital. induction s as [| c s IH]; [reflexivity |].
  change (lower (String c s)) with (String (lower_char c) (lower s)).
  rewrite existsb_string_cons, lower_char_no_compass_capital. exact IH.
Qed.

(** Matched with case, the class [NSEW] fails where no such capital is
    ahead. *)
Lemma compass_first_none :
  forall (A : Type) (rest : regex) (cu : cursor) (caps : captures)
         (k : cursor -> captures -> option A),
    no_compass_capital (ahead cu) ->
    run false (Seq re_compass rest) cu caps k = None.
Proof.
  intros A rest cu caps k H. unfold no_compass_capital in H.
  unfold re_compass, upto3. cbn [run]. unfold eat.
  destruct (ahead cu) as [| c s]; [reflexivity |].
  rewrite existsb_string_cons in H. apply orb_false_elim in H as [Hc _].
  now rewrite Hc.
Qed.

Lemma compass_patterns_not_found :
  forall (rest : regex) (text : string),
    no_compass_capital text ->
    found false
      (Seq re_number (Seq re_miles (Seq (plus Space) (Seq re_compass rest))))
      text = false.
Proof.
  intros rest text H. unfold found, search.
  rewrite (search_at_none false no_compass_capital no_compass_capital_tail);
    [reflexivity | assumption |].
  intros cu caps k Hq. cbn [run].
  apply (run_none false _ no_compass_capital no_compass_capital_tail);
    [assumption |].
  intros cu1 caps1 Hq1.
  apply (run_none false _ no_compass_capital no_compass_capital_tail);
    [assumption |].
  intros cu2 caps2 Hq2.
  apply (run_none false _ no_compass_capital no_compass_capital_tail);
    [assumption |].
  intros cu3 caps3 Hq3.
  change (run false (Seq re_compass rest) cu3 caps3 k = None).
  now apply compass_first_none.
Qed.

(** On lowered text only the third directional pattern can match. *)
Lemma directional_patterns_lower : forall s : string,
  any_found directional_patterns (lower s)
  = found false re_flag_direction_word (lower s).
Proof.
  intros s. unfold any_found, directional_patterns. cbn [existsb seqs].
  rewrite !compass_patterns_not_found by apply lower_no_compass_capital.
  cbn [orb]. now rewrite orb_false_r.
Qed.

Lemma existsb_fired_flags :
  forall (p : string -> bool) (conditions : list bool) (texts : list string),
    existsb p (fired_flags conditions texts)
    = existsb (fun r => fst r && snd r) (combine conditions (map p texts)).
Proof.
  intros p conditions. unfold fired_flags.
  induction conditions as [| c conditions IH]; intros [| t texts];
    try reflexivity.
  cbn [combine map flat_map existsb fst snd]. rewrite existsb_app, IH.
  destruct c; cbn; [now rewrite orb_false_r | reflexivity].
Qed.

(** X4: the directional-offset flag.  It is raised exactly when the row has
    a precise location and the lowered text matches the pattern with the
    direction spelled out or in two letters (north ... sw): the two patterns
    with the class of capitals N, S, E, W are matched against lowered text
    and never fire. *)
Theorem directional_flag_exactly :
  forall row : record,
    existsb (String.eqb "Directional offset - API may ignore distance/direction")
      (collect_flags row)
    = has_value (prec_location row)
      && found false re_flag_direction_word (location_text row).
Proof.
  intros row. rewrite collect_flags_rules, existsb_fired_flags.
  replace (map (String.eqb "Directional offset - API may ignore distance/direction")
             rule_texts)
    with [false; false; true; false; false; false; false; false; false; false; false]
    by (vm_compute; reflexivity).
  unfold rule_conditions. cbv zeta. cbn [combine existsb fst snd].
  rewrite !andb_false_r, andb_true_r. cbn [orb]. rewrite orb_false_r.
  unfold location_text at 1. now rewrite directional_patterns_lower.
Qed.

Lemma status_is_warning : forall flags : list string,
  String.eqb (fst (determine_status flags)) "WARNING"
  = existsb (any_keyword ["county/state only"; "missing state"]) flags.
Proof.
  intros flags. unfold determine_status.
  destruct flags as [| f flags]; [reflexivity |].
  destruct (existsb _ (f :: flags)); [reflexivity |].
  destruct (2 <=? _)%nat.
  - destruct (forallb _ _); reflexivity.
  - destruct flags; [| reflexivity].
    destruct (_ || _ || _); reflexivity.
Qed.

(** X5: WARNING.  The pre-geocode stage gives WARNING exactly to the rows
    that are too vague to geocode (neither city nor precise location) and to
    the rows without a state; no other rule leads to it. *)
Theorem warning_exactly :
  forall row : record,
    String.eqb (fst (flag_potential_issues row)) "WARNING"
    = is_too_vague row || negb (has_value (province_state row)).
Proof.
  intros row. unfold flag_potential_issues.
  rewrite status_is_warning, collect_flags_rules, existsb_fired_flags.
  replace (map (any_keyword ["county/state only"; "missing state"]) rule_texts)
    with [true; true; false; false; false; false; false; false; false; false; false]
    by (vm_compute; reflexivity).
  unfold rule_conditions, is_too_vague. cbv zeta. cbn [combine existsb fst snd].
  rewrite !andb_false_r, !andb_true_r. cbn [orb]. rewrite orb_false_r.
  now rewrite negb_orb.
Qed.

(** ** What the parser and the request return *)

Lemma direction_bearings_valid : forall (name : string) (bearing : pynum),
  dict_get direction_bearings name = Some bearing ->
  valid_bearing bearing = true.
Proof.
  intros name bearing. unfold direction_bearings. cbn [dict_get].
  repeat (destruct (String.eqb _ name);
          [intros H; injection H as <-; vm_compute; reflexivity |]).
  discriminate.
Qed.

Lemma parse_patterns_result :
  forall (patterns : list regex) (text : string),
    parse_patterns patterns text = (None, None)
    \/ exists (distance : float) (bearing : pynum),
         parse_patterns patterns text = (Some distance, Some bearing)
         /\ valid_bearing bearing = true.
Proof.
  intros patterns text. induction patterns as [| pattern rest IH]; cbn [parse_patterns].
  - left; reflexivity.
  - destruct (search true pattern text) as [m |]; [| exact IH].
    destruct (dict_get direction_bearings _) as [bearing |] eqn:E; [| exact IH].
    right. eexists. exists bearing. split; [reflexivity |].
    eapply direction_bearings_valid. exact E.
Qed.

(** X6: the parser returns a distance and a bearing together or neither,
    and a bearing it returns is one of the sixteen of the table: from 0 up
    to, not including, 360. *)
Theorem parse_directional_offset_result :
  forall text : string,
    parse_directional_offset text = (None, None)
    \/ exists (distance : float) (bearing : pynum),
         parse_directional_offset text = (Some distance, Some bearing)
         /\ valid_bearing bearing = true.
Proof.
  intros text. unfold parse_directional_offset.
  destruct (negb (nonempty text)); [left; reflexivity |].
  apply parse_patterns_result.
Qed.








(** Bodies that are JSON but not what the code expects.  A body that is a
    list has no method [get]; a first result whose geometry is null, or a
    latitude that is null, cannot be subscripted or converted; an integer
    latitude of 400 digits does not fit a float.  None of these exceptions
    is caught.  A latitude that is a str is converted if it reads as a
    number, and is a failure (ValueError, caught) if it does not. *)
Lemma geocode_address_google_examples :
  let body (geometry : json) :=
    Body (JDict [("status", JStr "OK");
                 ("results", JList [JDict [("geometry", geometry)]])]) in
  let located (lat : json) :=
    body (JDict [("location", JDict [("lat", lat); ("lng", JFloat (-95.5))])]) in
  geocode_address_google (Body (JList [])) = Raise AttributeError
  /\ geocode_address_google (body JNull) = Raise TypeError
  /\ geocode_address_google (located JNull) = Raise TypeError
  /\ geocode_address_google (located (JInt (10 ^ 400))) = Raise OverflowError
  /\ geocode_address_google (located (JStr "north"))
     = Return (None, None, JNull, JNull)
  /\ geocode_address_google (located (JStr " 39.5 "))
     = Return (Some 39.5%float, Some (-95.5)%float, JStr "UNKNOWN", JStr "")
  /\ geocode_address_google (located (JInt 39))
     = Return (Some 39%float, Some (-95.5)%float, JStr "UNKNOWN", JStr "").
Proof. vm_compute. repeat split. Qed.



(** The run of [main] on that table saves nothing. *)
Lemma null_latitude_ends_main :
  forall math : pymath,
    main math "key" (always null_latitude) college_rows = NoResult.
Proof. intros math. vm_compute. reflexivity. Qed.

(** ** The loop body, case by case *)

Lemma process_row_cases :
  forall (math : pymath) (resolve : provider) (row row' : record)
         (counts : counters)
         (calls : list string) (st' : progress),
    process_row math resolve row (counts, calls) = Some (row', st') ->
    (row' = row /\ st' = (count_skipped counts, calls) /\ requests_for row = [])
    \/ (row' = row
        /\ st' = (count_failed counts, (calls ++ requests_for row)%list)
        /\ List.length (requests_for row) = 1)
    \/ (exists (lat lon : float) (loc_type formatted address : string)
               (row2 : record),
           shift_row math row (set_geocoded row lat lon address formatted loc_type)
             lat lon = Some row2
           /\ row' = set_flags row2
                       (fst (merge_flags (flag_status row2) (flag_reason row2)
                               (post_geocode_flags row loc_type formatted)))
                       (snd (merge_flags (flag_status row2) (flag_reason row2)
                               (post_geocode_flags row loc_type formatted)))
           /\ st' = (count_geocoded counts, (calls ++ requests_for row)%list)
           /\ List.length (requests_for row) = 1).
Proof.
  intros math resolve row row' counts calls st'. unfold process_row, requests_for.
  destruct (is_too_vague row).
  { intros H. injection H as <- <-. left. repeat split. }
  destruct (construct_address row) as [address |].
  2: { intros H. injection H as <- <-. left. repeat split. }
  destruct (nonempty address); cbn [negb].
  2: { intros H. injection H as <- <-. left. repeat split. }
  destruct (geocode_address_google _) as [[[[[lat |] [lon |]] lt] fa] | e];
    try discriminate;
    try (intros H; injection H as <- <-; right; left; repeat split).
  destruct (float_truthy lat && float_truthy lon).
  2: { intros H. injection H as <- <-. right. left. repeat split. }
  destruct lt as [| | | | lt | |]; try discriminate.
  destruct fa as [| | | | fa | |]; try discriminate.
  destruct (shift_row math row _ lat lon) as [row2 |] eqn:Hshift; [| discriminate].
  destruct (merge_flags _ _ _) as [status reason] eqn:Hm.
  intros H. injection H as <- <-. right. right.
  exists lat, lon, lt, fa, address, row2. rewrite Hm. repeat split. exact Hshift.
Qed.

(** Applying the offset leaves the location columns and the flags alone,
    and writes the shifted coordinates together. *)
Lemma shift_row_frame :
  forall (math : pymath) (row row1 row2 : record) (lat lon : float),
    shift_row math row row1 lat lon = Some row2 ->
    location_columns row2 = location_columns row1
    /\ flag_status row2 = flag_status row1
    /\ flag_reason row2 = flag_reason row1
    /\ (shifted_pair row1 = true -> shifted_pair row2 = true).
Proof.
  intros math row row1 row2 lat lon. unfold shift_row.
  destruct (nonempty _).
  - destruct (parse_directional_offset _) as [[distance |] [bearing |]].
    + destruct (float_truthy distance && num_truthy bearing).
      * destruct (apply_offset _ _ _ _ _) as [[la lo] |]; [| discriminate].
        intros H. injection H as <-. repeat split.
      * intros H. injection H as <-. repeat split; auto.
    + intros H. injection H as <-. repeat split; auto.
    + intros H. injection H as <-. repeat split; auto.
    + intros H. injection H as <-. repeat split; auto.
  - intros H. injection H as <-. repeat split; auto.
Qed.

Lemma process_row_progress :
  forall (math : pymath) (resolve : provider) (row row' : record)
         (counts counts' : counters)
         (calls calls' : list string),
    process_row math resolve row (counts, calls) = Some (row', (counts', calls')) ->
    calls' = (calls ++ requests_for row)%list
    /\ counts_total counts' = S (counts_total counts)
    /\ geocoded_count counts' + failed_count counts'
       = geocoded_count counts + failed_count counts
         + List.length (requests_for row).
Proof.
  intros math resolve row row' counts counts' calls calls' H.
  apply process_row_cases in H.
  destruct H as [(_ & Hst & Hreq) | [(_ & Hst & Hreq) | H]].
  - injection Hst as -> ->. rewrite Hreq, app_nil_r.
    unfold counts_total. cbn. repeat split; lia.
  - injection Hst as -> ->. rewrite Hreq.
    unfold counts_total. cbn. repeat split; lia.
  - destruct H as (lat & lon & lt & fa & address & row2 & _ & _ & Hst & Hreq).
    injection Hst as -> ->. rewrite Hreq.
    unfold counts_total. cbn. repeat split; lia.
Qed.

Lemma process_row_frame :
  forall (math : pymath) (resolve : provider) (row row' : record)
         (st st' : progress),
    process_row math resolve row st = Some (row', st') ->
    location_columns row' = location_columns row
    /\ (shifted_pair row = true -> shifted_pair row' = true).
Proof.
  intros math resolve row row' [counts calls] st' H.
  apply process_row_cases in H.
  destruct H as [(-> & _) | [(-> & _) | H]]; [split; auto | split; auto |].
  destruct H as (lat & lon & lt & fa & address & row2 & Hshift & -> & _).
  apply shift_row_frame in Hshift. destruct Hshift as (Hloc & _ & _ & Hpair).
  split.
  - unfold location_columns in *. cbn. exact Hloc.
  - intros Hrow. unfold shifted_pair in *. cbn. now apply Hpair.
Qed.

(** ** Invariants of a run *)

Lemma loop_progress :
  forall (math : pymath) (resolve : provider) (rows rows' : list record)
         (counts counts' : counters) (calls calls' : list string),
    geocode_loop math resolve rows (counts, calls) = Some (rows', (counts', calls')) ->
    calls' = (calls ++ flat_map requests_for (filter should_geocode rows))%list
    /\ counts_total counts'
       = counts_total counts + List.length (filter should_geocode rows)
    /\ geocoded_count counts' + failed_count counts'
       = geocoded_count counts + failed_count counts
         + List.length (flat_map requests_for (filter should_geocode rows)).
Proof.
  intros math resolve rows.
  induction rows as [| row rows IH]; intros rows' counts counts' calls calls' H.
  - injection H as <- <- <-. cbn. rewrite app_nil_r. repeat split; lia.
  - cbn [geocode_loop] in H. cbn [filter]. destruct (should_geocode row).
    + destruct (process_row math resolve row (counts, calls))
        as [[row1 [counts1 calls1]] |] eqn:Hrow; [| discriminate].
      destruct (geocode_loop math resolve rows (counts1, calls1))
        as [[rest' [counts2 calls2]] |] eqn:Hrest; [| discriminate].
      injection H as <- <- <-.
      apply process_row_progress in Hrow. destruct Hrow as (-> & Ht & Hg).
      apply IH in Hrest. destruct Hrest as (-> & Ht' & Hg').
      cbn [flat_map]. rewrite length_app, <- app_assoc. cbn [List.length].
      repeat split; lia.
    + destruct (geocode_loop math resolve rows (counts, calls))
        as [[rest' [counts2 calls2]] |] eqn:Hrest; [| discriminate].
      injection H as <- <- <-. now apply IH in Hrest.
Qed.

Lemma loop_rows :
  forall (math : pymath) (resolve : provider) (rows rows' : list record)
         (st st' : progress),
    geocode_loop math resolve rows st = Some (rows', st') ->
    Forall2 (row_step math resolve) rows rows'.
Proof.
  intros math resolve rows. induction rows as [| row rows IH]; intros rows' st st' H.
  - injection H as <- <-. constructor.
  - cbn [geocode_loop] in H. destruct (should_geocode row) eqn:Hneed.
    + destruct (process_row math resolve row st) as [[row1 st1] |] eqn:Hrow;
        [| discriminate].
      destruct (geocode_loop math resolve rows st1) as [[rest' st2] |] eqn:Hrest;
        [| discriminate].
      injection H as <- <-. constructor; [| eapply IH; eassumption].
      right. split; [exact Hneed |]. now exists st, st1.
    + destruct (geocode_loop math resolve rows st) as [[rest' st2] |] eqn:Hrest;
        [| discriminate].
      injection H as <- <-. constructor; [| eapply IH; eassumption].
      left. now split.
Qed.

Lemma main_saved_loop :
  forall (math : pymath) (api_key : string) (resolve : provider)
         (df df' : list record)
         (counts : counters) (calls : list string),
    main math api_key resolve df = Saved df' counts calls ->
    geocode_loop math resolve (map preflag df) (Counters 0 0 0, [])
    = Some (df', (counts, calls)).
Proof.
  intros math api_key resolve df df' counts calls. unfold main.
  destruct (_ =? 0)%nat; [discriminate |].
  destruct (_ || _); [discriminate |].
  destruct (geocode_loop _ _ _ _) as [[rows' [counts' calls']] |]; [| discriminate].
  intros H. now injection H as <- <- <-.
Qed.

Lemma requests_for_preflag : forall r : record,
  requests_for (preflag r) = requests_for r.
Proof.
  intros r. unfold preflag. now destruct (flag_potential_issues r).
Qed.

Lemma candidates_preflag : forall df : list record,
  filter should_geocode (map preflag df) = map preflag (filter should_geocode df).
Proof.
  induction df as [| r df IH]; [reflexivity |].
  cbn [map filter]. rewrite should_geocode_preflag, IH.
  now destruct (should_geocode r).
Qed.

Lemma requests_preflag : forall rows : list record,
  flat_map requests_for (map preflag rows) = flat_map requests_for rows.
Proof.
  induction rows as [| r rows IH]; [reflexivity |].
  cbn [map flat_map]. now rewrite requests_for_preflag, IH.
Qed.

(** X8: the requests of a run.  A run that writes its table has sent one
    request for each row that lacks a coordinate and is not too vague, in
    the order of the rows and for the base address of the row; what the
    provider answers changes nothing in that (no request is repeated or
    dropped). *)
Theorem requests_in_row_order :
  forall (math : pymath) (api_key : string) (resolve : provider)
         (df df' : list record)
         (counts : counters) (calls : list string),
    main math api_key resolve df = Saved df' counts calls ->
    calls = flat_map requests_for (filter should_geocode df).
Proof.
  intros math api_key resolve df df' counts calls H.
  apply main_saved_loop, loop_progress in H. destruct H as (-> & _).
  now rewrite candidates_preflag, requests_preflag.
Qed.

Lemma requests_in_row_order_witness :
  main topeka_math "key" (always college_answer) college_rows
  = Saved [college_geocoded "REVIEW" "Geometric center of area"; shawnee_flagged]
          (Counters 1 1 0) ["1700 SW College Ave, Topeka, Kansas, USA"]
  /\ ["1700 SW College Ave, Topeka, Kansas, USA"]
     = flat_map requests_for (filter should_geocode college_rows).
Proof.
  split; [vm_compute; reflexivity |].
  apply (requests_in_row_order topeka_math "key" (always college_answer) college_rows
           [college_geocoded "REVIEW" "Geometric center of area"; shawnee_flagged]
           (Counters 1 1 0)).
  vm_compute. reflexivity.
Defined.

(** X9: the counters of a run.  Every row that lacks a coordinate is counted
    once, as geocoded, skipped or failed; the number of requests is the
    number of rows geocoded or failed; and the table written has as many
    rows as the table read. *)
Theorem counters_account_for_candidates :
  forall (math : pymath) (api_key : string) (resolve : provider)
         (df df' : list record)
         (counts : counters) (calls : list string),
    main math api_key resolve df = Saved df' counts calls ->
    geocoded_count counts + skipped_vague counts + failed_count counts
    = List.length (filter should_geocode df)
    /\ List.length calls = geocoded_count counts + failed_count counts
    /\ List.length df' = List.length df.
Proof.
  intros math api_key resolve df df' counts calls H.
  apply main_saved_loop in H.
  pose proof (loop_rows _ _ _ _ _ _ H) as Hrows.
  apply loop_progress in H. destruct H as (-> & Ht & Hg).
  unfold counts_total in Ht. cbn in Ht, Hg.
  rewrite candidates_preflag, length_map in Ht. cbn [app].
  repeat split.
  - exact Ht.
  - lia.
  - apply Forall2_length in Hrows. now rewrite length_map in Hrows.
Qed.

Lemma counters_account_for_candidates_witness :
  main topeka_math "key" (always college_answer) college_rows
  = Saved [college_geocoded "REVIEW" "Geometric center of area"; shawnee_flagged]
          (Counters 1 1 0) ["1700 SW College Ave, Topeka, Kansas, USA"]
  /\ 1 + 1 + 0 = List.length (filter should_geocode college_rows)
  /\ 1 = 1 + 0
  /\ 2 = List.length college_rows.
Proof.
  split; [vm_compute; reflexivity |].
  apply (counters_account_for_candidates topeka_math "key" (always college_answer)
           college_rows
           [college_geocoded "REVIEW" "Geometric center of area"; shawnee_flagged]
           (Counters 1 1 0) ["1700 SW College Ave, Topeka, Kansas, USA"]).
  vm_compute. reflexivity.
Defined.

Lemma step_location_columns :
  forall (math : pymath) (resolve : provider) (rows rows' : list record),
    Forall2 (row_step math resolve) rows rows' ->
    map location_columns rows' = map location_columns rows.
Proof.
  intros math resolve rows rows' H. induction H as [| r r' rows rows' Hstep _ IH];
    [reflexivity |].
  cbn [map]. rewrite IH. f_equal.
  destruct Hstep as [[_ ->] | [_ (st & st' & Hrow)]]; [reflexivity |].
  now apply process_row_frame in Hrow.
Qed.


Lemma preflag_location_columns : forall df : list record,
  map location_columns (map preflag df) = map location_columns df.
Proof.
  induction df as [| r df IH]; [reflexivity |].
  cbn [map]. rewrite IH. f_equal.
  unfold preflag. now destruct (flag_potential_issues r).
Qed.


(** X10: the columns of the table.  A run never changes the precise
    location, city, county, state or country of a row: the table written
    holds them as the table read, row for row. *)
Theorem location_columns_untouched :
  forall (math : pymath) (api_key : string) (resolve : provider)
         (df df' : list record)
         (counts : counters) (calls : list string),
    main math api_key resolve df = Saved df' counts calls ->
    map location_columns df' = map location_columns df.
Proof.
  intros math api_key resolve df df' counts calls H.
  apply main_saved_loop, loop_rows, step_location_columns in H.
  now rewrite preflag_location_columns in H.
Qed.

Lemma location_columns_untouched_witness :
  main topeka_math "key" (always college_answer) college_rows
  = Saved [college_geocoded "REVIEW" "Geometric center of area"; shawnee_flagged]
          (Counters 1 1 0) ["1700 SW College Ave, Topeka, Kansas, USA"]
  /\ map location_columns
       [college_geocoded "REVIEW" "Geometric center of area"; shawnee_flagged]
     = map location_columns college_rows.
Proof.
  split; [vm_compute; reflexivity |].
  apply (location_columns_untouched topeka_math "key" (always college_answer) college_rows
           [college_geocoded "REVIEW" "Geometric center of area"; shawnee_flagged]
           (Counters 1 1 0) ["1700 SW College Ave, Topeka, Kansas, USA"]).
  vm_compute. reflexivity.
Defined.




(** ** Flags through a run *)

Lemma determine_status_severity : forall flags : list string,
  exists s : severity, fst (determine_status flags) = status_name s.
Proof.
  intros flags. unfold determine_status.
  destruct flags as [| f flags]; [now exists OK |].
  destruct (existsb _ (f :: flags)); [now exists WARNING |].
  destruct (2 <=? _)%nat.
  - destruct (forallb _ _); [now exists OK | now exists REVIEW].
  - destruct flags; [| now exists OK].
    destruct (_ || _ || _); [now exists REVIEW | now exists OK].
Qed.

Lemma severity_leb_refl : forall s : severity, severity_leb s s = true.
Proof. intros []; reflexivity. Qed.

(** The merge on flags of the three kinds, status and reason. *)
Lemma merge_flags_grows :
  forall (s : severity) (reason : string) (post : list post_flag),
    exists (s' : severity) (suffix : string),
      merge_flags (status_name s) reason (map post_flag_text post)
      = (status_name s', reason ++ suffix)
      /\ severity_leb s s' = true.
Proof.
  intros s reason post. exists (merged_severity s post).
  exists (appended_reasons reason post). split; [| apply merged_severity_ge].
  destruct post as [| f post].
  - cbn. now rewrite append_empty_r.
  - unfold merge_flags, merged_severity, appended_reasons.
    cbn [map]. rewrite <- (critical_post_exists (f :: post)). cbn [map].
    set (crit := existsb _ (post_flag_text f :: map post_flag_text post)).
    f_equal.
    + destruct crit; [reflexivity |]. destruct s; reflexivity.
    + destruct (nonempty reason) eqn:E; [reflexivity |].
      apply nonempty_false in E. subst reason. reflexivity.
Qed.

Lemma process_row_flags :
  forall (math : pymath) (resolve : provider) (row row' : record)
         (st st' : progress)
         (s : severity),
    process_row math resolve row st = Some (row', st') ->
    flag_status row = status_name s ->
    exists (s' : severity) (suffix : string),
      flag_status row' = status_name s'
      /\ severity_leb s s' = true
      /\ flag_reason row' = flag_reason row ++ suffix.
Proof.
  intros math resolve row row' [counts calls] st' s H Hs.
  apply process_row_cases in H.
  destruct H as [(-> & _) | [(-> & _) | H]].
  - exists s, "". rewrite append_empty_r. auto using severity_leb_refl.
  - exists s, "". rewrite append_empty_r. auto using severity_leb_refl.
  - destruct H as (lat & lon & lt & fa & address & row2 & Hshift & -> & _).
    apply shift_row_frame in Hshift. destruct Hshift as (_ & Hst & Hre & _).
    cbn in Hst, Hre. rewrite Hst, Hre, Hs.
    destruct (post_geocode_flags_kinds row lt fa) as [post ->].
    destruct (merge_flags_grows s (flag_reason row) post)
      as (s' & suffix & -> & Hle).
    exists s', suffix. cbn. auto.
Qed.

Lemma Forall2_nth_error_both :
  forall (A B : Type) (P : A -> B -> Prop) (l : list A) (l' : list B),
    Forall2 P l l' ->
    forall (i : nat) (a : A) (b : B),
      nth_error l i = Some a -> nth_error l' i = Some b -> P a b.
Proof.
  intros A B P l l' H. induction H as [| x y l l' Hxy _ IH]; intros [| i] a b Ha Hb;
    try discriminate.
  - cbn in Ha, Hb. injection Ha as <-. injection Hb as <-. exact Hxy.
  - cbn in Ha, Hb. eapply IH; eassumption.
Qed.

(** X12: flags through a run.  For every row of a table that is written,
    the status written is one of OK, REVIEW, WARNING and is not below the
    status the pre-geocode stage gives the row, and the reasons written
    begin with the reasons of the pre-geocode stage: the stages after it
    only add. *)
Theorem flags_only_grow :
  forall (math : pymath) (api_key : string) (resolve : provider)
         (df df' : list record)
         (counts : counters) (calls : list string) (i : nat) (r r' : record),
    main math api_key resolve df = Saved df' counts calls ->
    nth_error df i = Some r ->
    nth_error df' i = Some r' ->
    exists (s s' : severity) (suffix : string),
      fst (flag_potential_issues r) = status_name s
      /\ flag_status r' = status_name s'
      /\ severity_leb s s' = true
      /\ flag_reason r' = snd (flag_potential_issues r) ++ suffix.
Proof.
  intros math api_key resolve df df' counts calls i r r' H Hr Hr'.
  apply main_saved_loop, loop_rows in H.
  assert (Hpre : nth_error (map preflag df) i = Some (preflag r))
    by now rewrite nth_error_map, Hr.
  pose proof (Forall2_nth_error_both _ _ _ _ _ H i _ _ Hpre Hr') as Hstep.
  destruct (determine_status_severity (collect_flags r)) as [s Hs].
  fold (flag_potential_issues r) in Hs.
  pose proof (preflag_flags r) as Hflags.
  assert (Hstatus : flag_status (preflag r) = status_name s).
  { rewrite <- Hs. now rewrite <- Hflags. }
  assert (Hreason : flag_reason (preflag r) = snd (flag_potential_issues r))
    by now rewrite <- Hflags.
  exists s.
  destruct Hstep as [[_ ->] | [_ (st & st' & Hrow)]].
  - exists s, "". rewrite append_empty_r. auto using severity_leb_refl.
  - destruct (process_row_flags _ _ _ _ _ _ s Hrow Hstatus) as (s' & suffix & H1 & H2 & H3).
    exists s', suffix. rewrite <- Hreason. auto.
Qed.

Lemma flags_only_grow_witness :
  (main topeka_math "key" (always college_answer) college_rows
   = Saved [college_geocoded "REVIEW" "Geometric center of area"; shawnee_flagged]
           (Counters 1 1 0) ["1700 SW College Ave, Topeka, Kansas, USA"]
   /\ nth_error college_rows 0
      = Some (new_row (Str "1700 SW College Ave") (Str "Topeka") NaN
                (Str "Kansas") NaN)
   /\ nth_error
        [college_geocoded "REVIEW" "Geometric center of area"; shawnee_flagged] 0
      = Some (college_geocoded "REVIEW" "Geometric center of area"))
  /\ exists (s s' : severity) (suffix : string),
       fst (flag_potential_issues
              (new_row (Str "1700 SW College Ave") (Str "Topeka") NaN
                 (Str "Kansas") NaN)) = status_name s
       /\ flag_status (college_geocoded "REVIEW" "Geometric center of area")
          = status_name s'
       /\ severity_leb s s' = true
       /\ flag_reason (college_geocoded "REVIEW" "Geometric center of area")
          = snd (flag_potential_issues
                   (new_row (Str "1700 SW College Ave") (Str "Topeka") NaN
                      (Str "Kansas") NaN)) ++ suffix.
Proof.
  split; [repeat split; vm_compute; reflexivity |].
  apply (flags_only_grow topeka_math "key" (always college_answer) college_rows
           [college_geocoded "REVIEW" "Geometric center of area"; shawnee_flagged]
           (Counters 1 1 0) ["1700 SW College Ave, Topeka, Kansas, USA"] 0).
  - vm_compute. reflexivity.
  - reflexivity.
  - reflexivity.
Defined.

(** ** More on the loop body *)

Lemma process_row_failure_witness :
  let row := preflag (new_row (Str "Gage Park") (Str "Topeka") NaN (Str "KS") NaN) in
  (is_too_vague row = false
   /\ construct_address row = Some "Gage Park, Topeka, KS, USA"
   /\ geocode_address_google
        (always ZeroResults (List.length (@nil string))
           (extract_base_location "Gage Park, Topeka, KS, USA"))
      = Return (None, None, JNull, JNull))
  /\ process_row topeka_math (always ZeroResults) row (Counters 0 0 0, [])
     = Some (row, (count_failed (Counters 0 0 0),
                   ([] ++ [extract_base_location "Gage Park, Topeka, KS, USA"])%list)).
Proof.
  split; [repeat split; vm_compute; reflexivity |].
  apply (process_row_failure topeka_math (always ZeroResults)
           (preflag (new_row (Str "Gage Park") (Str "Topeka") NaN (Str "KS") NaN))
           (Counters 0 0 0) [] "Gage Park, Topeka, KS, USA");
    vm_compute; reflexivity.
Defined.

(** X13: a success with a zero coordinate.  When the request returns
    coordinates of which the latitude or the longitude is zero (0.0 or
    -0.0), the row is left as it is and counted as failed, as if the request
    had returned nothing. *)
Theorem zero_coordinate_counts_as_failure :
  forall (math : pymath) (resolve : provider) (row : record) (counts : counters)
         (calls : list string) (address : string)
         (lat lon : float) (loc_type formatted : string),
    is_too_vague row = false ->
    construct_address row = Some address ->
    geocode_address_google
      (resolve (List.length calls) (extract_base_location address))
      = Return (Some lat, Some lon, JStr loc_type, JStr formatted) ->
    float_truthy lat && float_truthy lon = false ->
    process_row math resolve row (counts, calls)
    = Some (row, (count_failed counts,
                  (calls ++ [extract_base_location address])%list)).
Proof.
  intros math resolve row counts calls address lat lon lt fa Hvague Haddr Hres Hzero.
  unfold process_row. rewrite Hvague, Haddr.
  rewrite (construct_address_nonempty _ _ Haddr). cbn [negb].
  now rewrite Hres, Hzero.
Qed.

Lemma zero_coordinate_counts_as_failure_witness :
  let row := preflag (new_row (Str "Royal Observatory") (Str "Greenwich") NaN NaN
                        (Str "UK")) in
  let answer := Success 51.4765625 (-0) "ROOFTOP" "Blackheath Ave, London SE10 8XJ, UK" in
  (is_too_vague row = false
   /\ construct_address row = Some "Royal Observatory, Greenwich, UK"
   /\ geocode_address_google
        (always answer (List.length (@nil string))
           (extract_base_location "Royal Observatory, Greenwich, UK"))
      = Return (Some 51.4765625%float, Some (-0)%float, JStr "ROOFTOP",
                JStr "Blackheath Ave, London SE10 8XJ, UK")
   /\ float_truthy 51.4765625 && float_truthy (-0) = false)
  /\ process_row topeka_math (always answer) row (Counters 0 0 0, [])
     = Some (row, (count_failed (Counters 0 0 0),
                   ([] ++ [extract_base_location "Royal Observatory, Greenwich, UK"])%list)).
Proof.
  split; [repeat split; vm_compute; reflexivity |].
  apply (zero_coordinate_counts_as_failure topeka_math
           (always (Success 51.4765625 (-0) "ROOFTOP"
                      "Blackheath Ave, London SE10 8XJ, UK"))
           (preflag (new_row (Str "Royal Observatory") (Str "Greenwich") NaN NaN
                       (Str "UK")))
           (Counters 0 0 0) [] "Royal Observatory, Greenwich, UK"
           51.4765625%float (-0)%float "ROOFTOP"
           "Blackheath Ave, London SE10 8XJ, UK");
    vm_compute; reflexivity.
Defined.

(** X14: a success for a row without an offset.  When the request returns
    coordinates that are both non-zero and the precise location holds no
    distance and bearing, the loop body writes the coordinates, the address
    sent, the formatted address and the location type, merges the
    post-geocode flags into the flags of the row, leaves the shifted
    coordinates and the descriptor as they were, and counts the row as
    geocoded. *)
Theorem success_without_offset :
  forall (math : pymath) (resolve : provider) (row : record) (counts : counters)
         (calls : list string) (address : string)
         (lat lon : float) (loc_type formatted : string),
    is_too_vague row = false ->
    construct_address row = Some address ->
    geocode_address_google
      (resolve (List.length calls) (extract_base_location address))
      = Return (Some lat, Some lon, JStr loc_type, JStr formatted) ->
    float_truthy lat && float_truthy lon = true ->
    parse_directional_offset (strip (cell_text (prec_location row))) = (None, None) ->
    process_row math resolve row (counts, calls)
    = Some (set_flags (set_geocoded row lat lon address formatted loc_type)
              (fst (merge_flags (flag_status row) (flag_reason row)
                      (post_geocode_flags row loc_type formatted)))
              (snd (merge_flags (flag_status row) (flag_reason row)
                      (post_geocode_flags row loc_type formatted))),
            (count_geocoded counts,
             (calls ++ [extract_base_location address])%list)).
Proof.
  intros math resolve row counts calls address lat lon lt fa
         Hvague Haddr Hres Htruthy Hparse.
  unfold process_row. rewrite Hvague, Haddr.
  rewrite (construct_address_nonempty _ _ Haddr). cbn [negb].
  rewrite Hres, Htruthy. unfold shift_row. cbv zeta. rewrite Hparse.
  destruct (nonempty _); cbn [set_geocoded flag_status flag_reason];
    destruct (merge_flags _ _ _); reflexivity.
Qed.

Lemma success_without_offset_witness :
  let row := preflag (new_row (Str "1700 SW College Ave") (Str "Topeka") NaN
                        (Str "Kansas") NaN) in
  (is_too_vague row = false
   /\ construct_address row = Some "1700 SW College Ave, Topeka, Kansas, USA"
   /\ geocode_address_google
        (always college_answer (List.length (@nil string))
           (extract_base_location "1700 SW College Ave, Topeka, Kansas, USA"))
      = Return (Some topeka_lat, Some topeka_lon, JStr "GEOMETRIC_CENTER",
                JStr "1700 SW College Ave, Topeka, KS 66621, USA")
   /\ float_truthy topeka_lat && float_truthy topeka_lon = true
   /\ parse_directional_offset (strip (cell_text (prec_location row)))
      = (None, None))
  /\ process_row topeka_math (always college_answer) row (Counters 0 0 0, [])
     = Some (set_flags
               (set_geocoded row topeka_lat topeka_lon
                  "1700 SW College Ave, Topeka, Kansas, USA"
                  "1700 SW College Ave, Topeka, KS 66621, USA" "GEOMETRIC_CENTER")
               (fst (merge_flags (flag_status row) (flag_reason row)
                       (post_geocode_flags row "GEOMETRIC_CENTER"
                          "1700 SW College Ave, Topeka, KS 66621, USA")))
               (snd (merge_flags (flag_status row) (flag_reason row)
                       (post_geocode_flags row "GEOMETRIC_CENTER"
                          "1700 SW College Ave, Topeka, KS 66621, USA"))),
             (count_geocoded (Counters 0 0 0),
              ([] ++ [extract_base_location
                        "1700 SW College Ave, Topeka, Kansas, USA"])%list)).
Proof.
  split; [repeat split; vm_compute; reflexivity |].
  apply (success_without_offset topeka_math (always college_answer)
           (preflag (new_row (Str "1700 SW College Ave") (Str "Topeka") NaN
                       (Str "Kansas") NaN))
           (Counters 0 0 0) [] "1700 SW College Ave, Topeka, Kansas, USA"
           topeka_lat topeka_lon "GEOMETRIC_CENTER"
           "1700 SW College Ave, Topeka, KS 66621, USA");
    vm_compute; reflexivity.
Defined.

(** ** How a run ends *)

Lemma main_keeps_geocoded_rows_witness :
  let r := college_geocoded "REVIEW" "Geometric center of area" in
  let df := [r; shawnee_flagged] in
  let df' := [college_geocoded "OK" ""; shawnee_flagged] in
  (main topeka_math "key" (always college_answer) df = Saved df' (Counters 0 1 0) []
   /\ nth_error df 0 = Some r
   /\ should_geocode r = false)
  /\ List.length df' = List.length df
  /\ nth_error df' 0 = Some (preflag r).
Proof.
  split; [repeat split; vm_compute; reflexivity |].
  destruct (main_keeps_geocoded_rows topeka_math "key" (always college_answer)
              [college_geocoded "REVIEW" "Geometric center of area"; shawnee_flagged]
              [college_geocoded "OK" ""; shawnee_flagged] (Counters 0 1 0) [])
    as [Hlen Hnth]; [vm_compute; reflexivity |].
  split; [exact Hlen |].
  apply (Hnth 0 (college_geocoded "REVIEW" "Geometric center of area"));
    reflexivity.
Defined.

Lemma no_candidate_preflag : forall df : list record,
  (List.length (filter should_geocode (map preflag df)) =? 0)%nat
  = forallb (fun r => negb (should_geocode r)) df.
Proof.
  induction df as [| r df IH]; [reflexivity |].
  cbn [map filter forallb]. rewrite should_geocode_preflag.
  destruct (should_geocode r); [reflexivity | exact IH].
Qed.

(** X15: the early return.  A run ends with the message that all rows have
    coordinates exactly when no row lacks a latitude or a longitude; the API
    key is not looked at then, and no request is made. *)
Theorem early_return_exactly :
  forall (math : pymath) (api_key : string) (resolve : provider)
         (df : list record),
    main math api_key resolve df = AllHaveCoordinates
    <-> forallb (fun r => negb (should_geocode r)) df = true.
Proof.
  intros math api_key resolve df. unfold main. rewrite no_candidate_preflag.
  destruct (forallb _ df); [split; reflexivity |].
  split; [| discriminate].
  destruct (_ || _); [discriminate |].
  destruct (geocode_loop _ _ _ _) as [[rows [counts calls]] |]; discriminate.
Qed.

(** X16: the check of the API key.  A run stops for want of a key exactly
    when some row lacks a coordinate and the key is empty or still the
    placeholder of the script; the rows are not looked at further and no
    request is made. *)
Theorem missing_key_exactly :
  forall (math : pymath) (api_key : string) (resolve : provider)
         (df : list record),
    main math api_key resolve df = MissingApiKey
    <-> (existsb should_geocode df = true
         /\ (api_key = "YOUR_GOOGLE_API_KEY_HERE" \/ api_key = "")).
Proof.
  intros math api_key resolve df. unfold main. rewrite no_candidate_preflag.
  assert (Hex : existsb should_geocode df
                = negb (forallb (fun r => negb (should_geocode r)) df)).
  { induction df as [| r df IH]; [reflexivity |].
    cbn [existsb forallb]. rewrite IH. now destruct (should_geocode r). }
  rewrite Hex. destruct (forallb _ df); cbn [negb].
  { split; [discriminate | intros [H _]; discriminate H]. }
  destruct (String.eqb api_key "YOUR_GOOGLE_API_KEY_HERE") eqn:Ekey; cbn [orb].
  { apply String.eqb_eq in Ekey. split; auto. }
  apply String.eqb_neq in Ekey.
  destruct api_key as [| c key]; cbn [nonempty negb].
  { split; auto. }
  split.
  - destruct (geocode_loop _ _ _ _) as [[rows [counts calls]] |]; discriminate.
  - intros [_ [H | H]]; [contradiction | discriminate H].
Qed.

(** ** Rows that are skipped *)

Lemma requests_for_specific : forall row : record,
  is_too_vague row = false ->
  exists address : string,
    construct_address row = Some address
    /\ requests_for row = [extract_base_location address].
Proof.
  intros row H. destruct (construct_address_is_some row) as [address Ha].
  exists address. split; [exact Ha |].
  unfold requests_for. now rewrite H, Ha, (construct_address_nonempty _ _ Ha).
Qed.

Lemma process_row_skipped :
  forall (math : pymath) (resolve : provider) (row row' : record)
         (counts counts' : counters)
         (calls calls' : list string),
    process_row math resolve row (counts, calls) = Some (row', (counts', calls')) ->
    skipped_vague counts'
    = skipped_vague counts + (if is_too_vague row then 1 else 0).
Proof.
  intros math resolve row row' counts counts' calls calls'. unfold process_row.
  destruct (is_too_vague row).
  { intros H. injection H as _ <- _. cbn. lia. }
  destruct (construct_address_is_some row) as [address Ha].
  rewrite Ha, (construct_address_nonempty _ _ Ha). cbn [negb].
  destruct (geocode_address_google _) as [[[[[lat |] [lon |]] lt] fa] | e];
    try discriminate;
    try (intros H; injection H as _ <- _; cbn; lia).
  destruct (float_truthy lat && float_truthy lon).
  2: { intros H. injection H as _ <- _. cbn. lia. }
  destruct lt as [| | | | lt | |]; try discriminate.
  destruct fa as [| | | | fa | |]; try discriminate.
  destruct (shift_row math row _ lat lon) as [row2 |]; [| discriminate].
  destruct (merge_flags _ _ _) as [status reason].
  intros H. injection H as _ <- _. cbn. lia.
Qed.

Lemma loop_skipped :
  forall (math : pymath) (resolve : provider) (rows rows' : list record)
         (counts counts' : counters) (calls calls' : list string),
    geocode_loop math resolve rows (counts, calls) = Some (rows', (counts', calls')) ->
    skipped_vague counts'
    = skipped_vague counts
      + List.length (filter is_too_vague (filter should_geocode rows)).
Proof.
  intros math resolve rows.
  induction rows as [| row rows IH]; intros rows' counts counts' calls calls' H.
  - injection H as _ <- _. cbn. lia.
  - cbn [geocode_loop] in H. cbn [filter]. destruct (should_geocode row).
    + destruct (process_row math resolve row (counts, calls))
        as [[row1 [counts1 calls1]] |] eqn:Hrow; [| discriminate].
      destruct (geocode_loop math resolve rows (counts1, calls1))
        as [[rest' [counts2 calls2]] |] eqn:Hrest; [| discriminate].
      injection H as _ <- _.
      apply process_row_skipped in Hrow. apply IH in Hrest.
      cbn [filter]. destruct (is_too_vague row); cbn [List.length]; lia.
    + destruct (geocode_loop math resolve rows (counts, calls))
        as [[rest' [counts2 calls2]] |] eqn:Hrest; [| discriminate].
      injection H as _ <- _. now apply IH in Hrest.
Qed.

Lemma too_vague_preflag : forall rows : list record,
  filter is_too_vague (map preflag rows) = map preflag (filter is_too_vague rows).
Proof.
  induction rows as [| r rows IH]; [reflexivity |].
  cbn [map filter]. rewrite IH.
  replace (is_too_vague (preflag r)) with (is_too_vague r)
    by (unfold preflag; now destruct (flag_potential_issues r)).
  now destruct (is_too_vague r).
Qed.

(** X17: the rows skipped.  The address built for a row is never empty (its
    last part is the country or USA), so the only rows a run skips are those
    with neither city nor precise location: the counter of skipped rows is
    the number of such rows among those that lack a coordinate, and a
    request is sent for every other one. *)
Theorem skipped_are_the_vague_rows :
  forall (math : pymath) (api_key : string) (resolve : provider)
         (df df' : list record)
         (counts : counters) (calls : list string),
    main math api_key resolve df = Saved df' counts calls ->
    skipped_vague counts
    = List.length (filter is_too_vague (filter should_geocode df))
    /\ List.length calls
       = List.length (filter (fun r => negb (is_too_vague r))
                        (filter should_geocode df)).
Proof.
  intros math api_key resolve df df' counts calls H.
  apply main_saved_loop in H.
  pose proof (loop_skipped _ _ _ _ _ _ _ _ H) as Hskip.
  apply loop_progress in H. destruct H as (-> & _ & _).
  rewrite candidates_preflag in *. rewrite requests_preflag.
  rewrite too_vague_preflag, length_map in Hskip. cbn in Hskip.
  split; [exact Hskip |]. cbn [app].
  generalize (filter should_geocode df). intros rows.
  induction rows as [| r rows IH]; [reflexivity |].
  cbn [flat_map filter]. rewrite length_app, IH.
  destruct (is_too_vague r) eqn:Hv; cbn [negb].
  - unfold requests_for. now rewrite Hv.
  - destruct (requests_for_specific r Hv) as (address & _ & ->). reflexivity.
Qed.

Lemma skipped_are_the_vague_rows_witness :
  main topeka_math "key" (always college_answer) college_rows
  = Saved [college_geocoded "REVIEW" "Geometric center of area"; shawnee_flagged]
          (Counters 1 1 0) ["1700 SW College Ave, Topeka, Kansas, USA"]
  /\ 1 = List.length (filter is_too_vague (filter should_geocode college_rows))
  /\ 1 = List.length (filter (fun r => negb (is_too_vague r))
                        (filter should_geocode college_rows)).
Proof.
  split; [vm_compute; reflexivity |].
  apply (skipped_are_the_vague_rows topeka_math "key" (always college_answer) college_rows
           [college_geocoded "REVIEW" "Geometric center of area"; shawnee_flagged]
           (Counters 1 1 0) ["1700 SW College Ave, Topeka, Kansas, USA"]).
  vm_compute. reflexivity.
Defined.

(** ** The state check after geocoding *)

Lemma lower_empty : forall s : string, lower s = "" -> s = "".
Proof. intros [| c s] H; [reflexivity | discriminate H]. Qed.

(** X18: states the table does not know.  When the state of a row, stripped
    and lowered, is not one of the fifty full names of the table (a
    two-letter code, a province, a misspelling), no state mismatch is ever
    flagged, whatever address the provider gives back. *)
Theorem unknown_state_never_mismatches :
  forall (row : record) (loc_type formatted : string),
    dict_get state_abbrev (lower (strip (cell_text (province_state row)))) = None ->
    existsb (starts_with "State mismatch")
      (post_geocode_flags row loc_type formatted) = false.
Proof.
  intros row lt fa H. unfold post_geocode_flags. cbv zeta.
  rewrite (unknown_state_is_found _ (lower fa) H). cbn [negb].
  rewrite andb_false_r. unfold append_if.
  repeat match goal with
         | |- context [if ?b then _ else _] => destruct b
         end; reflexivity.
Qed.

Lemma unknown_state_never_mismatches_witness :
  let row := new_row (Str "Main St") (Str "Springfield") NaN (Str "KS") NaN in
  dict_get state_abbrev (lower (strip (cell_text (province_state row)))) = None
  /\ existsb (starts_with "State mismatch")
       (post_geocode_flags row "ROOFTOP" "Springfield, MO 65806, USA") = false.
Proof.
  split; [reflexivity |].
  apply (unknown_state_never_mismatches
           (new_row (Str "Main St") (Str "Springfield") NaN (Str "KS") NaN)
           "ROOFTOP" "Springfield, MO 65806, USA").
  reflexivity.
Defined.

(** X19: states the table knows.  When the state of a row is a full name of
    the table and the provider gives back a non-empty address, a state
    mismatch is flagged exactly when neither the name nor its two-letter
    code occurs anywhere in the lowered address, as a substring (the code
    may sit inside a word). *)
Theorem known_state_mismatch_exactly :
  forall (row : record) (loc_type formatted expected abbrev : string),
    province_state row = Str expected ->
    dict_get state_abbrev (lower (strip expected)) = Some abbrev ->
    nonempty formatted = true ->
    existsb (starts_with "State mismatch")
      (post_geocode_flags row loc_type formatted)
    = negb (contains (lower (strip expected)) (lower formatted))
      && negb (contains abbrev (lower formatted)).
Proof.
  intros row lt fa expected abbrev Hrow Hkey Hfa.
  assert (Hne : nonempty (strip expected) = true).
  { destruct (nonempty (strip expected)) eqn:E; [reflexivity |].
    apply nonempty_false in E. rewrite E in Hkey. discriminate Hkey. }
  unfold post_geocode_flags. cbv zeta.
  rewrite Hfa, Hrow. cbn [notna cell_text].
  unfold state_abbrev_get. rewrite Hkey, Hne. cbn [andb].
  rewrite negb_orb. unfold append_if.
  destruct (negb (contains (lower (strip expected)) (lower fa))
            && negb (contains abbrev (lower fa)));
    repeat match goal with
           | |- context [if ?b then _ else _] => destruct b
           end; reflexivity.
Qed.

Lemma known_state_mismatch_exactly_witness :
  let row := new_row (Str "Main St") (Str "Springfield") NaN (Str " Kansas") NaN in
  (province_state row = Str " Kansas"
   /\ dict_get state_abbrev (lower (strip " Kansas")) = Some "ks"
   /\ nonempty "Springfield, MO 65806, USA" = true)
  /\ existsb (starts_with "State mismatch")
       (post_geocode_flags row "ROOFTOP" "Springfield, MO 65806, USA")
     = negb (contains (lower (strip " Kansas")) (lower "Springfield, MO 65806, USA"))
       && negb (contains "ks" (lower "Springfield, MO 65806, USA")).
Proof.
  split; [repeat split |].
  apply (known_state_mismatch_exactly
           (new_row (Str "Main St") (Str "Springfield") NaN (Str " Kansas") NaN)
           "ROOFTOP" "Springfield, MO 65806, USA" " Kansas" "ks");
    reflexivity.
Defined.

(** ** The address builder, in general *)

Lemma append_assoc : forall a b c : string, (a ++ b) ++ c = a ++ b ++ c.
Proof.
  induction a as [| x a IH]; intros b c; cbn; [reflexivity | now rewrite IH].
Qed.

Lemma join_last : forall (sep : string) (l : list string) (x : string),
  exists head : string, join sep (l ++ [x]) = head ++ x.
Proof.
  intros sep l x. induction l as [| p l [head IH]]; [now exists "" |].
  cbn [app join]. destruct (l ++ [x])%list eqn:E.
  - destruct l; discriminate E.
  - exists (p ++ sep ++ head). rewrite IH.
    now rewrite !append_assoc.
Qed.

(** X20: the address built for a row.  For every row there is an address:
    it is never nothing and never empty, and it ends with the country of the
    row, stripped, or with USA when the row has no country. *)
Theorem construct_address_total :
  forall row : record,
    exists address head : string,
      construct_address row = Some address
      /\ nonempty address = true
      /\ address
         = head ++ (if has_value (country row)
                    then strip (cell_text (country row)) else "USA").
Proof.
  intros row. destruct (construct_address_is_some row) as [address Ha].
  exists address. pose proof (construct_address_nonempty _ _ Ha) as Hne.
  revert Ha. unfold construct_address.
  destruct (has_value (country row));
    match goal with
    | |- context [match (?parts ++ [?x])%list with _ => _ end] =>
        set (l := parts);
        destruct (join_last ", " l x) as [head Hj];
        destruct (l ++ [x])%list eqn:E;
        [ destruct l; discriminate E
        | intros H; injection H as <-; exists head; auto ]
    end.
Qed.

(** ** The flags of the first stage *)

Lemma fired_flags_in :
  forall (texts : list string) (conditions : list bool) (f : string),
    In f (fired_flags conditions texts) -> In f texts.
Proof.
  unfold fired_flags. intros texts conditions. revert texts.
  induction conditions as [| b conditions IH]; intros [| t texts] f H;
    try contradiction.
  cbn [combine flat_map fst snd] in H. apply in_app_or in H as [H | H].
  - destruct b; [| contradiction]. destruct H as [<- | []]. now left.
  - right. now apply IH.
Qed.

Lemma fired_flags_NoDup :
  forall (texts : list string) (conditions : list bool),
    NoDup texts -> NoDup (fired_flags conditions texts).
Proof.
  intros texts conditions. revert texts.
  induction conditions as [| b conditions IH]; intros [| t texts] H;
    try constructor.
  inversion H as [| ? ? Hnot Hrest]; subst.
  change (NoDup (fired b t ++ fired_flags conditions texts)).
  destruct b; cbn [fired app]; [| now apply IH].
  constructor; [| now apply IH].
  intros Hin. apply Hnot. eapply fired_flags_in; eassumption.
Qed.

Lemma rule_texts_NoDup : NoDup rule_texts.
Proof.
  unfold rule_texts.
  repeat (constructor;
          [ cbn [In]; intros H;
            repeat (destruct H as [H | H]; [discriminate H |]); exact H |]).
  constructor.
Qed.

(** X21: the messages of the first stage.  The flags of a row are messages
    of the script, each at most once; the two park messages never come
    together, nor do the two abbreviation messages, so a row has at most
    nine flags. *)
Theorem collect_flags_distinct :
  forall row : record,
    NoDup (collect_flags row)
    /\ incl (collect_flags row) rule_texts
    /\ List.length (collect_flags row) <= 9.
Proof.
  intros row. rewrite collect_flags_rules. split; [| split].
  - apply fired_flags_NoDup, rule_texts_NoDup.
  - intros f. apply fired_flags_in.
  - unfold rule_conditions, fired_flags, rule_texts. cbv zeta.
    cbn [combine flat_map fst snd]. rewrite !length_app.
    set (park := any_found park_keywords (location_text row)).
    set (few := (word_count (location_text row) <=? 3)%nat).
    set (has_prec := has_value (prec_location row)).
    set (dotted := (_ <=? 6)%nat && _).
    set (capitals := (_ <=? 4)%nat && _ && _).
    assert (Hpark : List.length (fired (park && few)
                       "Park/natural area (just name - may use geometric center)")
                    + List.length (fired (park && negb few)
                       "Park/natural area with detail (may still use center)") <= 1)
      by (destruct park, few; cbn; lia).
    assert (Habbr : List.length (fired (has_prec && dotted)
                       "Abbreviated location name")
                    + List.length (fired (has_prec && negb dotted && capitals)
                       "Possible acronym/abbreviation") <= 1)
      by (destruct has_prec, dotted, capitals; cbn; lia).
    repeat match goal with
           | |- context [List.length (fired ?b ?t)] =>
               let n := fresh "n" in
               let H := fresh "H" in
               assert (H : List.length (fired b t) <= 1)
                 by (destruct b; cbn; lia);
               set (n := List.length (fired b t)) in *
           end.
    cbn [List.length]. lia.
Qed.
